(** * etxd: the link state store, the probe receive path and the query server

    A shallow embedding of the Python 2 sources of etxd
    ([etx_data.py], [etx_probe.py], [etx_ipc.py] and the option handling of
    [etxd.py]) and the properties of the windowed ETX statistics.

    Conventions of the embedding.
    - A method of a Python object is a computation in the monad [Py S],
      [S -> Result A * S]: it returns a value or raises, and in both cases
      hands back the object as the statements executed so far left it.
    - Python [int] is [Z]; [int / int] is the floor division of Python 2.
    - Python [float] is idealised by the rationals [Q], and the
      arithmetic is exact.  Equality of floats that were computed is
      therefore stated with [==] ([Qeq]).  [float(x)] of a count taken
      from a received table is [inject_Z x] when [x] is in the range of a
      double and raises [OverflowError] otherwise; the length of a list is
      always in that range.  [WINDOW] and [INTERVAL] are ints that float
      arithmetic converts.
    - A [dict] with string keys is a [gmap string _]; a Python list of
      timestamps is a [list Q], oldest first.
    - [time.time()] is an input: every method that reads the clock takes
      the value read as its argument [clock]; a callback that reads the
      clock once for each interface takes the readings as a function of
      the key of the interface. *)

From stdpp Require Import gmap strings list fin_maps.
From Stdlib Require Import Ascii QArith Lqa.
Close Scope Q_scope.
Local Open Scope Z_scope.

(** ** Exceptions and the monad of Python methods *)

Inductive exn : Type :=
  | ZeroDivisionError
  | KeyError
  | ValueError
  | AttributeError
  | EOFError
  | UnpicklingError
  | OverflowError
  | IOError.

Definition exn_eqb (a b : exn) : bool :=
  match a, b with
  | ZeroDivisionError, ZeroDivisionError
  | KeyError, KeyError
  | ValueError, ValueError
  | AttributeError, AttributeError
  | EOFError, EOFError
  | UnpicklingError, UnpicklingError
  | OverflowError, OverflowError
  | IOError, IOError => true
  | _, _ => false
  end.

Inductive Result (A : Type) : Type :=
  | Ok (a : A)
  | Raise (e : exn).
Arguments Ok {A} a.
Arguments Raise {A} e.

Definition Py (S A : Type) : Type := S → Result A * S.

#[global] Instance Py_ret {S} : MRet (Py S) := λ A a s, (Ok a, s).

#[global] Instance Py_bind {S} : MBind (Py S) := λ A B f m s,
  match m s with
  | (Ok a, s') => f a s'
  | (Raise e, s') => (Raise e, s')
  end.

Definition raise {S A} (e : exn) : Py S A := λ s, (Raise e, s).
Definition gets {S A} (f : S → A) : Py S A := λ s, (Ok (f s), s).
Definition modify {S} (f : S → S) : Py S unit := λ s, (Ok tt, f s).
Definition pass {S} : Py S unit := mret tt.

(** [for x in l: body x] *)
Fixpoint for_each {S A} (l : list A) (body : A → Py S unit) : Py S unit :=
  match l with
  | [] => pass
  | x :: l' => body x ≫= λ _, for_each l' body
  end.

(** [for x in l: ...] with a local variable that the body updates. *)
Fixpoint fold_each {S A B} (l : list A) (acc : B) (body : B → A → Py S B)
    : Py S B :=
  match l with
  | [] => mret acc
  | x :: l' => body acc x ≫= λ acc', fold_each l' acc' body
  end.

(** [try: m except e: handler] *)
Definition try_except {S A} (m : Py S A) (e : exn) (handler : Py S A)
    : Py S A := λ s,
  match m s with
  | (Raise e', s') => if exn_eqb e' e then handler s' else (Raise e', s')
  | r => r
  end.

(** [d[k]] on a dict: [KeyError] when the key is missing. *)
Definition getitem {S V} (d : gmap string V) (k : string) : Py S V :=
  match d !! k with
  | Some v => mret v
  | None => raise KeyError
  end.

(** [a / b] on two Python 2 ints. *)
Definition int_div {S} (a b : Z) : Py S Z :=
  if decide (b = 0) then raise ZeroDivisionError else mret (a / b).

(** [x / b] with a float on the left and an int on the right. *)
Definition float_div {S} (x : Q) (b : Z) : Py S Q :=
  if decide (b = 0) then raise ZeroDivisionError else mret (x / inject_Z b)%Q.

(** The ints that [float()] converts: those that round to a double,
    which are the ints below [2 ** 1024 - 2 ** 970] in absolute value. *)
Definition float_range (n : Z) : Prop := Z.abs n < 2 ^ 1024 - 2 ^ 970.

(** [float(n)] on an int: [OverflowError] outside the range of a double. *)
Definition float_of_int {S} (n : Z) : Py S Q :=
  if decide (Z.abs n < 2 ^ 1024 - 2 ^ 970)
  then mret (inject_Z n) else raise OverflowError.

(** The keys of a dict, as the list [d.keys()] that Python 2 builds. *)
Definition keys {V} (d : gmap string V) : list string := (map_to_list d).*1.

(** A computation is read-only when it hands the object back as it got it,
    whether it returns or raises. *)
Definition readonly {S A} (m : Py S A) : Prop := ∀ s, (m s).2 = s.

(** ** Configuration ([EtxData.WINDOW], [EtxData.INTERVAL]) *)

Record Config : Type := mkConfig {
  WINDOW : Z;
  INTERVAL : Z }.

(** What the start-up of [etxd.py] guarantees about the two values. *)
Definition valid (cfg : Config) : Prop :=
  0 < INTERVAL cfg ∧ INTERVAL cfg ≤ WINDOW cfg.

(** ** The link state store ([etx_data.py]) *)

(** A two-hop table: what a neighbor broadcast, per address the pair that
    [get_probe_data] builds. *)
Abbreviation Table := (gmap string (Z * Z)).

Record EtxData : Type := mkEtxData {
  ip_address : string;
  _mac_addresses : gmap string string;
  _neighbor_probes : gmap string Table;
  _received_probes : gmap string (list Q) }.

(** [EtxData(ip_address)] *)
Definition EtxData_init (ip : string) : EtxData :=
  mkEtxData ip ∅ ∅ ∅.

Definition upd_mac_addresses (f : gmap string string → gmap string string)
    (self : EtxData) : EtxData :=
  mkEtxData (ip_address self) (f (_mac_addresses self))
            (_neighbor_probes self) (_received_probes self).

Definition upd_neighbor_probes (f : gmap string Table → gmap string Table)
    (self : EtxData) : EtxData :=
  mkEtxData (ip_address self) (_mac_addresses self)
            (f (_neighbor_probes self)) (_received_probes self).

Definition upd_received_probes
    (f : gmap string (list Q) → gmap string (list Q))
    (self : EtxData) : EtxData :=
  mkEtxData (ip_address self) (_mac_addresses self)
            (_neighbor_probes self) (f (_received_probes self)).

(** The [while] loop of [remove_old_probes] on one neighbor's list:
    [while len(l) > 0 and l[0] + WINDOW < timestamp: del l[0]]. *)
Fixpoint drop_old (window : Z) (timestamp : Q) (l : list Q) : list Q :=
  match l with
  | [] => []
  | t :: l' =>
      if Qlt_le_dec (t + inject_Z window) timestamp
      then drop_old window timestamp l'
      else l
  end.

Section Store.
Variable cfg : Config.

Definition set_neighbor_info (neighbor : string) (data : Table)
    : Py EtxData unit :=
  modify (upd_neighbor_probes <[neighbor := data]>).

Definition add_timestamp (clock : Q) (neighbor : string)
    (timestamp : option Q) : Py EtxData unit :=
  let timestamp := default clock timestamp in
  received ← gets _received_probes;
  (if decide (neighbor ∈ keys received) then pass
   else modify (upd_received_probes <[neighbor := []]>)) ≫= λ _,
  modify (upd_received_probes (alter (λ l, l ++ [timestamp]) neighbor)).

(** The body of the [for] loop of [remove_old_probes]. *)
Definition remove_old_probes_body (timestamp : Q) (neighbor : string)
    : Py EtxData unit :=
  received ← gets _received_probes;
  l ← getitem received neighbor;
  modify (upd_received_probes
            <[neighbor := drop_old (WINDOW cfg) timestamp l]>) ≫= λ _,
  received ← gets _received_probes;
  l ← getitem received neighbor;
  probes ← gets _neighbor_probes;
  if bool_decide (length l = 0%nat) && bool_decide (neighbor ∈ keys probes)
  then modify (upd_neighbor_probes (delete neighbor)) ≫= λ _,
       modify (upd_received_probes (delete neighbor))
  else pass.

Definition remove_old_probes (clock : Q) (timestamp : option Q)
    : Py EtxData unit :=
  let timestamp := default clock timestamp in
  received ← gets _received_probes;
  for_each (keys received) (remove_old_probes_body timestamp).

Definition _get_num_exp_probes : Py EtxData Z :=
  int_div (WINDOW cfg) (INTERVAL cfg).

Definition _get_num_probes_recv_from_me (neighbor : string)
    : Py EtxData Z :=
  probes ← gets _neighbor_probes;
  ip ← gets ip_address;
  match probes !! neighbor with
  | None => mret 0
  | Some table =>
      match table !! ip with
      | None => mret 0
      | Some entry => mret entry.1
      end
  end.

Definition _get_num_probes_recv_from_neighbor (neighbor : string)
    : Py EtxData Z :=
  received ← gets _received_probes;
  match received !! neighbor with
  | None => mret 0
  | Some l => mret (Z.of_nat (length l))
  end.

(** The count is whatever the neighbor's probe carried for this node's
    address, so [float()] may refuse it. *)
Definition _get_forward_ratio (neighbor : string) : Py EtxData Q :=
  sent ← _get_num_probes_recv_from_me neighbor;
  sent ← float_of_int sent;
  expected ← _get_num_exp_probes;
  df ← float_div sent expected;
  if Qlt_le_dec 1 df then mret 1%Q else mret df.

(** The count is the length of a list, which [float()] always converts. *)
Definition _get_reverse_ratio (neighbor : string) : Py EtxData Q :=
  received ← _get_num_probes_recv_from_neighbor neighbor;
  expected ← _get_num_exp_probes;
  dr ← float_div (inject_Z received) expected;
  if Qlt_le_dec 1 dr then mret 1%Q else mret dr.

Definition get_transmission_probability (neighbor : string)
    : Py EtxData Q :=
  df ← _get_forward_ratio neighbor;
  dr ← _get_reverse_ratio neighbor;
  mret (df * dr)%Q.

(** [1 / p] cannot raise: it is evaluated only when [p == 0] is false. *)
Definition get_etx (neighbor : string) : Py EtxData Q :=
  p ← get_transmission_probability neighbor;
  if Qeq_bool p 0 then mret (-1)%Q else mret (1 / p)%Q.

Definition get_probe_data : Py EtxData (gmap string (Z * Z)) :=
  received ← gets _received_probes;
  fold_each (keys received) ∅ (λ probe_data neighbor,
    from_neighbor ← _get_num_probes_recv_from_neighbor neighbor;
    from_me ← _get_num_probes_recv_from_me neighbor;
    mret (<[neighbor := (from_neighbor, from_me)]> probe_data)).

Definition get_neighbors (etx : bool) : Py EtxData (gmap string Q) :=
  received ← gets _received_probes;
  fold_each (keys received) ∅ (λ neighbors neighbor,
    if etx then
      etx_value ← get_etx neighbor;
      if Qlt_le_dec 0 etx_value
      then mret (<[neighbor := etx_value]> neighbors)
      else mret neighbors
    else
      prob_value ← get_transmission_probability neighbor;
      if Qlt_le_dec 0 prob_value
      then mret (<[neighbor := prob_value]> neighbors)
      else mret neighbors).

(** The values that [get_debug_info] formats into its string, in the
    order it computes them. *)
Record DebugInfo : Type := mkDebugInfo {
  dbg_ip : string; dbg_neighbor : string;
  dbg_received : Z; dbg_sent : Z; dbg_expected : Z;
  dbg_dr : Q; dbg_df : Q }.

Definition get_debug_info (neighbor : string) : Py EtxData DebugInfo :=
  ip ← gets ip_address;
  received ← _get_num_probes_recv_from_neighbor neighbor;
  sent ← _get_num_probes_recv_from_me neighbor;
  expected ← _get_num_exp_probes;
  dr ← _get_reverse_ratio neighbor;
  df ← _get_forward_ratio neighbor;
  mret (mkDebugInfo ip neighbor received sent expected dr df).

Definition set_mac (ip mac : string) : Py EtxData unit :=
  modify (upd_mac_addresses <[ip := mac]>).

(** [None] is Python's [None]: the address is unknown. *)
Definition get_mac (ip : string) : Py EtxData (option string) :=
  try_except
    (macs ← gets _mac_addresses; mac ← getitem macs ip; mret (Some mac))
    KeyError
    (mret None).

Definition _get_twohop_transmission_probability
    (neighbor_ip twohop_neighbor_ip : string) : Py EtxData Q :=
  probes ← gets _neighbor_probes;
  match probes !! neighbor_ip with
  | None => mret 0%Q
  | Some table =>
      match table !! twohop_neighbor_ip with
      | None => mret 0%Q
      | Some entry =>
          forward ← float_of_int entry.1;
          expected ← _get_num_exp_probes;
          df ← float_div forward expected;
          let df := if Qlt_le_dec 1 df then 1%Q else df in
          backward ← float_of_int entry.2;
          expected ← _get_num_exp_probes;
          dr ← float_div backward expected;
          let dr := if Qlt_le_dec 1 dr then 1%Q else dr in
          mret (df * dr)%Q
      end
  end.

End Store.


(** ** Start-up ([etxd.py], the [__main__] block)

    The options as [getopt] hands them over, the defaults, and the check
    that ends the process when the window is shorter than the interval. *)

Definition is_digit (c : ascii) : bool :=
  (48 <=? nat_of_ascii c)%nat && (nat_of_ascii c <=? 57)%nat.

Fixpoint all_digits (s : string) : bool :=
  match s with
  | EmptyString => true
  | String c s' => is_digit c && all_digits s'
  end.

(** [val.isdigit()]: every character is a digit and there is one at least. *)
Definition isdigit (s : string) : bool :=
  match s with
  | EmptyString => false
  | _ => all_digits s
  end.

Fixpoint int_from (acc : Z) (s : string) : Z :=
  match s with
  | EmptyString => acc
  | String c s' => int_from (10 * acc + (Z.of_nat (nat_of_ascii c) - 48)) s'
  end.

(** [int(val)] on a string of digits. *)
Definition int_of_str (s : string) : Z := int_from 0 s.

Record Settings : Type := mkSettings {
  IPC_PORT : Z;
  PROBE_PORT : Z;
  timing : Config;
  DEBUG : bool;
  protocol_DEBUG : bool;
  FOREGROUND : bool;
  debug_count : Z }.

Definition default_settings : Settings :=
  mkSettings 9157 9158 (mkConfig 10 1) false false false 0.

(** One turn of [for item in opt_list]. *)
Definition set_option (st : Settings) (item : string * string) : Settings :=
  let '(opt, val) := item in
  let ok := isdigit val && (0 <? int_of_str val) in
  if (opt =? "-p")%string then
    if ok
    then mkSettings (int_of_str val) (int_of_str val + 1) (timing st)
                    (DEBUG st) (protocol_DEBUG st) (FOREGROUND st)
                    (debug_count st)
    else st
  else if (opt =? "-i")%string then
    if ok
    then mkSettings (IPC_PORT st) (PROBE_PORT st)
                    (mkConfig (WINDOW (timing st)) (int_of_str val))
                    (DEBUG st) (protocol_DEBUG st) (FOREGROUND st)
                    (debug_count st)
    else st
  else if (opt =? "-w")%string then
    if ok
    then mkSettings (IPC_PORT st) (PROBE_PORT st)
                    (mkConfig (int_of_str val) (INTERVAL (timing st)))
                    (DEBUG st) (protocol_DEBUG st) (FOREGROUND st)
                    (debug_count st)
    else st
  else if (opt =? "-D")%string then
    mkSettings (IPC_PORT st) (PROBE_PORT st) (timing st) true
               (if 1 <? debug_count st + 1 then true else protocol_DEBUG st)
               (FOREGROUND st) (debug_count st + 1)
  else if (opt =? "-f")%string then
    mkSettings (IPC_PORT st) (PROBE_PORT st) (timing st) (DEBUG st)
               (protocol_DEBUG st) true (debug_count st)
  else st.

(** The settings the daemon runs with, or [None] for [sys.exit(1)] when
    [WINDOW < INTERVAL]. *)
Definition startup (opt_list : list (string * string)) : option Settings :=
  let st := foldl set_option default_settings opt_list in
  if WINDOW (timing st) <? INTERVAL (timing st) then None else Some st.

(** ** The probe protocol ([etx_probe.py]) *)

Record EtxProbeProtocol : Type := mkEtxProbeProtocol {
  if_name : string;
  own_ip : string }.

(** A library call that returns or raises, inside a method. *)
Definition lift {S A} (r : Result A) : Py S A := λ s, (r, s).

Section Probe.
Variable cfg : Config.
(** [pickle.loads], with the unpacking of its result into the pair
    [(neighbor_mac, data)]: a payload that is not such a pair raises. *)
Variable pickle_loads : string → Result (string * Table).

(** [clock] is the time [add_timestamp] reads and [clock'] the time
    [remove_old_probes] reads afterwards; [debug] is
    [EtxProbeProtocol.DEBUG]. The text handed to [syslog] is dropped. *)
Definition datagramReceived (self : EtxProbeProtocol) (debug : bool)
    (clock clock' : Q) (datagram : string) (addr : string * Z)
    : Py EtxData unit :=
  let neighbor_ip := addr.1 in
  if decide (neighbor_ip ≠ own_ip self) then
    '(neighbor_mac, data) ← lift (pickle_loads datagram);
    set_mac neighbor_ip neighbor_mac;;
    set_neighbor_info neighbor_ip data;;
    add_timestamp clock neighbor_ip None;;
    if debug then
      remove_old_probes cfg clock' None;;
      get_debug_info cfg neighbor_ip;;
      pass
    else pass
  else pass.

(** [send_probe] up to the serialisation: the pair that is pickled and
    broadcast. [mac] is the address [netifaces] reports. *)
Definition send_probe (mac : string) (clock : Q)
    : Py EtxData (string * gmap string (Z * Z)) :=
  remove_old_probes cfg clock None;;
  data ← get_probe_data;
  mret (mac, data).

End Probe.

(** What the receive path stores for a probe that deserialises: the three
    calls on the store in [datagramReceived]. *)
Definition record_probe (neighbor mac : string) (table : Table)
    (timestamp : Q) : Py EtxData unit :=
  set_mac neighbor mac;;
  set_neighbor_info neighbor table;;
  add_timestamp timestamp neighbor None.

(** ** The query server ([etx_ipc.py]) *)

(** [' \t\n\r\x0b\x0c']: the characters [str.split()] splits at. *)
Definition is_space (c : ascii) : bool :=
  let n := nat_of_ascii c in
  (n =? 32)%nat || ((9 <=? n)%nat && (n <=? 13)%nat).

Fixpoint split_from (word : string) (s : string) : list string :=
  match s with
  | EmptyString => if (word =? "")%string then [] else [word]
  | String c s' =>
      if is_space c
      then (if (word =? "")%string then [] else [word]) ++ split_from "" s'
      else split_from (word +:+ String c "") s'
  end.

(** [request.split()] *)
Definition split (s : string) : list string := split_from "" s.

Definition upper_ascii (c : ascii) : ascii :=
  let n := nat_of_ascii c in
  if (97 <=? n)%nat && (n <=? 122)%nat then ascii_of_nat (n - 32) else c.

(** [s.upper()] *)
Fixpoint upper (s : string) : string :=
  match s with
  | EmptyString => EmptyString
  | String c s' => String (upper_ascii c) (upper s')
  end.

(** An [Interface] object of [etxd.py]; [data] is [None] while the object
    has no [data] attribute. *)
Record Interface : Type := mkInterface {
  name : string;
  data : option EtxData }.

(** The protocol instance of one connection: the interfaces of its
    factory, the lines written to the transport, and whether the
    transport is still connected. *)
Record EtxIpcProtocol : Type := mkEtxIpcProtocol {
  interfaces : gmap string Interface;
  sent : list string;
  connected : bool }.

Definition ERR_SYNTAX : string := "INVALID SYNTAX".

Definition sendLine (line : string) : Py EtxIpcProtocol unit :=
  modify (λ self, mkEtxIpcProtocol (interfaces self) (sent self ++ [line])
                                   (connected self)).

Definition loseConnection : Py EtxIpcProtocol unit :=
  modify (λ self, mkEtxIpcProtocol (interfaces self) (sent self) false).

(** A method call on [interface.data], for the interface stored under
    [key]; the store is updated in place. *)
Definition on_data {A} (key : string) (m : Py EtxData A)
    : Py EtxIpcProtocol A := λ self,
  match interfaces self !! key with
  | Some (mkInterface nm (Some d)) =>
      let '(r, d') := m d in
      (r, mkEtxIpcProtocol
            (<[key := mkInterface nm (Some d')]> (interfaces self))
            (sent self) (connected self))
  | Some (mkInterface _ None) => (Raise AttributeError, self)
  | None => (Raise KeyError, self)
  end.

(** How a block of the handler ends: it falls through to the statement
    after it, or it leaves the method with [return]. *)
Inductive flow : Type := Next | Return.

Section Ipc.
Variable cfg : Config.
(** The readings of the clock during the callback: [now key] is what
    [remove_old_probes()] reads when it is called on the interface under
    [key] (each interface is visited once at most). *)
Variable now : string → Q.
(** [str] of a float, ["%d"] of an int, [float] of a string (it raises
    [ValueError] where this is [None]), and the channel the radio driver
    reports for an interface, or the exception it raises. *)
Variable str_float : Q → string.
Variable str_int : Z → string.
Variable float_of_str : string → option Q.
Variable getChannel : string → Result Z.

(** [for interface in self.factory.interfaces.values()], skipping with
    [continue] the interfaces without data. *)
Definition each_interface_with_data
    (body : string → Interface → Py EtxIpcProtocol unit)
    : Py EtxIpcProtocol unit :=
  ifs ← gets interfaces;
  for_each (keys ifs) (λ key,
    ifs ← gets interfaces;
    interface ← getitem ifs key;
    match data interface with
    | None => pass
    | Some _ => body key interface
    end).

Definition send_neighbors (key label : string) : Py EtxIpcProtocol unit :=
  on_data key (remove_old_probes cfg (now key) None);;
  neighbors ← on_data key (get_neighbors cfg false);
  for_each (map_to_list neighbors) (λ item,
    sendLine (label +:+ ":" +:+ item.1 +:+ ":" +:+ str_float item.2)).

Definition cmd_NEIGHBORS (request : list string) : Py EtxIpcProtocol flow :=
  match request !! 1%nat with
  | Some if_name =>
      ifs ← gets interfaces;
      if decide (if_name ∈ keys ifs) then
        interface ← getitem ifs if_name;
        match data interface with
        | None => mret Return
        | Some _ => send_neighbors if_name if_name;; mret Next
        end
      else mret Next
  | None =>
      each_interface_with_data (λ key interface,
        send_neighbors key (name interface));;
      mret Next
  end.

Definition cmd_MAC : Py EtxIpcProtocol flow :=
  each_interface_with_data (λ key interface,
    on_data key (remove_old_probes cfg (now key) None);;
    neighbors ← on_data key (get_neighbors cfg false);
    for_each (map_to_list neighbors) (λ item,
      mac ← on_data key (get_mac item.1);
      match mac with
      | None => pass
      | Some mac =>
          if (mac =? "")%string then pass
          else sendLine (name interface +:+ "|" +:+ mac +:+ "|"
                         +:+ str_float item.2)
      end));;
  mret Next.

(** [float(request[1])] *)
Definition to_float (s : string) : Py EtxIpcProtocol Q :=
  match float_of_str s with
  | Some x => mret x
  | None => raise ValueError
  end.

Definition cmd_CHAFT (request : list string) : Py EtxIpcProtocol flow :=
  min_prob ←
    match request !! 1%nat with
    | Some arg =>
        x ← to_float arg;
        if Qle_bool 0 x
        then y ← to_float arg;
             if Qle_bool y 1 then to_float arg else mret 0%Q
        else mret 0%Q
    | None => mret 0%Q
    end;
  each_interface_with_data (λ key interface,
    channel ← lift (getChannel (name interface));
    on_data key (remove_old_probes cfg (now key) None);;
    neighbors ← on_data key (get_neighbors cfg false);
    for_each (map_to_list neighbors) (λ item,
      if Qle_bool min_prob item.2
      then sendLine (item.1 +:+ ":" +:+ str_int channel)
      else pass));;
  mret Next.

Definition cmd_QUALITY (request : list string) : Py EtxIpcProtocol flow :=
  match request !! 1%nat with
  | None => sendLine ERR_SYNTAX;; mret Next
  | Some neighbor =>
      each_interface_with_data (λ key interface,
        on_data key (remove_old_probes cfg (now key) None);;
        neighbors ← on_data key (get_neighbors cfg false);
        if decide (neighbor ∈ keys neighbors) then
          quality ← on_data key (get_transmission_probability cfg neighbor);
          sendLine (neighbor +:+ ":" +:+ str_float quality)
        else pass);;
      mret Next
  end.

Definition cmd_ETX (request : list string) : Py EtxIpcProtocol flow :=
  match request !! 1%nat with
  | None => sendLine ERR_SYNTAX;; mret Next
  | Some neighbor =>
      each_interface_with_data (λ key interface,
        on_data key (remove_old_probes cfg (now key) None);;
        neighbors ← on_data key (get_neighbors cfg false);
        if decide (neighbor ∈ keys neighbors) then
          etx ← on_data key (get_etx cfg neighbor);
          sendLine (neighbor +:+ ":" +:+ str_float etx)
        else pass);;
      mret Next
  end.

(** The [if]/[elif] chain of [lineReceived] on the split request, whose
    first word is already in upper case. *)
Definition dispatch (request : list string) : Py EtxIpcProtocol flow :=
  let command := default "" (request !! 0%nat) in
  if (command =? "NEIGHBORS")%string then cmd_NEIGHBORS request
  else if (command =? "MAC")%string then cmd_MAC
  else if (command =? "CHAFT")%string then cmd_CHAFT request
  else if (command =? "QUALITY")%string then cmd_QUALITY request
  else if (command =? "ETX")%string then cmd_ETX request
  else sendLine ERR_SYNTAX;; mret Next.

(** [request.split()], [""] for an empty request, first word upper-cased. *)
Definition parse_request (request : string) : list string :=
  let request := split request in
  let request := if bool_decide (length request = 0%nat)
                 then request ++ [""] else request in
  match request with
  | [] => []
  | command :: args => upper command :: args
  end.

Definition lineReceived (request : string) : Py EtxIpcProtocol unit :=
  f ← dispatch (parse_request request);
  match f with
  | Return => pass
  | Next => loseConnection
  end.

End Ipc.

(** ** The values the accessors return

    Closed forms of what the accessors compute on a store, used to state
    what a call returns; the lemmas [*_run] below relate each of them to
    the method it describes. *)

(** [df > 1] replaced by [1.0]. *)
Definition clamp (x : Q) : Q := if Qlt_le_dec 1 x then 1%Q else x.

Definition expected_of (cfg : Config) : Z := WINDOW cfg / INTERVAL cfg.

Definition reported_of (self : EtxData) (neighbor : string) : Z :=
  match _neighbor_probes self !! neighbor with
  | None => 0
  | Some table =>
      match table !! ip_address self with
      | None => 0
      | Some entry => entry.1
      end
  end.

Definition heard_of (self : EtxData) (neighbor : string) : Z :=
  match _received_probes self !! neighbor with
  | None => 0
  | Some l => Z.of_nat (length l)
  end.

Definition forward_of (cfg : Config) (self : EtxData) (neighbor : string) : Q :=
  clamp (inject_Z (reported_of self neighbor) / inject_Z (expected_of cfg))%Q.

Definition reverse_of (cfg : Config) (self : EtxData) (neighbor : string) : Q :=
  clamp (inject_Z (heard_of self neighbor) / inject_Z (expected_of cfg))%Q.

Definition prob_of (cfg : Config) (self : EtxData) (neighbor : string) : Q :=
  (forward_of cfg self neighbor * reverse_of cfg self neighbor)%Q.

Definition etx_of (cfg : Config) (self : EtxData) (neighbor : string) : Q :=
  let p := prob_of cfg self neighbor in
  if Qeq_bool p 0 then (-1)%Q else (1 / p)%Q.

(** ** Counts that [float()] converts

    A store is [convertible] when every neighbor that has a list of
    timestamps reports, for this node's address, a count in the range of
    a double (or none). *)

Definition convertible (self : EtxData) : Prop :=
  ∀ n table entry,
    is_Some (_received_probes self !! n) →
    _neighbor_probes self !! n = Some table →
    table !! ip_address self = Some entry →
    float_range entry.1.

(** The stores of all interfaces that have data are [convertible]. *)
Definition convertible_all (ifs : gmap string Interface) : Prop :=
  ∀ k i d, ifs !! k = Some i → data i = Some d → convertible d.

(** ** What eviction leaves of a store

    [gone] is the test at the end of the loop body of [remove_old_probes]
    on the store the loop started from; [trimmed] and [surviving] are the
    entries of a neighbor after the loop. *)

Definition gone (cfg : Config) (t : Q) (self : EtxData) (k : string)
    (l : list Q) : bool :=
  bool_decide (length (drop_old (WINDOW cfg) t l) = 0%nat)
  && bool_decide (k ∈ keys (_neighbor_probes self)).

Definition trimmed (cfg : Config) (t : Q) (self : EtxData) (k : string)
    : option (list Q) :=
  match _received_probes self !! k with
  | None => None
  | Some l =>
      if gone cfg t self k l then None
      else Some (drop_old (WINDOW cfg) t l)
  end.

Definition surviving (cfg : Config) (t : Q) (self : EtxData) (k : string)
    : option Table :=
  match _received_probes self !! k with
  | None => _neighbor_probes self !! k
  | Some l =>
      if gone cfg t self k l then None else _neighbor_probes self !! k
  end.

(** ** Histories of a store

    What the daemon does to the store of an interface between its creation
    and a query: it records the probes that arrive and it evicts. *)

Inductive op : Type :=
  | RecordProbe (neighbor mac : string) (table : Table) (timestamp : Q)
  | EvictStale (now : Q).

Definition run_op (cfg : Config) (o : op) : Py EtxData unit :=
  match o with
  | RecordProbe neighbor mac table timestamp =>
      record_probe neighbor mac table timestamp
  | EvictStale now => remove_old_probes cfg now (Some now)
  end.

(** The arrival times of the probes of a history, in the order of arrival. *)
Fixpoint timestamps (ops : list op) : list Q :=
  match ops with
  | [] => []
  | RecordProbe _ _ _ t :: ops' => t :: timestamps ops'
  | EvictStale _ :: ops' => timestamps ops'
  end.

(** A list of times that never goes back. *)
Fixpoint ordered (l : list Q) : Prop :=
  match l with
  | [] => True
  | a :: l' => Forall (Qle a) l' ∧ ordered l'
  end.

(** A timestamp is stale at [now] when [timestamp + WINDOW < now]. *)
Definition stale (cfg : Config) (now t : Q) : Prop :=
  (t + inject_Z (WINDOW cfg) < now)%Q.

(** What every history leaves: each list is ordered, and a neighbor has a
    list exactly when it has a table. *)
Definition store_inv (s : EtxData) : Prop :=
  (∀ n l, _received_probes s !! n = Some l →
          ordered l ∧ is_Some (_neighbor_probes s !! n)) ∧
  (∀ n, is_Some (_neighbor_probes s !! n) →
        is_Some (_received_probes s !! n)).

(** The store of a history whose timestamps still to come are all at
    least the ones it holds. *)
Definition before (s : EtxData) (future : list Q) : Prop :=
  ∀ n l, _received_probes s !! n = Some l →
         Forall (λ x, Forall (Qle x) future) l.

(** ** Stores and requests used as examples *)

(** Three probes of one neighbor and one of another, an eviction, and a
    late probe. *)
Definition history_example : list op :=
  [ RecordProbe "10.0.0.2" "00:16:3e:00:00:02" {[ "10.0.0.1" := (3, 2) ]} (1#1);
    RecordProbe "10.0.0.2" "00:16:3e:00:00:02" {[ "10.0.0.1" := (4, 3) ]} (5#1);
    RecordProbe "10.0.0.3" "00:16:3e:00:00:03" ∅ (7#1);
    EvictStale (12#1);
    RecordProbe "10.0.0.2" "00:16:3e:00:00:02" {[ "10.0.0.1" := (5, 3) ]} (20#1) ].

Definition cfg_10_1 : Config := mkConfig 10 1.

(** A neighbor heard six times that reports ten of our probes. *)
Definition store_six_of_ten : EtxData :=
  mkEtxData "10.0.0.1"
    {[ "10.0.0.2" := "00:16:3e:00:00:02" ]}
    {[ "10.0.0.2" := {[ "10.0.0.1" := (10, 6) ]} ]}
    {[ "10.0.0.2" := [1#1; 2#1; 3#1; 4#1; 5#1; 6#1]%Q ]}.

(** A neighbor whose probe carried a negative number for our address. *)
Definition store_negative_report : EtxData :=
  mkEtxData "10.0.0.1"
    {[ "10.0.0.2" := "00:16:3e:00:00:02" ]}
    {[ "10.0.0.2" := {[ "10.0.0.1" := (-5, 6) ]} ]}
    {[ "10.0.0.2" := [1#1; 2#1; 3#1; 4#1; 5#1; 6#1]%Q ]}.

(** A neighbor whose probe carried [10 ** 400] for our address. *)
Definition store_huge_report : EtxData :=
  mkEtxData "10.0.0.1"
    {[ "10.0.0.2" := "00:16:3e:00:00:02" ]}
    {[ "10.0.0.2" := {[ "10.0.0.1" := (10 ^ 400, 6) ]} ]}
    {[ "10.0.0.2" := [1#1; 2#1; 3#1; 4#1; 5#1; 6#1]%Q ]}.

(** An unpickler for the examples: like [pickle.loads] it raises
    [EOFError] on the empty payload; any other payload it reads as a MAC
    address with an empty table. *)
Definition loads_example (datagram : string) : Result (string * Table) :=
  match datagram with
  | EmptyString => Raise EOFError
  | _ => Ok (datagram, ∅)
  end.

Definition protocol_example : EtxProbeProtocol :=
  mkEtxProbeProtocol "wlan0" "10.0.0.1".

(** A connection to a daemon whose interface [wlan0] is configured but
    not up: the [Interface] object has no [data]. *)
Definition ipc_wlan0_down : EtxIpcProtocol :=
  mkEtxIpcProtocol {[ "wlan0" := mkInterface "wlan0" None ]} [] true.

(** The state of a connection after the one line [INVALID SYNTAX] and
    the closing of the transport. *)
Definition refused (p : EtxIpcProtocol) : EtxIpcProtocol :=
  mkEtxIpcProtocol (interfaces p) (sent p ++ [ERR_SYNTAX]) false.

(** ** Relations between a store and a later one *)

(** [s'] holds nothing that [s] did not hold: the same address and MAC
    table, every list of [s'] is what is left of the list of [s] after
    some of its first timestamps went, and every table of [s'] is the
    table of [s]. *)
Definition shrunk (s s' : EtxData) : Prop :=
  ip_address s' = ip_address s ∧
  _mac_addresses s' = _mac_addresses s ∧
  (∀ n l', _received_probes s' !! n = Some l' →
           ∃ old, _received_probes s !! n = Some (old ++ l')) ∧
  (∀ n table, _neighbor_probes s' !! n = Some table →
              _neighbor_probes s !! n = Some table).

(** The number of [-D] options in an option list. *)
Definition count_D (opt_list : list (string * string)) : Z :=
  Z.of_nat (length (filter (λ item, item.1 = "-D") opt_list)).

(** ** Relations between a connection and a later one *)

(** [i'] is the interface [i] with a store that has only shrunk. *)
Definition same_interface (i i' : Interface) : Prop :=
  name i' = name i ∧
  match data i, data i' with
  | None, None => True
  | Some d, Some d' => shrunk d d'
  | _, _ => False
  end.

(** [p'] has the interfaces of [p], each with a store that has only
    shrunk; the lines sent in [p] are the first lines sent in [p']; a
    connection closed in [p] is closed in [p']. *)
Definition served (p p' : EtxIpcProtocol) : Prop :=
  (∀ k, match interfaces p !! k, interfaces p' !! k with
        | None, None => True
        | Some i, Some i' => same_interface i i'
        | _, _ => False
        end) ∧
  sent p `prefix_of` sent p' ∧
  (connected p = false → connected p' = false).

(** A computation of the query server that, returning or raising, leaves
    a connection [served] from the one it started with. *)
Definition serving {A} (m : Py EtxIpcProtocol A) : Prop :=
  ∀ p, served p (m p).2.

(** A method of the store that, returning or raising, leaves a store
    [shrunk] from the one it started with. *)
Definition shrinking {A} (m : Py EtxData A) : Prop :=
  ∀ d, shrunk d (m d).2.

(** ** The life cycle of the interfaces ([etxd.py])

    An [Interface] object with all the attributes that
    [initialize_interfaces] sets and deletes; [None] is a missing
    attribute. [ni_port] is the address the probe port listens at (what
    [interface.port.getHost().host] returns), [ni_ipc_port] the address
    of the query listener. The store of the protocol is the store in
    [ni_data]: the two are created together and name one object. *)

Record NetInterface : Type := mkNetInterface {
  ni_name : string;
  ni_data : option EtxData;
  ni_protocol : option EtxProbeProtocol;
  ni_port : option string;
  ni_ipc_port : option string }.

(** The calls handed to the reactor: [callWhenRunning(send_probe, i)],
    [callLater(delay, send_probe, i)] and
    [callLater(delay, initialize_interfaces, interfaces)]. *)
Inductive call : Type :=
  | SendProbe (if_name : string)
  | SendProbeLater (delay : Q) (if_name : string)
  | InitializeInterfaces (delay : Z).

(** What one turn of the loop works on: the interface object and the
    reactor. *)
Record Scan : Type := mkScan {
  iface : NetInterface;
  reactor : list call }.

(** The dict of the interfaces and the reactor. *)
Record Daemon : Type := mkDaemon {
  net : gmap string NetInterface;
  calls : list call }.

Definition upd_iface (f : NetInterface → NetInterface) : Py Scan unit :=
  modify (λ sc, mkScan (f (iface sc)) (reactor sc)).

Definition schedule (c : call) : Py Scan unit :=
  modify (λ sc, mkScan (iface sc) (reactor sc ++ [c])).

Definition with_data (d : option EtxData) (i : NetInterface) : NetInterface :=
  mkNetInterface (ni_name i) d (ni_protocol i) (ni_port i) (ni_ipc_port i).

Definition with_protocol (p : option EtxProbeProtocol) (i : NetInterface)
    : NetInterface :=
  mkNetInterface (ni_name i) (ni_data i) p (ni_port i) (ni_ipc_port i).

Definition with_port (p : option string) (i : NetInterface) : NetInterface :=
  mkNetInterface (ni_name i) (ni_data i) (ni_protocol i) p (ni_ipc_port i).

Definition with_ipc_port (p : option string) (i : NetInterface)
    : NetInterface :=
  mkNetInterface (ni_name i) (ni_data i) (ni_protocol i) (ni_port i) p.

(** [del interface.attr], and also [interface.attr.stopListening()]
    before it: [AttributeError] when the attribute is missing. *)
Definition delattr {A} (attr : NetInterface → option A)
    (clear : NetInterface → NetInterface) : Py Scan unit :=
  interface ← gets iface;
  match attr interface with
  | None => raise AttributeError
  | Some _ => upd_iface clear
  end.

(** The four statements that stop an interface. *)
Definition stop_interface : Py Scan unit :=
  delattr ni_port (with_port None);;
  delattr ni_ipc_port (with_ipc_port None);;
  delattr ni_protocol (with_protocol None);;
  delattr ni_data (with_data None).

Section Lifecycle.
Variable cfg : Config.
(** [ifconfig | grep -q name] succeeds. *)
Variable configured : string → bool.
(** The address and the broadcast address [netifaces] reports for an
    interface; [None] where the lookup raises [KeyError]. *)
Variable ifaddresses : string → option (string * string).
(** Whether [reactor.listenUDP] for the probes of an interface at a
    broadcast address, and [reactor.listenTCP] for the queries at an
    address, succeed; [false] is [CannotListenError]. *)
Variable listenUDP : string → string → bool.
Variable listenTCP : string → string → bool.

(** The body of the loop of [initialize_interfaces]; [Return] stands for
    its [continue]. *)
Definition initialize_interface : Py Scan unit :=
  interface ← gets iface;
  if negb (configured (ni_name interface)) then
    match ni_port interface with
    | Some _ => stop_interface
    | None => pass
    end
  else
    match ifaddresses (ni_name interface) with
    | None => pass
    | Some (inet_addr, bcast_addr) =>
        f ← match ni_port interface with
            | Some host =>
                if decide (host ≠ bcast_addr)
                then stop_interface;; mret Next
                else mret Return
            | None => mret Next
            end;
        match f with
        | Return => pass
        | Next =>
            upd_iface (with_data (Some (EtxData_init inet_addr)));;
            upd_iface (with_protocol
              (Some (mkEtxProbeProtocol (ni_name interface) inet_addr)));;
            if listenUDP (ni_name interface) bcast_addr then
              upd_iface (with_port (Some bcast_addr));;
              schedule (SendProbe (ni_name interface));;
              if listenTCP (ni_name interface) inet_addr
              then upd_iface (with_ipc_port (Some inet_addr))
              else pass
            else
              delattr ni_data (with_data None);;
              delattr ni_protocol (with_protocol None)
        end
    end.

(** One turn of the loop on the object stored under [key]. *)
Definition with_interface {A} (key : string) (m : Py Scan A)
    : Py Daemon A := λ d,
  match net d !! key with
  | None => (Raise KeyError, d)
  | Some i =>
      let '(r, sc) := m (mkScan i (calls d)) in
      (r, mkDaemon (<[key := iface sc]> (net d)) (reactor sc))
  end.

Definition initialize_interfaces : Py Daemon unit :=
  interfaces ← gets net;
  for_each (keys interfaces) (λ key,
    with_interface key initialize_interface);;
  modify (λ d, mkDaemon (net d)
                 (calls d ++ [InitializeInterfaces (WINDOW cfg)])).

End Lifecycle.

(** [random.uniform(a, b)] for the value [r] that [random()] returns. *)
Definition uniform (a b r : Q) : Q := (a + (b - a) * r)%Q.

(** [send_probe] of [etxd.py]: nothing for an interface without
    protocol; otherwise the probe is sent and the next call is scheduled
    after [0.9 * INTERVAL] plus a jitter. The value returned is the pair
    that was broadcast, if any; [mac] is the address [netifaces] reports,
    [clock] the time and [r] the random number that are read. The
    products and the sum are those of the rationals. *)
Definition etxd_send_probe (cfg : Config) (mac : string) (clock r : Q)
    : Py Scan (option (string * gmap string (Z * Z))) :=
  interface ← gets iface;
  match ni_protocol interface with
  | None => mret None
  | Some _ =>
      match ni_data interface with
      | None => raise AttributeError
      | Some d =>
          let '(res, d') := send_probe cfg mac clock d in
          upd_iface (with_data (Some d'));;
          payload ← lift res;
          let jitter := uniform 0 ((2 # 10) * inject_Z (INTERVAL cfg)) r in
          schedule (SendProbeLater
                      ((9 # 10) * inject_Z (INTERVAL cfg) + jitter)
                      (ni_name interface));;
          mret (Some payload)
      end
  end.

(** An interface is either stopped, with none of the four attributes, or
    it has a port together with its store and protocol. *)
Definition consistent (i : NetInterface) : Prop :=
  match ni_port i with
  | None => ni_data i = None ∧ ni_protocol i = None ∧ ni_ipc_port i = None
  | Some _ => is_Some (ni_data i) ∧ is_Some (ni_protocol i)
  end.

Definition stopped (i : NetInterface) : Prop :=
  ni_data i = None ∧ ni_protocol i = None ∧ ni_port i = None
  ∧ ni_ipc_port i = None.

(** An interface just started at [inet_addr] and [bcast_addr]: an empty
    store, a protocol for the address, the port at the broadcast
    address, and the query listener when it could be opened. *)
Definition started (inet_addr bcast_addr : string) (ipc : bool)
    (i : NetInterface) : Prop :=
  ni_data i = Some (EtxData_init inet_addr) ∧
  ni_protocol i = Some (mkEtxProbeProtocol (ni_name i) inet_addr) ∧
  ni_port i = Some bcast_addr ∧
  ni_ipc_port i = (if ipc then Some inet_addr else None).

Definition is_send_probe (c : call) : Prop :=
  match c with
  | SendProbe _ => True
  | _ => False
  end.

(** A daemon with the one interface [wlan0], stopped, and the same
    interface listening without a query listener. *)
Definition wlan0_stopped : NetInterface :=
  mkNetInterface "wlan0" None None None None.

Definition wlan0_without_ipc : NetInterface :=
  mkNetInterface "wlan0" (Some (EtxData_init "10.0.0.1"))
    (Some (mkEtxProbeProtocol "wlan0" "10.0.0.1")) (Some "10.0.0.255") None.

Definition daemon_stopped : Daemon :=
  mkDaemon {[ "wlan0" := wlan0_stopped ]} [].

Definition daemon_without_ipc : Daemon :=
  mkDaemon {[ "wlan0" := wlan0_without_ipc ]}
    [SendProbe "wlan0"; InitializeInterfaces 10].

(** [wlan0] listening with the store of the examples. *)
Definition wlan0_six_of_ten : NetInterface :=
  mkNetInterface "wlan0" (Some store_six_of_ten)
    (Some (mkEtxProbeProtocol "wlan0" "10.0.0.1")) (Some "10.0.0.255")
    (Some "10.0.0.1").

(** ** Computations of the query server that return *)

(** The interface under [key] has data. *)
Definition has_data (key : string) (p : EtxIpcProtocol) : Prop :=
  ∃ i d, interfaces p !! key = Some i ∧ data i = Some d.

(** The interface under [key] has data, and the stores of all interfaces
    are [convertible]. *)
Definition ready (key : string) (p : EtxIpcProtocol) : Prop :=
  has_data key p ∧ convertible_all (interfaces p).

(** From a connection with [I] the computation returns, on a connection
    that is [served] from it and has [I] again, or it raises an
    exception that satisfies [E]. *)
Definition raising_in (E : exn → Prop) (I : EtxIpcProtocol → Prop) {A}
    (m : Py EtxIpcProtocol A) : Prop :=
  ∀ p, I p → match m p with
             | (Ok _, p') => I p' ∧ served p p'
             | (Raise e, _) => E e
             end.

(** A word of a request: not empty and without whitespace. *)
Definition is_word (w : string) : Prop :=
  w ≠ "" ∧ Forall (λ c, is_space c = false) (String.list_ascii_of_string w).

(** From a connection that is [ready] for [key] the computation
    returns, on a connection that is [served] from it, and every line it
    has sent satisfies [P]. *)
Definition answering (P : string → Prop) (key : string) {A}
    (m : Py EtxIpcProtocol A) : Prop :=
  ∀ p, ready key p →
    ∃ a p' l, m p = (Ok a, p') ∧ served p p' ∧
              sent p' = sent p ++ l ∧ Forall P l.

(** ** The snapshot server ([etx_web.py]) *)

(** One element of the list ["neighbors"] and the dict that
    [render_GET] hands to [simplejson.dumps]. *)
Record NeighborEntry : Type := mkNeighborEntry {
  e_if_name : string;
  e_mac_address : string;
  e_quality : Q }.

Record Document : Type := mkDocument {
  doc_node : string;
  doc_time : Q;
  doc_neighbors : list NeighborEntry }.

Record EtxWebServer : Type := mkEtxWebServer {
  web_interfaces : gmap string Interface;
  hostname : string }.

(** A method call on [interface.data] for the interface under [key]. *)
Definition web_on_data {A} (key : string) (m : Py EtxData A)
    : Py EtxWebServer A := λ self,
  match web_interfaces self !! key with
  | Some (mkInterface nm (Some d)) =>
      let '(r, d') := m d in
      (r, mkEtxWebServer
            (<[key := mkInterface nm (Some d')]> (web_interfaces self))
            (hostname self))
  | Some (mkInterface _ None) => (Raise AttributeError, self)
  | None => (Raise KeyError, self)
  end.

Section Web.
Variable cfg : Config.
(** [simplejson.dumps] *)
Variable dumps : Document → string.

(** The inner loop of [render_GET]: the neighbors of one interface. *)
Definition render_neighbors (key : string) (interface : Interface)
    (neighbors : gmap string Q) (entries : list NeighborEntry)
    : Py EtxWebServer (list NeighborEntry) :=
  fold_each (map_to_list neighbors) entries (λ entries item,
    mac ← web_on_data key (get_mac item.1);
    match mac with
    | None => mret entries
    | Some mac =>
        if (mac =? "")%string then mret entries
        else mret (entries ++
                   [mkNeighborEntry (name interface) mac item.2])
    end).

(** [clock] is the reading of the clock for the field ["time"], and
    [now key] the reading of [remove_old_probes()] on the interface under
    [key]. *)
Definition render_GET (clock : Q) (now : string → Q)
    : Py EtxWebServer string :=
  host ← gets hostname;
  ifs ← gets web_interfaces;
  entries ← fold_each (keys ifs) [] (λ entries key,
    ifs ← gets web_interfaces;
    interface ← getitem ifs key;
    match data interface with
    | None => mret entries
    | Some _ =>
        web_on_data key (remove_old_probes cfg (now key) None);;
        neighbors ← web_on_data key (get_neighbors cfg false);
        render_neighbors key interface neighbors entries
    end);
  mret (dumps (mkDocument host clock entries) +:+ String "010"%char "").

End Web.

(** An entry of the document names an interface, has a MAC address that
    is not empty and a quality above 0 and at most 1. *)
Definition entry_ok (e : NeighborEntry) : Prop :=
  e_mac_address e ≠ "" ∧ (0 < e_quality e <= 1)%Q.

(** A server with [wlan0] and the store of the examples. *)
Definition web_example : EtxWebServer :=
  mkEtxWebServer {[ "wlan0" := mkInterface "wlan0" (Some store_six_of_ten) ]}
    "node1".

(** ** What the query server answers

    The store an interface is left with when the handler has brought it
    up to date, the interface with that store, and the dict that
    [get_neighbors()] returns. *)

Definition evicted (cfg : Config) (clock : Q) (d : EtxData) : EtxData :=
  (remove_old_probes cfg clock None d).2.

Definition refreshed (cfg : Config) (clock : Q) (i : Interface) : Interface :=
  mkInterface (name i) (evicted cfg clock <$> data i).

Definition listed (cfg : Config) (d : EtxData) : gmap string Q :=
  match (get_neighbors cfg false d).1 with
  | Ok neighbors => neighbors
  | Raise _ => ∅
  end.

(** The interface [i] of the connection [p] has data, and on its store
    brought up to date at the reading for it the neighbor [n] is listed
    with the quality [v] and has the MAC address [mac] (if any). *)
Definition neighbor_on (cfg : Config) (now : string → Q)
    (p : EtxIpcProtocol) (i : Interface) (n : string) (v : Q)
    (mac : option string) : Prop :=
  ∃ k d d' neighbors,
    interfaces p !! k = Some i ∧ data i = Some d ∧
    remove_old_probes cfg (now k) None d = (Ok tt, d') ∧
    get_neighbors cfg false d' = (Ok neighbors, d') ∧
    neighbors !! n = Some v ∧
    get_mac n d' = (Ok mac, d').

(** A connection on which [wlan0] holds the store of the examples. *)
Definition ipc_wlan0_up : EtxIpcProtocol :=
  mkEtxIpcProtocol {[ "wlan0" := mkInterface "wlan0" (Some store_six_of_ten) ]}
    [] true.

(** The interfaces after a loop that has brought every store up to date,
    each at the reading of the clock for it. *)
Definition refreshed_all (cfg : Config) (now : string → Q)
    (ifs : gmap string Interface) : gmap string Interface :=
  map_imap (λ k i, Some (refreshed cfg (now k) i)) ifs.

(** The lines of a loop over the interfaces, in the order of the loop:
    for each interface with data, the lines that [lines] gives for the
    interface and its store brought up to date. *)
Definition listing (cfg : Config) (now : string → Q)
    (lines : Interface → EtxData → list string)
    (ifs : gmap string Interface) : list string :=
  concat (map (λ kv : string * Interface,
            match data kv.2 with
            | Some d => lines kv.2 (evicted cfg (now kv.1) d)
            | None => []
            end) (map_to_list ifs)).

(** The lines of [NEIGHBORS], [MAC] and [CHAFT] for one store, in the
    order of the dict that [get_neighbors()] returns. *)
Definition neighbors_lines (cfg : Config) (str_float : Q → string)
    (label : string) (d : EtxData) : list string :=
  map (λ item : string * Q,
         label +:+ ":" +:+ item.1 +:+ ":" +:+ str_float item.2)
      (map_to_list (listed cfg d)).

Definition mac_lines (cfg : Config) (str_float : Q → string)
    (label : string) (d : EtxData) : list string :=
  concat (map (λ item : string * Q,
            match _mac_addresses d !! item.1 with
            | None => []
            | Some mac =>
                if (mac =? "")%string then []
                else [label +:+ "|" +:+ mac +:+ "|" +:+ str_float item.2]
            end) (map_to_list (listed cfg d))).

Definition chaft_lines (cfg : Config) (str_int : Z → string)
    (min_prob : Q) (channel : Result Z) (d : EtxData) : list string :=
  match channel with
  | Ok channel =>
      concat (map (λ item : string * Q,
                if Qle_bool min_prob item.2
                then [item.1 +:+ ":" +:+ str_int channel]
                else []) (map_to_list (listed cfg d)))
  | Raise _ => []
  end.

(** A connection on which [wlan0] holds a store with a count that
    [float()] refuses. *)
Definition ipc_wlan0_huge : EtxIpcProtocol :=
  mkEtxIpcProtocol {[ "wlan0" := mkInterface "wlan0" (Some store_huge_report) ]}
    [] true.

(** ** The debug log ([print_data] of [etxd.py])

    What [print_data] works on: the interfaces, the messages handed to
    [syslog] (the two arguments of the format ["%s: %s"]), and the delays
    of the calls [reactor.callLater(WINDOW, print_data, interfaces)]. *)

Record Logger : Type := mkLogger {
  log_interfaces : gmap string Interface;
  messages : list (string * gmap string Q);
  print_later : list Z }.

Definition syslog (if_name : string) (neighbors : gmap string Q)
    : Py Logger unit :=
  modify (λ self, mkLogger (log_interfaces self)
                           (messages self ++ [(if_name, neighbors)])
                           (print_later self)).

Definition callLater_print_data (delay : Z) : Py Logger unit :=
  modify (λ self, mkLogger (log_interfaces self) (messages self)
                           (print_later self ++ [delay])).

(** A method call on [interface.data], as [on_data] above. *)
Definition log_on_data {A} (key : string) (m : Py EtxData A)
    : Py Logger A := λ self,
  match log_interfaces self !! key with
  | Some (mkInterface nm (Some d)) =>
      let '(r, d') := m d in
      (r, mkLogger (<[key := mkInterface nm (Some d')]> (log_interfaces self))
                   (messages self) (print_later self))
  | Some (mkInterface _ None) => (Raise AttributeError, self)
  | None => (Raise KeyError, self)
  end.

(** [now key] is the reading of [remove_old_probes()] on the interface
    under [key]. *)
Definition print_data (cfg : Config) (now : string → Q) : Py Logger unit :=
  ifs ← gets log_interfaces;
  for_each (keys ifs) (λ key,
    ifs ← gets log_interfaces;
    interface ← getitem ifs key;
    match data interface with
    | None => pass
    | Some _ =>
        log_on_data key (remove_old_probes cfg (now key) None);;
        neighbors ← log_on_data key (get_neighbors cfg false);
        syslog (name interface) neighbors
    end);;
  callLater_print_data (WINDOW cfg).

(** The interfaces of the examples, before any message. *)
Definition logger_example : Logger :=
  mkLogger {[ "wlan0" := mkInterface "wlan0" (Some store_six_of_ten);
              "wlan1" := mkInterface "wlan1" None ]} [] [].

(** * Properties *)

(** ** The monad *)

Lemma bind_run {S A B} (m : Py S A) (f : A → Py S B) (s : S) :
  (m ≫= f) s =
  match m s with
  | (Ok a, s') => f a s'
  | (Raise e, s') => (Raise e, s')
  end.
Proof. reflexivity. Qed.

(** When the first computation returns [a] and leaves the object alone,
    the sequence continues with [a] on the same object. *)
Lemma bind_ok {S A B} (m : Py S A) (f : A → Py S B) (s : S) (a : A) :
  m s = (Ok a, s) → (m ≫= f) s = f a s.
Proof. intros H. rewrite bind_run, H. reflexivity. Qed.

Lemma readonly_ret {S A} (a : A) : readonly (mret a : Py S A).
Proof. intros s. reflexivity. Qed.

Lemma readonly_raise {S A} (e : exn) : readonly (raise e : Py S A).
Proof. intros s. reflexivity. Qed.

Lemma readonly_gets {S A} (f : S → A) : readonly (gets f).
Proof. intros s. reflexivity. Qed.

Lemma readonly_bind {S A B} (m : Py S A) (f : A → Py S B) :
  readonly m → (∀ a, readonly (f a)) → readonly (m ≫= f).
Proof.
  intros Hm Hf s. rewrite bind_run. specialize (Hm s).
  destruct (m s) as [[a|e] s']; simpl in *; subst s'.
  - apply Hf.
  - reflexivity.
Qed.

Lemma readonly_fold_each {S A B} (l : list A) (body : B → A → Py S B) :
  (∀ acc x, readonly (body acc x)) → ∀ acc, readonly (fold_each l acc body).
Proof.
  intros Hbody. induction l as [|x l IH]; intros acc; simpl.
  - apply readonly_ret.
  - apply readonly_bind; [apply Hbody | intros acc'; apply IH].
Qed.

Lemma readonly_try_except {S A} (m handler : Py S A) (e : exn) :
  readonly m → readonly handler → readonly (try_except m e handler).
Proof.
  intros Hm Hh s. unfold try_except. specialize (Hm s).
  destruct (m s) as [[a|e'] s']; simpl in *; subst s'; [reflexivity|].
  destruct (exn_eqb e' e); [apply Hh | reflexivity].
Qed.

Lemma readonly_getitem {S V} (d : gmap string V) (k : string) :
  readonly (getitem d k : Py S V).
Proof. unfold getitem. destruct (d !! k); intros s; reflexivity. Qed.

Lemma readonly_int_div {S} (a b : Z) : readonly (int_div a b : Py S Z).
Proof. unfold int_div. destruct (decide (b = 0)); intros s; reflexivity. Qed.

Lemma readonly_float_div {S} (x : Q) (b : Z) :
  readonly (float_div x b : Py S Q).
Proof. unfold float_div. destruct (decide (b = 0)); intros s; reflexivity. Qed.

Lemma readonly_float_of_int {S} (n : Z) :
  readonly (float_of_int n : Py S Q).
Proof.
  unfold float_of_int. destruct (decide _); intros s; reflexivity.
Qed.

Create HintDb readonly.
#[local] Hint Resolve readonly_ret readonly_raise readonly_gets
  readonly_getitem readonly_int_div readonly_float_div
  readonly_float_of_int : readonly.

(** Splits a sequence into its parts and closes the parts that are
    primitive reads. *)
Ltac readonly_step :=
  first
    [ apply readonly_bind; [| intros ?]
    | apply readonly_fold_each; intros ? ?
    | apply readonly_try_except
    | solve [auto with readonly]
    | match goal with |- readonly (match ?x with _ => _ end) => destruct x end
    | match goal with |- readonly (if ?x then _ else _) => destruct x end ].

(** ** The accessors of the store leave it as it is *)

Section StoreReads.
Variable cfg : Config.

Lemma readonly_get_num_exp_probes : readonly (_get_num_exp_probes cfg).
Proof. unfold _get_num_exp_probes. auto with readonly. Qed.

Lemma readonly_get_num_probes_recv_from_me n :
  readonly (_get_num_probes_recv_from_me n).
Proof. unfold _get_num_probes_recv_from_me. repeat readonly_step. Qed.

Lemma readonly_get_num_probes_recv_from_neighbor n :
  readonly (_get_num_probes_recv_from_neighbor n).
Proof. unfold _get_num_probes_recv_from_neighbor. repeat readonly_step. Qed.

Lemma readonly_get_forward_ratio n : readonly (_get_forward_ratio cfg n).
Proof.
  unfold _get_forward_ratio.
  apply readonly_bind; [apply readonly_get_num_probes_recv_from_me | intros ?].
  apply readonly_bind; [apply readonly_float_of_int | intros ?].
  apply readonly_bind; [apply readonly_get_num_exp_probes | intros ?].
  repeat readonly_step.
Qed.

Lemma readonly_get_reverse_ratio n : readonly (_get_reverse_ratio cfg n).
Proof.
  unfold _get_reverse_ratio.
  apply readonly_bind;
    [apply readonly_get_num_probes_recv_from_neighbor | intros ?].
  apply readonly_bind; [apply readonly_get_num_exp_probes | intros ?].
  repeat readonly_step.
Qed.

Lemma readonly_get_transmission_probability n :
  readonly (get_transmission_probability cfg n).
Proof.
  unfold get_transmission_probability.
  apply readonly_bind; [apply readonly_get_forward_ratio | intros ?].
  apply readonly_bind; [apply readonly_get_reverse_ratio | intros ?].
  apply readonly_ret.
Qed.

Lemma readonly_get_etx n : readonly (get_etx cfg n).
Proof.
  unfold get_etx.
  apply readonly_bind; [apply readonly_get_transmission_probability|].
  intros p. destruct (Qeq_bool p 0); apply readonly_ret.
Qed.

Lemma readonly_get_probe_data : readonly get_probe_data.
Proof.
  unfold get_probe_data. apply readonly_bind; [apply readonly_gets|].
  intros received. apply readonly_fold_each. intros acc n.
  apply readonly_bind;
    [apply readonly_get_num_probes_recv_from_neighbor | intros ?].
  apply readonly_bind; [apply readonly_get_num_probes_recv_from_me|].
  intros ?. apply readonly_ret.
Qed.

Lemma readonly_get_neighbors etx : readonly (get_neighbors cfg etx).
Proof.
  unfold get_neighbors. apply readonly_bind; [apply readonly_gets|].
  intros received. apply readonly_fold_each. intros acc n. destruct etx.
  - apply readonly_bind; [apply readonly_get_etx|].
    intros v. destruct (Qlt_le_dec 0 v); apply readonly_ret.
  - apply readonly_bind; [apply readonly_get_transmission_probability|].
    intros v. destruct (Qlt_le_dec 0 v); apply readonly_ret.
Qed.

Lemma readonly_get_mac ip : readonly (get_mac ip).
Proof. unfold get_mac. repeat readonly_step. Qed.

Lemma readonly_get_debug_info n : readonly (get_debug_info cfg n).
Proof.
  unfold get_debug_info. apply readonly_bind; [apply readonly_gets|].
  intros ?. apply readonly_bind;
    [apply readonly_get_num_probes_recv_from_neighbor | intros ?].
  apply readonly_bind; [apply readonly_get_num_probes_recv_from_me|].
  intros ?. apply readonly_bind; [apply readonly_get_num_exp_probes|].
  intros ?. apply readonly_bind; [apply readonly_get_reverse_ratio|].
  intros ?. apply readonly_bind; [apply readonly_get_forward_ratio|].
  intros ?. apply readonly_ret.
Qed.

End StoreReads.

(** ** What the accessors return *)

Lemma inject_Z_pos (z : Z) : 0 < z → (0 < inject_Z z)%Q.
Proof. intros H. unfold Qlt; simpl. lia. Qed.

Lemma inject_Z_nonneg (z : Z) : 0 ≤ z → (0 <= inject_Z z)%Q.
Proof. intros H. unfold Qle; simpl. lia. Qed.

Lemma clamp_le_1 (x : Q) : (clamp x <= 1)%Q.
Proof. unfold clamp. destruct (Qlt_le_dec 1 x); lra. Qed.

Lemma clamp_nonneg (x : Q) : (0 <= x)%Q → (0 <= clamp x)%Q.
Proof. unfold clamp. destruct (Qlt_le_dec 1 x); lra. Qed.

Lemma clamp_above (x : Q) : (1 < x)%Q → clamp x = 1%Q.
Proof. unfold clamp. destruct (Qlt_le_dec 1 x); [reflexivity | lra]. Qed.

Lemma clamp_below (x : Q) : (x <= 1)%Q → clamp x = x.
Proof. unfold clamp. destruct (Qlt_le_dec 1 x); [lra | reflexivity]. Qed.

Lemma ratio_nonneg (c e : Z) :
  0 ≤ c → 0 < e → (0 <= inject_Z c / inject_Z e)%Q.
Proof.
  intros Hc He. apply Qle_shift_div_l; [by apply inject_Z_pos|].
  rewrite Qmult_0_l. by apply inject_Z_nonneg.
Qed.

Lemma ratio_above (c e : Z) :
  0 < e → e < c → (1 < inject_Z c / inject_Z e)%Q.
Proof.
  intros He Hc. apply Qlt_shift_div_l; [by apply inject_Z_pos|].
  rewrite Qmult_1_l. rewrite <- Zlt_Qlt. done.
Qed.

Lemma expected_pos cfg : valid cfg → 1 ≤ expected_of cfg.
Proof.
  intros [Hi Hw]. unfold expected_of.
  apply Z.div_le_lower_bound; lia.
Qed.

Lemma float_of_int_run {S} (n : Z) (s : S) :
  float_range n → float_of_int n s = (Ok (inject_Z n), s).
Proof.
  intros H. unfold float_of_int.
  destruct (decide _) as [|Hn]; [reflexivity | by destruct Hn].
Qed.

Lemma float_of_int_raise {S} (n : Z) (s : S) :
  ¬ float_range n → float_of_int n s = (Raise OverflowError, s).
Proof.
  intros H. unfold float_of_int.
  destruct (decide _) as [Hn|]; [by destruct H | reflexivity].
Qed.

Lemma float_range_dec (n : Z) : float_range n ∨ ¬ float_range n.
Proof. unfold float_range. destruct (decide (Z.abs n < 2 ^ 1024 - 2 ^ 970)); auto. Qed.

Lemma float_range_0 : float_range 0.
Proof. unfold float_range. simpl. lia. Qed.

Section StoreValues.
Variable cfg : Config.
Hypothesis Hcfg : valid cfg.

Lemma get_num_exp_probes_run s :
  _get_num_exp_probes cfg s = (Ok (expected_of cfg), s).
Proof.
  unfold _get_num_exp_probes, int_div. destruct Hcfg as [Hi _].
  destruct (decide (INTERVAL cfg = 0)); [lia | reflexivity].
Qed.

Lemma get_num_probes_recv_from_me_run s n :
  _get_num_probes_recv_from_me n s = (Ok (reported_of s n), s).
Proof.
  unfold _get_num_probes_recv_from_me, reported_of.
  rewrite bind_run; simpl. rewrite bind_run; simpl.
  destruct (_neighbor_probes s !! n) as [table|]; [|reflexivity].
  destruct (table !! ip_address s); reflexivity.
Qed.

Lemma get_num_probes_recv_from_neighbor_run s n :
  _get_num_probes_recv_from_neighbor n s = (Ok (heard_of s n), s).
Proof.
  unfold _get_num_probes_recv_from_neighbor, heard_of.
  rewrite bind_run; simpl.
  destruct (_received_probes s !! n); reflexivity.
Qed.

Lemma float_div_run (x : Q) (s : EtxData) :
  float_div x (expected_of cfg) s
  = (Ok (x / inject_Z (expected_of cfg))%Q, s).
Proof.
  unfold float_div. pose proof (expected_pos cfg Hcfg).
  destruct (decide (expected_of cfg = 0)); [lia | reflexivity].
Qed.

Lemma get_forward_ratio_run s n :
  float_range (reported_of s n) →
  _get_forward_ratio cfg n s = (Ok (forward_of cfg s n), s).
Proof.
  intros Hn. unfold _get_forward_ratio, forward_of, clamp.
  rewrite (bind_ok _ _ _ _ (get_num_probes_recv_from_me_run s n)).
  rewrite (bind_ok _ _ _ _ (float_of_int_run _ s Hn)).
  rewrite (bind_ok _ _ _ _ (get_num_exp_probes_run s)).
  rewrite (bind_ok _ _ _ _ (float_div_run _ s)).
  destruct (Qlt_le_dec 1 _); reflexivity.
Qed.

(** A count that [float()] refuses: the conversion comes first, so the
    [OverflowError] is raised whatever the configuration. *)
Lemma get_forward_ratio_raise s n :
  ¬ float_range (reported_of s n) →
  _get_forward_ratio cfg n s = (Raise OverflowError, s).
Proof.
  intros Hn. unfold _get_forward_ratio.
  rewrite (bind_ok _ _ _ _ (get_num_probes_recv_from_me_run s n)).
  rewrite bind_run, (float_of_int_raise _ s Hn). reflexivity.
Qed.

Lemma get_reverse_ratio_run s n :
  _get_reverse_ratio cfg n s = (Ok (reverse_of cfg s n), s).
Proof.
  unfold _get_reverse_ratio, reverse_of, clamp.
  rewrite (bind_ok _ _ _ _ (get_num_probes_recv_from_neighbor_run s n)).
  rewrite (bind_ok _ _ _ _ (get_num_exp_probes_run s)).
  rewrite (bind_ok _ _ _ _ (float_div_run _ s)).
  destruct (Qlt_le_dec 1 _); reflexivity.
Qed.

Lemma get_transmission_probability_run s n :
  float_range (reported_of s n) →
  get_transmission_probability cfg n s = (Ok (prob_of cfg s n), s).
Proof.
  intros Hn. unfold get_transmission_probability, prob_of.
  rewrite (bind_ok _ _ _ _ (get_forward_ratio_run s n Hn)).
  rewrite (bind_ok _ _ _ _ (get_reverse_ratio_run s n)).
  reflexivity.
Qed.

Lemma get_transmission_probability_raise s n :
  ¬ float_range (reported_of s n) →
  get_transmission_probability cfg n s = (Raise OverflowError, s).
Proof.
  intros Hn. unfold get_transmission_probability.
  rewrite bind_run, (get_forward_ratio_raise s n Hn). reflexivity.
Qed.

Lemma get_etx_run s n :
  float_range (reported_of s n) →
  get_etx cfg n s = (Ok (etx_of cfg s n), s).
Proof.
  intros Hn. unfold get_etx, etx_of.
  rewrite (bind_ok _ _ _ _ (get_transmission_probability_run s n Hn)).
  destruct (Qeq_bool _ _); reflexivity.
Qed.

Lemma get_etx_raise s n :
  ¬ float_range (reported_of s n) →
  get_etx cfg n s = (Raise OverflowError, s).
Proof.
  intros Hn. unfold get_etx.
  rewrite bind_run, (get_transmission_probability_raise s n Hn). reflexivity.
Qed.

Lemma heard_nonneg s n : 0 ≤ heard_of s n.
Proof. unfold heard_of. destruct (_ !! _); lia. Qed.

Lemma reverse_range s n : (0 <= reverse_of cfg s n <= 1)%Q.
Proof.
  split; [|apply clamp_le_1]. apply clamp_nonneg, ratio_nonneg.
  - apply heard_nonneg.
  - pose proof (expected_pos cfg Hcfg). lia.
Qed.

Lemma forward_le_1 s n : (forward_of cfg s n <= 1)%Q.
Proof. apply clamp_le_1. Qed.

Lemma forward_nonneg s n :
  0 ≤ reported_of s n → (0 <= forward_of cfg s n)%Q.
Proof.
  intros H. apply clamp_nonneg, ratio_nonneg; [done|].
  pose proof (expected_pos cfg Hcfg). lia.
Qed.

End StoreValues.

(** ** The metric *)

(** C3. With [WINDOW = 10] and [INTERVAL = 1] ten probes are expected; a
    neighbor with six timestamps in its list whose table reports ten
    probes received from this node has reverse ratio 0.6, forward ratio
    1.0, transmission probability 0.6 and ETX 5/3. *)
Theorem etx_six_of_ten (s : EtxData) (n : string) (l : list Q)
    (table : Table) (back : Z) :
  _received_probes s !! n = Some l →
  length l = 6%nat →
  _neighbor_probes s !! n = Some table →
  table !! ip_address s = Some (10, back) →
  ∃ dr df p e : Q,
    _get_num_exp_probes cfg_10_1 s = (Ok 10, s) ∧
    _get_reverse_ratio cfg_10_1 n s = (Ok dr, s) ∧
    _get_forward_ratio cfg_10_1 n s = (Ok df, s) ∧
    get_transmission_probability cfg_10_1 n s = (Ok p, s) ∧
    get_etx cfg_10_1 n s = (Ok e, s) ∧
    (dr == 6 # 10)%Q ∧ (df == 1)%Q ∧ (p == 6 # 10)%Q ∧ (e == 5 # 3)%Q.
Proof.
  intros Hl Hlen Ht He.
  assert (Hcfg : valid cfg_10_1) by (unfold valid; simpl; lia).
  assert (Hdr : reverse_of cfg_10_1 s n = (6 # 10)%Q).
  { unfold reverse_of, heard_of. rewrite Hl, Hlen. reflexivity. }
  assert (Hdf : forward_of cfg_10_1 s n = (10 # 10)%Q).
  { unfold forward_of, reported_of. rewrite Ht, He. reflexivity. }
  assert (Hp : prob_of cfg_10_1 s n = (60 # 100)%Q).
  { unfold prob_of. rewrite Hdr, Hdf. reflexivity. }
  assert (Hten : float_range (reported_of s n)).
  { unfold reported_of. rewrite Ht, He. vm_compute. reflexivity. }
  exists (6 # 10)%Q, (10 # 10)%Q, (60 # 100)%Q, (100 # 60)%Q.
  rewrite (get_num_exp_probes_run _ Hcfg), (get_reverse_ratio_run _ Hcfg),
    (get_forward_ratio_run _ Hcfg _ _ Hten),
    (get_transmission_probability_run _ Hcfg _ _ Hten),
    (get_etx_run _ Hcfg _ _ Hten).
  unfold etx_of. rewrite Hdr, Hdf, Hp.
  repeat split; reflexivity.
Qed.

Lemma etx_six_of_ten_witness :
  ∃ dr df p e : Q,
    _get_num_exp_probes cfg_10_1 store_six_of_ten = (Ok 10, store_six_of_ten) ∧
    _get_reverse_ratio cfg_10_1 "10.0.0.2" store_six_of_ten
      = (Ok dr, store_six_of_ten) ∧
    _get_forward_ratio cfg_10_1 "10.0.0.2" store_six_of_ten
      = (Ok df, store_six_of_ten) ∧
    get_transmission_probability cfg_10_1 "10.0.0.2" store_six_of_ten
      = (Ok p, store_six_of_ten) ∧
    get_etx cfg_10_1 "10.0.0.2" store_six_of_ten = (Ok e, store_six_of_ten) ∧
    (dr == 6 # 10)%Q ∧ (df == 1)%Q ∧ (p == 6 # 10)%Q ∧ (e == 5 # 3)%Q.
Proof.
  apply (etx_six_of_ten store_six_of_ten "10.0.0.2"
           [1#1; 2#1; 3#1; 4#1; 5#1; 6#1]%Q {[ "10.0.0.1" := (10, 6) ]} 6);
    reflexivity.
Defined.






(** A probe that carries [10 ** 400] for this node's address: the forward
    ratio and everything computed from it raise. *)
Example ratios_huge_report :
  (_get_forward_ratio cfg_10_1 "10.0.0.2" store_huge_report).1
    = Raise OverflowError ∧
  (get_transmission_probability cfg_10_1 "10.0.0.2" store_huge_report).1
    = Raise OverflowError ∧
  (get_etx cfg_10_1 "10.0.0.2" store_huge_report).1 = Raise OverflowError ∧
  (get_neighbors cfg_10_1 false store_huge_report).1 = Raise OverflowError.
Proof. repeat split; vm_compute; reflexivity. Qed.

(** ** Start-up and the expected number of probes *)

Lemma set_option_positive (st : Settings) (item : string * string) :
  0 < INTERVAL (timing st) ∧ 0 < WINDOW (timing st) →
  0 < INTERVAL (timing (set_option st item)) ∧
  0 < WINDOW (timing (set_option st item)).
Proof.
  intros H. destruct item as [opt val]. unfold set_option.
  destruct (isdigit val && (0 <? int_of_str val)) eqn:E.
  - apply andb_true_iff in E as [_ E]. apply Z.ltb_lt in E.
    repeat (destruct (_ =? _)%string); simpl; tauto || lia.
  - repeat (destruct (_ =? _)%string); simpl; tauto.
Qed.

Lemma options_positive (opt_list : list (string * string)) (st : Settings) :
  0 < INTERVAL (timing st) ∧ 0 < WINDOW (timing st) →
  0 < INTERVAL (timing (foldl set_option st opt_list)) ∧
  0 < WINDOW (timing (foldl set_option st opt_list)).
Proof.
  revert st. induction opt_list as [|item l IH]; intros st H; simpl.
  - exact H.
  - apply IH, set_option_positive, H.
Qed.

(** A process that gets past the check of the window runs with a positive
    interval that is not longer than the window. *)
Lemma startup_valid (opt_list : list (string * string)) (st : Settings) :
  startup opt_list = Some st → valid (timing st).
Proof.
  unfold startup. intros H.
  destruct (_ <? _) eqn:E; [discriminate|]. injection H as <-.
  apply Z.ltb_ge in E.
  destruct (options_positive opt_list default_settings) as [Hi _].
  { simpl. lia. }
  split; [exact Hi | exact E].
Qed.

Lemma get_num_exp_probes_quot (cfg : Config) (s : EtxData) :
  valid cfg →
  _get_num_exp_probes cfg s = (Ok (WINDOW cfg ÷ INTERVAL cfg), s).
Proof.
  intros Hcfg. rewrite (get_num_exp_probes_run _ Hcfg). unfold expected_of.
  destruct Hcfg as [Hi Hw]. rewrite Z.quot_div_nonneg by lia. reflexivity.
Qed.

(** C9. For every configuration that passes the start-up check the
    expected number of probes is [WINDOW / INTERVAL] with the remainder
    discarded, and it is at least one. *)
Theorem expected_probes_truncated (opt_list : list (string * string))
    (st : Settings) (s : EtxData) :
  startup opt_list = Some st →
  INTERVAL (timing st) ≤ WINDOW (timing st) ∧
  _get_num_exp_probes (timing st) s
    = (Ok (WINDOW (timing st) ÷ INTERVAL (timing st)), s) ∧
  1 ≤ WINDOW (timing st) ÷ INTERVAL (timing st).
Proof.
  intros H. apply startup_valid in H.
  split; [apply H|]. split; [by apply get_num_exp_probes_quot|].
  pose proof (expected_pos _ H) as He. unfold expected_of in He.
  destruct H as [Hi Hw]. rewrite Z.quot_div_nonneg by lia. exact He.
Qed.

Lemma expected_probes_truncated_witness :
  startup [("-w", "10"); ("-i", "3")] = Some
    (mkSettings 9157 9158 (mkConfig 10 3) false false false 0) ∧
  _get_num_exp_probes (mkConfig 10 3) store_six_of_ten
    = (Ok 3, store_six_of_ten).
Proof.
  split; [reflexivity|].
  exact (proj1 (proj2 (expected_probes_truncated
    [("-w", "10"); ("-i", "3")]
    (mkSettings 9157 9158 (mkConfig 10 3) false false false 0)
    store_six_of_ten eq_refl))).
Defined.

(** ** Which methods change the store *)

Lemma keys_empty {V} : keys (∅ : gmap string V) = [].
Proof. unfold keys. rewrite map_to_list_empty. reflexivity. Qed.

Lemma keys_singleton {V} (k : string) (v : V) :
  keys ({[ k := v ]} : gmap string V) = [k].
Proof. unfold keys. rewrite map_to_list_singleton. reflexivity. Qed.

Lemma elem_of_keys {V} (d : gmap string V) (k : string) :
  k ∈ keys d ↔ is_Some (d !! k).
Proof.
  unfold keys. rewrite list_elem_of_fmap. split.
  - intros [[k' v] [-> H]]. apply elem_of_map_to_list in H. by exists v.
  - intros [v H]. exists (k, v). split; [done|]. by apply elem_of_map_to_list.
Qed.

Lemma NoDup_keys {V} (d : gmap string V) : NoDup (keys d).
Proof. apply NoDup_fst_map_to_list. Qed.

Lemma set_mac_changes (ip mac : string) : ¬ readonly (set_mac ip mac).
Proof.
  intros H. specialize (H (EtxData_init "")).
  apply (f_equal (λ s, _mac_addresses s !! ip)) in H. simpl in H.
  rewrite lookup_insert_eq, lookup_empty in H. discriminate.
Qed.

Lemma set_neighbor_info_changes (n : string) (table : Table) :
  ¬ readonly (set_neighbor_info n table).
Proof.
  intros H. specialize (H (EtxData_init "")).
  apply (f_equal (λ s, _neighbor_probes s !! n)) in H. simpl in H.
  rewrite lookup_insert_eq, lookup_empty in H. discriminate.
Qed.

Lemma add_timestamp_changes (clock : Q) (n : string) (t : option Q) :
  ¬ readonly (add_timestamp clock n t).
Proof.
  intros H. specialize (H (EtxData_init "")).
  apply (f_equal (λ s, _received_probes s !! n)) in H.
  unfold add_timestamp in H. rewrite bind_run in H. simpl in H.
  rewrite keys_empty in H.
  destruct (decide (n ∈ [])) as [Hin|_]; [by apply elem_of_nil in Hin|].
  simpl in H. rewrite lookup_alter_eq, lookup_insert_eq, lookup_empty in H.
  discriminate.
Qed.

(** One turn of the loop of [remove_old_probes], for a neighbor that has
    a list: the list loses its old head elements, and when nothing is left
    and the neighbor has a table, both entries go. *)
Lemma remove_old_probes_body_run (cfg : Config) (t : Q) (n : string)
    (s : EtxData) (l : list Q) :
  _received_probes s !! n = Some l →
  remove_old_probes_body cfg t n s =
  (Ok tt,
   if gone cfg t s n l
   then mkEtxData (ip_address s) (_mac_addresses s)
          (delete n (_neighbor_probes s))
          (delete n (<[n := drop_old (WINDOW cfg) t l]> (_received_probes s)))
   else mkEtxData (ip_address s) (_mac_addresses s)
          (_neighbor_probes s)
          (<[n := drop_old (WINDOW cfg) t l]> (_received_probes s))).
Proof.
  intros Hl. unfold remove_old_probes_body, gone.
  unfold mbind, Py_bind, gets, modify, getitem, pass, mret, Py_ret. simpl.
  rewrite Hl. simpl. rewrite lookup_insert_eq. simpl.
  destruct (bool_decide _ && bool_decide _); reflexivity.
Qed.

Lemma remove_old_probes_changes (cfg : Config) (clock : Q) (t : option Q) :
  ¬ readonly (remove_old_probes cfg clock t).
Proof.
  intros H.
  set (old := (default clock t - inject_Z (WINDOW cfg) - 1)%Q).
  specialize (H (mkEtxData "" ∅ ∅ {[ "n" := [old] ]})).
  apply (f_equal (λ s, _received_probes s !! "n")) in H.
  unfold remove_old_probes in H. rewrite bind_run in H. simpl in H.
  rewrite keys_singleton in H. simpl in H. rewrite bind_run in H.
  erewrite remove_old_probes_body_run in H
    by (simpl; apply lookup_singleton_eq).
  unfold gone in H. simpl in H.
  rewrite keys_empty, andb_false_r in H. simpl in H.
  destruct (Qlt_le_dec (old + inject_Z (WINDOW cfg)) (default clock t))
    as [_|Hle]; [|subst old; lra].
  rewrite lookup_insert_eq in H. discriminate.
Qed.

(** C10. The read accessors hand the store back as they got it, whatever
    they return or raise; each of the four other methods changes some
    store. *)
Theorem accessors_readonly (cfg : Config) :
  (∀ n, readonly (get_transmission_probability cfg n)) ∧
  (∀ n, readonly (get_etx cfg n)) ∧
  (∀ etx, readonly (get_neighbors cfg etx)) ∧
  readonly get_probe_data ∧
  (∀ ip, readonly (get_mac ip)) ∧
  (∀ clock n t, ¬ readonly (add_timestamp clock n t)) ∧
  (∀ n table, ¬ readonly (set_neighbor_info n table)) ∧
  (∀ ip mac, ¬ readonly (set_mac ip mac)) ∧
  (∀ clock t, ¬ readonly (remove_old_probes cfg clock t)).
Proof.
  repeat split.
  - apply readonly_get_transmission_probability.
  - apply readonly_get_etx.
  - apply readonly_get_neighbors.
  - apply readonly_get_probe_data.
  - apply readonly_get_mac.
  - apply add_timestamp_changes.
  - apply set_neighbor_info_changes.
  - apply set_mac_changes.
  - apply remove_old_probes_changes.
Qed.

(** ** Eviction *)

Section Eviction.
Variable cfg : Config.
Variable t : Q.

Lemma gone_other (s s1 : EtxData) (k x : string) (l : list Q) :
  _neighbor_probes s1 !! x = _neighbor_probes s !! x →
  gone cfg t s1 x l = gone cfg t s x l.
Proof.
  intros H. unfold gone. f_equal. apply bool_decide_ext.
  rewrite !elem_of_keys, H. done.
Qed.

(** The loop over a list of distinct neighbors that all have a list. *)
Lemma for_each_remove_old (ks : list string) :
  NoDup ks →
  ∀ s, (∀ k, k ∈ ks → is_Some (_received_probes s !! k)) →
  ∃ s',
    for_each ks (remove_old_probes_body cfg t) s = (Ok tt, s') ∧
    ip_address s' = ip_address s ∧
    _mac_addresses s' = _mac_addresses s ∧
    (∀ x, _received_probes s' !! x =
          if decide (x ∈ ks) then trimmed cfg t s x
          else _received_probes s !! x) ∧
    (∀ x, _neighbor_probes s' !! x =
          if decide (x ∈ ks) then surviving cfg t s x
          else _neighbor_probes s !! x).
Proof.
  induction 1 as [|k ks Hk Hnd IH]; intros s Hin.
  - exists s. repeat split; intros x; destruct (decide (x ∈ [])) as [H|_];
      try reflexivity; by apply elem_of_nil in H.
  - destruct (Hin k) as [l Hl]; [left|].
    simpl. rewrite bind_run, (remove_old_probes_body_run cfg t k s l Hl).
    match goal with
    | |- context [if gone cfg t s k l then ?a else ?b] =>
        set (s1 := if gone cfg t s k l then a else b)
    end.
    assert (Hrp : ∀ x, x ≠ k →
              _received_probes s1 !! x = _received_probes s !! x).
    { intros x Hx. subst s1. destruct (gone cfg t s k l); simpl.
      - rewrite lookup_delete_ne, lookup_insert_ne by done. done.
      - rewrite lookup_insert_ne by done. done. }
    assert (Hnp : ∀ x, x ≠ k →
              _neighbor_probes s1 !! x = _neighbor_probes s !! x).
    { intros x Hx. subst s1. destruct (gone cfg t s k l); simpl.
      - rewrite lookup_delete_ne by done. done.
      - done. }
    assert (Hrk : _received_probes s1 !! k = trimmed cfg t s k).
    { subst s1. unfold trimmed. rewrite Hl. destruct (gone cfg t s k l); simpl.
      - apply lookup_delete_eq.
      - apply lookup_insert_eq. }
    assert (Hnk : _neighbor_probes s1 !! k = surviving cfg t s k).
    { subst s1. unfold surviving. rewrite Hl.
      destruct (gone cfg t s k l); simpl.
      - apply lookup_delete_eq.
      - done. }
    assert (Hip : ip_address s1 = ip_address s
                  ∧ _mac_addresses s1 = _mac_addresses s).
    { subst s1. destruct (gone cfg t s k l); done. }
    destruct (IH s1) as (s' & Hrun & Hip' & Hmac' & Hr' & Hn').
    { intros x Hx. rewrite Hrp; [apply Hin; by right|].
      intros ->. done. }
    exists s'. split; [exact Hrun|].
    split; [rewrite Hip'; apply Hip|]. split; [rewrite Hmac'; apply Hip|].
    split; intros x.
    + rewrite Hr'. destruct (decide (x = k)) as [->|Hx].
      * destruct (decide (k ∈ ks)); [done|].
        destruct (decide (k ∈ k :: ks)) as [_|Hn]; [done|].
        exfalso. apply Hn. left.
      * destruct (decide (x ∈ ks)) as [Hxin|Hxin].
        -- destruct (decide (x ∈ k :: ks)) as [_|Hn];
             [|exfalso; apply Hn; by right].
           unfold trimmed. rewrite (Hrp x Hx).
           destruct (_received_probes s !! x); [|done].
           rewrite (gone_other s s1 k x _ (Hnp x Hx)). done.
        -- destruct (decide (x ∈ k :: ks)) as [Hc|_]; [|by apply Hrp].
           apply elem_of_cons in Hc as [?|?]; done.
    + rewrite Hn'. destruct (decide (x = k)) as [->|Hx].
      * destruct (decide (k ∈ ks)); [done|].
        destruct (decide (k ∈ k :: ks)) as [_|Hn]; [done|].
        exfalso. apply Hn. left.
      * destruct (decide (x ∈ ks)) as [Hxin|Hxin].
        -- destruct (decide (x ∈ k :: ks)) as [_|Hn];
             [|exfalso; apply Hn; by right].
           unfold surviving. rewrite (Hrp x Hx), (Hnp x Hx).
           destruct (_received_probes s !! x); [|done].
           rewrite (gone_other s s1 k x _ (Hnp x Hx)). done.
        -- destruct (decide (x ∈ k :: ks)) as [Hc|_]; [|by apply Hnp].
           apply elem_of_cons in Hc as [?|?]; done.
Qed.

End Eviction.

(** [remove_old_probes] returns on every store, and the store it leaves
    has the entry [trimmed] and the table [surviving] for every neighbor. *)
Lemma remove_old_probes_run (cfg : Config) (clock : Q) (ts : option Q)
    (s : EtxData) :
  ∃ s',
    remove_old_probes cfg clock ts s = (Ok tt, s') ∧
    ip_address s' = ip_address s ∧
    _mac_addresses s' = _mac_addresses s ∧
    (∀ x, _received_probes s' !! x = trimmed cfg (default clock ts) s x) ∧
    (∀ x, _neighbor_probes s' !! x = surviving cfg (default clock ts) s x).
Proof.
  unfold remove_old_probes. rewrite bind_run. simpl.
  destruct (for_each_remove_old cfg (default clock ts)
              (keys (_received_probes s)) (NoDup_keys _) s)
    as (s' & Hrun & Hip & Hmac & Hr & Hn).
  { intros k. by rewrite elem_of_keys. }
  exists s'. repeat split; try done; intros x.
  - rewrite Hr. destruct (decide _) as [|Hx]; [done|].
    rewrite elem_of_keys in Hx. unfold trimmed.
    destruct (_received_probes s !! x); [|done].
    exfalso. apply Hx. done.
  - rewrite Hn. destruct (decide _) as [|Hx]; [done|].
    rewrite elem_of_keys in Hx. unfold surviving.
    destruct (_received_probes s !! x); [|done].
    exfalso. apply Hx. done.
Qed.

Lemma drop_old_idemp (w : Z) (t : Q) (l : list Q) :
  drop_old w t (drop_old w t l) = drop_old w t l.
Proof.
  induction l as [|a l IH]; simpl; [reflexivity|].
  destruct (Qlt_le_dec (a + inject_Z w) t) as [H|H] eqn:E; [exact IH|].
  simpl. rewrite E. reflexivity.
Qed.

(** The loop deletes a prefix of stale timestamps and stops at the first
    that is not stale. *)
Lemma drop_old_split (cfg : Config) (now : Q) (l : list Q) :
  ∃ old, l = old ++ drop_old (WINDOW cfg) now l ∧ Forall (stale cfg now) old.
Proof.
  induction l as [|a l (old & Heq & Hold)]; simpl.
  - exists []. split; [reflexivity | constructor].
  - destruct (Qlt_le_dec (a + inject_Z (WINDOW cfg)) now) as [H|H].
    + exists (a :: old). split; [simpl; congruence|].
      constructor; [exact H | exact Hold].
    + exists []. split; [reflexivity | constructor].
Qed.

Lemma ordered_drop_old (w : Z) (t : Q) (l : list Q) :
  ordered l → ordered (drop_old w t l).
Proof.
  induction l as [|a l IH]; simpl; [done|]. intros [Ha Hl].
  destruct (Qlt_le_dec (a + inject_Z w) t); [by apply IH|].
  simpl. done.
Qed.

(** On an ordered list nothing stale is left behind the first timestamp
    that is kept. *)
Lemma drop_old_live (cfg : Config) (now : Q) (l : list Q) :
  ordered l →
  Forall (λ t, ¬ stale cfg now t) (drop_old (WINDOW cfg) now l).
Proof.
  induction l as [|a l IH]; simpl; [constructor|]. intros [Ha Hl].
  destruct (Qlt_le_dec (a + inject_Z (WINDOW cfg)) now) as [H|H];
    [by apply IH|].
  constructor.
  - unfold stale. lra.
  - eapply Forall_impl; [exact Ha|]. intros x Hx. unfold stale. simpl in *. lra.
Qed.

Lemma ordered_snoc (l : list Q) (t : Q) :
  ordered l → Forall (λ x, (x <= t)%Q) l → ordered (l ++ [t]).
Proof.
  induction l as [|a l IH]; simpl; intros Hl Ht.
  - split; [constructor | done].
  - destruct Hl as [Ha Hl]. inversion Ht as [|? ? Hat Ht']; subst.
    split; [|by apply IH].
    apply Forall_app. split; [exact Ha|]. constructor; [exact Hat|constructor].
Qed.

(** Eviction is idempotent on the entries. *)
Lemma trimmed_surviving_fixed (cfg : Config) (t : Q) (s s1 : EtxData) :
  (∀ x, _received_probes s1 !! x = trimmed cfg t s x) →
  (∀ x, _neighbor_probes s1 !! x = surviving cfg t s x) →
  ∀ x, trimmed cfg t s1 x = _received_probes s1 !! x
       ∧ surviving cfg t s1 x = _neighbor_probes s1 !! x.
Proof.
  intros Hr Hn x. unfold trimmed at 1, surviving at 1.
  destruct (_received_probes s1 !! x) as [l1|] eqn:E1; [|done].
  rewrite Hr in E1. unfold trimmed in E1.
  destruct (_received_probes s !! x) as [l|] eqn:E; [|done].
  destruct (gone cfg t s x l) eqn:G; [done|].
  injection E1 as <-.
  assert (Hnx : _neighbor_probes s1 !! x = _neighbor_probes s !! x).
  { rewrite Hn. unfold surviving. rewrite E, G. done. }
  assert (G1 : gone cfg t s1 x (drop_old (WINDOW cfg) t l) = false).
  { rewrite <- G. unfold gone. rewrite drop_old_idemp. f_equal.
    apply bool_decide_ext. rewrite !elem_of_keys, Hnx. done. }
  rewrite G1, drop_old_idemp. done.
Qed.


(** ** Histories *)

(** What the receive path stores for one probe. *)
Lemma record_probe_run (n mac : string) (table : Table) (t : Q)
    (s : EtxData) :
  ∃ s',
    record_probe n mac table t s = (Ok tt, s') ∧
    ip_address s' = ip_address s ∧
    _mac_addresses s' = <[n := mac]> (_mac_addresses s) ∧
    _neighbor_probes s' = <[n := table]> (_neighbor_probes s) ∧
    ∀ x, _received_probes s' !! x =
         if decide (x = n)
         then Some (default [] (_received_probes s !! n) ++ [t])
         else _received_probes s !! x.
Proof.
  unfold record_probe, set_mac, set_neighbor_info, add_timestamp.
  unfold mbind, Py_bind, gets, modify, pass, mret, Py_ret. simpl.
  destruct (decide (n ∈ keys (_received_probes s))) as [Hin|Hin]; simpl.
  - eexists. repeat split. simpl. intros x.
    apply elem_of_keys in Hin as [l Hl]. rewrite Hl. simpl.
    destruct (decide (x = n)) as [->|Hx].
    + rewrite lookup_alter_eq, Hl. done.
    + rewrite lookup_alter_ne by done. done.
  - eexists. repeat split. simpl. intros x.
    rewrite elem_of_keys in Hin.
    destruct (_received_probes s !! n) eqn:E; [exfalso; by apply Hin|].
    simpl. destruct (decide (x = n)) as [->|Hx].
    + rewrite lookup_alter_eq, lookup_insert_eq. done.
    + rewrite lookup_alter_ne, lookup_insert_ne by done. done.
Qed.

Lemma store_inv_init (ip : string) : store_inv (EtxData_init ip).
Proof.
  split; simpl.
  - intros n l H. rewrite lookup_empty in H. discriminate.
  - intros n [x H]. rewrite lookup_empty in H. discriminate.
Qed.

Lemma store_inv_evict (cfg : Config) (t : Q) (s s' : EtxData)
    (future : list Q) :
  (∀ x, _received_probes s' !! x = trimmed cfg t s x) →
  (∀ x, _neighbor_probes s' !! x = surviving cfg t s x) →
  store_inv s → before s future →
  store_inv s' ∧ before s' future.
Proof.
  intros Hr Hn [Hinv1 Hinv2] Hb. split; [split|].
  - intros n l H. rewrite Hr in H. rewrite Hn. unfold trimmed in H.
    unfold surviving.
    destruct (_received_probes s !! n) as [l0|] eqn:E; [|done].
    destruct (gone cfg t s n l0); [done|]. injection H as <-.
    split; [apply ordered_drop_old|]; apply (Hinv1 n l0 E).
  - intros n. rewrite Hn, Hr. unfold surviving, trimmed.
    destruct (_received_probes s !! n) as [l0|] eqn:E.
    + destruct (gone cfg t s n l0); [by intros [? ?] | by eexists].
    + intros H. apply Hinv2 in H. rewrite E in H. by destruct H.
  - intros n l H. rewrite Hr in H. unfold trimmed in H.
    destruct (_received_probes s !! n) as [l0|] eqn:E; [|done].
    destruct (gone cfg t s n l0); [done|]. injection H as <-.
    specialize (Hb n l0 E).
    destruct (drop_old_split cfg t l0) as (old & Heq & _).
    rewrite Heq in Hb. apply Forall_app in Hb. apply Hb.
Qed.

Lemma store_inv_record (n mac : string) (table : Table) (t : Q)
    (s s' : EtxData) (future : list Q) :
  _neighbor_probes s' = <[n := table]> (_neighbor_probes s) →
  (∀ x, _received_probes s' !! x =
        if decide (x = n)
        then Some (default [] (_received_probes s !! n) ++ [t])
        else _received_probes s !! x) →
  store_inv s → before s (t :: future) → Forall (Qle t) future →
  store_inv s' ∧ before s' future.
Proof.
  intros Hn Hr [Hinv1 Hinv2] Hb Ht. split; [split|].
  - intros x l H. rewrite Hr in H. rewrite Hn.
    destruct (decide (x = n)) as [->|Hx].
    + injection H as <-. rewrite lookup_insert_eq. split; [|by eexists].
      destruct (_received_probes s !! n) as [l0|] eqn:E; simpl.
      * apply ordered_snoc; [apply (Hinv1 n l0 E)|].
        specialize (Hb n l0 E). eapply Forall_impl; [exact Hb|].
        intros y Hy. by inversion Hy.
      * split; [constructor | done].
    + rewrite lookup_insert_ne by done. apply (Hinv1 x l H).
  - intros x. rewrite Hn, Hr. destruct (decide (x = n)) as [->|Hx].
    + intros _. by eexists.
    + rewrite lookup_insert_ne by done. apply Hinv2.
  - intros x l H. rewrite Hr in H. destruct (decide (x = n)) as [->|Hx].
    + injection H as <-. apply Forall_app. split.
      * destruct (_received_probes s !! n) as [l0|] eqn:E; simpl;
          [|constructor].
        specialize (Hb n l0 E). eapply Forall_impl; [exact Hb|].
        intros y Hy. by inversion Hy.
      * constructor; [exact Ht | constructor].
    + specialize (Hb x l H). eapply Forall_impl; [exact Hb|].
      intros y Hy. by inversion Hy.
Qed.

(** Every history in which the probes arrive in the order of their
    timestamps runs to its end and leaves a store with [store_inv]. *)
Lemma history_inv (cfg : Config) (ops : list op) :
  ∀ s, store_inv s → before s (timestamps ops) → ordered (timestamps ops) →
  ∃ s', for_each ops (run_op cfg) s = (Ok tt, s') ∧ store_inv s'.
Proof.
  induction ops as [|o ops IH]; intros s Hinv Hb Hord.
  - exists s. split; [reflexivity | exact Hinv].
  - simpl. rewrite bind_run. destruct o as [n mac table t|now]; simpl in *.
    + destruct (record_probe_run n mac table t s)
        as (s1 & Hrun & _ & _ & Hn & Hr).
      rewrite Hrun. destruct Hord as [Ht Hord].
      destruct (store_inv_record n mac table t s s1 (timestamps ops)
                  Hn Hr Hinv Hb Ht) as [Hinv1 Hb1].
      apply (IH s1 Hinv1 Hb1 Hord).
    + destruct (remove_old_probes_run cfg now (Some now) s)
        as (s1 & Hrun & _ & _ & Hr & Hn).
      rewrite Hrun.
      destruct (store_inv_evict cfg _ s s1 (timestamps ops) Hr Hn Hinv Hb)
        as [Hinv1 Hb1].
      apply (IH s1 Hinv1 Hb1 Hord).
Qed.

(** Eviction on a store with [store_inv]. *)
Lemma remove_old_probes_exact (cfg : Config) (clock now : Q) (s : EtxData) :
  store_inv s →
  ∃ s',
    remove_old_probes cfg clock (Some now) s = (Ok tt, s') ∧
    _mac_addresses s' = _mac_addresses s ∧
    (∀ n l, _received_probes s !! n = Some l →
       ∃ old live,
         l = old ++ live ∧
         Forall (stale cfg now) old ∧
         Forall (λ t, ¬ stale cfg now t) live ∧
         (live = [] → _received_probes s' !! n = None
                      ∧ _neighbor_probes s' !! n = None) ∧
         (live ≠ [] → _received_probes s' !! n = Some live
                      ∧ _neighbor_probes s' !! n = _neighbor_probes s !! n)) ∧
    (∀ n, _received_probes s !! n = None →
          _received_probes s' !! n = None ∧ _neighbor_probes s' !! n = None) ∧
    (∀ n, is_Some (_received_probes s' !! n)
          ↔ is_Some (_neighbor_probes s' !! n)).
Proof.
  intros [Hinv1 Hinv2].
  destruct (remove_old_probes_run cfg clock (Some now) s)
    as (s' & Hrun & _ & Hmac & Hr & Hn). simpl in Hr, Hn.
  assert (Hgone : ∀ n l, _received_probes s !! n = Some l →
            gone cfg now s n l
            = bool_decide (length (drop_old (WINDOW cfg) now l) = 0%nat)).
  { intros n l Hl. unfold gone.
    rewrite (bool_decide_eq_true_2 (n ∈ keys (_neighbor_probes s))).
    - apply andb_true_r.
    - apply elem_of_keys. apply (Hinv1 n l Hl). }
  exists s'. split; [exact Hrun|]. split; [exact Hmac|].
  split; [|split].
  - intros n l Hl.
    destruct (drop_old_split cfg now l) as (old & Heq & Hold).
    exists old, (drop_old (WINDOW cfg) now l).
    split; [exact Heq|]. split; [exact Hold|].
    split; [apply drop_old_live, (Hinv1 n l Hl)|].
    rewrite Hr, Hn. unfold trimmed, surviving. rewrite Hl, (Hgone n l Hl).
    split; intros Hlive.
    + rewrite Hlive. simpl. done.
    + rewrite bool_decide_eq_false_2; [done|].
      intros H0. apply Hlive. by apply length_zero_iff_nil.
  - intros n Hnone. rewrite Hr, Hn. unfold trimmed, surviving.
    rewrite Hnone. split; [done|].
    destruct (_neighbor_probes s !! n) eqn:E; [|done].
    destruct (Hinv2 n) as [? ?]; [by eexists | congruence].
  - intros n. rewrite Hr, Hn. unfold trimmed, surviving.
    destruct (_received_probes s !! n) as [l|] eqn:E.
    + destruct (gone cfg now s n l).
      * split; by intros [? ?].
      * split; intros _; [apply (Hinv1 n l E) | by eexists].
    + split; [by intros [? ?]|].
      intros H. apply Hinv2 in H. rewrite E in H. by destruct H.
Qed.



(** The example history followed by an eviction at time 18: the first
    neighbor keeps its last timestamp and its last table, the second one
    loses both entries, and both MAC addresses stay. *)
Example remove_old_probes_example :
  (for_each history_example (run_op cfg_10_1) ≫= λ _,
   remove_old_probes cfg_10_1 0%Q (Some (18#1)%Q)) (EtxData_init "10.0.0.1")
  = (Ok tt,
     mkEtxData "10.0.0.1"
       (<[ "10.0.0.2" := "00:16:3e:00:00:02" ]>
         {[ "10.0.0.3" := "00:16:3e:00:00:03" ]})
       {[ "10.0.0.2" := {[ "10.0.0.1" := (5, 3) ]} ]}
       {[ "10.0.0.2" := [20#1]%Q ]}).
Proof. vm_compute. reflexivity. Qed.

(** A neighbor that has timestamps but no table (a store that no history
    produces) keeps its list, empty, when the last timestamp goes. *)
Example remove_old_probes_without_table :
  remove_old_probes cfg_10_1 0%Q (Some (100#1)%Q)
    (mkEtxData "10.0.0.1" ∅ ∅ {[ "10.0.0.2" := [1#1]%Q ]})
  = (Ok tt, mkEtxData "10.0.0.1" ∅ ∅ {[ "10.0.0.2" := [] ]}).
Proof. vm_compute. reflexivity. Qed.

(** ** The receive path *)

Section Receive.
Variable cfg : Config.
Variable pickle_loads : string → Result (string * Table).
Variable self : EtxProbeProtocol.

(** A probe from another address that deserialises is recorded with the
    time of arrival. *)
Lemma datagramReceived_records (clock clock' : Q) (datagram : string)
    (addr : string * Z) (mac : string) (table : Table) (s : EtxData) :
  addr.1 ≠ own_ip self →
  pickle_loads datagram = Ok (mac, table) →
  datagramReceived cfg pickle_loads self false clock clock' datagram addr s
  = record_probe addr.1 mac table clock s.
Proof.
  intros Hne Hload. unfold datagramReceived, record_probe.
  destruct (decide (addr.1 ≠ own_ip self)); [|done].
  rewrite bind_run. unfold lift. rewrite Hload.
  unfold mbind, Py_bind, pass, mret, Py_ret.
  destruct (set_mac addr.1 mac s) as [[[]|e] s1]; [|done].
  destruct (set_neighbor_info addr.1 table s1) as [[[]|e] s2]; [|done].
  destruct (add_timestamp clock addr.1 None s2) as [[[]|e] s3]; done.
Qed.

(** The echo of the node's own broadcast is dropped unread. *)
Lemma datagramReceived_own (debug : bool) (clock clock' : Q)
    (datagram : string) (addr : string * Z) (s : EtxData) :
  addr.1 = own_ip self →
  datagramReceived cfg pickle_loads self debug clock clock' datagram addr s
  = (Ok tt, s).
Proof.
  intros He. unfold datagramReceived.
  destruct (decide (addr.1 ≠ own_ip self)); done.
Qed.

(** C2, as the code has it. A datagram from another address whose
    payload fails to deserialise is not recorded, and the error of the
    unpickler is raised by the handler to its caller. *)
Theorem datagramReceived_malformed (debug : bool) (clock clock' : Q)
    (datagram : string) (addr : string * Z) (e : exn) (s : EtxData) :
  addr.1 ≠ own_ip self →
  pickle_loads datagram = Raise e →
  datagramReceived cfg pickle_loads self debug clock clock' datagram addr s
  = (Raise e, s).
Proof.
  intros Hne Hload. unfold datagramReceived.
  destruct (decide (addr.1 ≠ own_ip self)); [|done].
  rewrite bind_run. unfold lift. rewrite Hload. reflexivity.
Qed.

End Receive.

Lemma datagramReceived_malformed_witness :
  datagramReceived cfg_10_1 loads_example protocol_example false 0%Q 0%Q
    "" ("10.0.0.2", 9158) store_six_of_ten
  = (Raise EOFError, store_six_of_ten).
Proof.
  apply (datagramReceived_malformed cfg_10_1 loads_example protocol_example
           false 0%Q 0%Q "" ("10.0.0.2", 9158) EOFError store_six_of_ten).
  - simpl. discriminate.
  - reflexivity.
Defined.

(** C2 as stated fails: the handler does not return on the empty payload
    of a neighbor, it raises. *)
Lemma datagramReceived_raises :
  loads_example "" = Raise EOFError ∧
  (datagramReceived cfg_10_1 loads_example protocol_example false 0%Q 0%Q
     "" ("10.0.0.2", 9158) store_six_of_ten).1
  ≠ Ok tt.
Proof. split; [reflexivity|]. vm_compute. discriminate. Qed.

(** ** The query server *)

Section Query.
Variable cfg : Config.
Variable now : string → Q.
Variable str_float : Q → string.
Variable str_int : Z → string.
Variable float_of_str : string → option Q.
Variable getChannel : string → Result Z.

(** A first word that is none of the five commands is answered with
    [INVALID SYNTAX], and the connection is closed. *)
Lemma lineReceived_unrecognized (request : string) (p : EtxIpcProtocol) :
  default "" (parse_request request !! 0%nat)
    ∉ ["NEIGHBORS"; "MAC"; "CHAFT"; "QUALITY"; "ETX"] →
  lineReceived cfg now str_float str_int float_of_str getChannel request p
  = (Ok tt, refused p).
Proof.
  intros H. unfold lineReceived, dispatch.
  set (command := default "" (parse_request request !! 0%nat)) in *.
  clearbody command.
  repeat match goal with
  | |- context [String.eqb command ?c] =>
      destruct (String.eqb_spec command c) as [Heq|_];
        [exfalso; apply H; rewrite Heq; set_solver|]
  end.
  reflexivity.
Qed.

(** [QUALITY] and [ETX] without an address are answered with
    [INVALID SYNTAX], and the connection is closed. *)
Lemma lineReceived_missing_argument (request : string) (p : EtxIpcProtocol) :
  default "" (parse_request request !! 0%nat) ∈ ["QUALITY"; "ETX"] →
  parse_request request !! 1%nat = None →
  lineReceived cfg now str_float str_int float_of_str getChannel request p
  = (Ok tt, refused p).
Proof.
  intros H Harg. unfold lineReceived, dispatch.
  set (command := default "" (parse_request request !! 0%nat)) in *.
  clearbody command.
  apply elem_of_cons in H as [->|H]; [|apply list_elem_of_singleton in H as ->];
    simpl; unfold cmd_QUALITY, cmd_ETX; rewrite Harg; reflexivity.
Qed.

(** C8 fails on the code: [NEIGHBORS wlan0] for an interface without
    data leaves the handler at its [return]; nothing is sent and the
    connection stays open. *)
Theorem lineReceived_neighbors_down_stays_open :
  lineReceived cfg now str_float str_int float_of_str getChannel
    "NEIGHBORS wlan0" ipc_wlan0_down
  = (Ok tt, ipc_wlan0_down) ∧
  connected ipc_wlan0_down = true.
Proof. split; [vm_compute|]; reflexivity. Qed.

End Query.

Example lineReceived_examples (cfg : Config) (now : string → Q)
    (str_float : Q → string) (str_int : Z → string)
    (float_of_str : string → option Q) (getChannel : string → Result Z) :
  let handle := lineReceived cfg now str_float str_int float_of_str getChannel in
  handle "" ipc_wlan0_down = (Ok tt, refused ipc_wlan0_down) ∧
  handle "HELLO" ipc_wlan0_down = (Ok tt, refused ipc_wlan0_down) ∧
  handle " quality " ipc_wlan0_down = (Ok tt, refused ipc_wlan0_down) ∧
  handle "etx" ipc_wlan0_down = (Ok tt, refused ipc_wlan0_down) ∧
  handle "neighbors eth7" ipc_wlan0_down
    = (Ok tt, mkEtxIpcProtocol (interfaces ipc_wlan0_down) [] false).
Proof. repeat split; vm_compute; reflexivity. Qed.

(** ** The neighbor tables *)

(** A loop whose body only reads the object computes a left fold. *)
Lemma fold_each_read {S A B} (l : list A) (body : B → A → Py S B)
    (g : B → A → B) (s : S) :
  (∀ acc x, body acc x s = (Ok (g acc x), s)) →
  ∀ acc, fold_each l acc body s = (Ok (foldl g acc l), s).
Proof.
  intros Hbody. induction l as [|x l IH]; intros acc; simpl.
  - reflexivity.
  - rewrite (bind_ok _ _ _ _ (Hbody acc x)). apply IH.
Qed.

Lemma fold_each_read_in {S A B} (l : list A) (body : B → A → Py S B)
    (g : B → A → B) (s : S) :
  (∀ acc x, x ∈ l → body acc x s = (Ok (g acc x), s)) →
  ∀ acc, fold_each l acc body s = (Ok (foldl g acc l), s).
Proof.
  induction l as [|x l IH]; intros Hbody acc; simpl.
  - reflexivity.
  - rewrite (bind_ok _ _ _ _ (Hbody acc x ltac:(left))). apply IH.
    intros acc' y Hy. apply Hbody. by right.
Qed.

(** A loop whose body only reads the object, and raises [e] for one of
    the elements and nothing else for the others, raises [e]. *)
Lemma fold_each_raises {S A B} (l : list A) (body : B → A → Py S B)
    (e : exn) (s : S) (x : A) :
  x ∈ l →
  (∀ acc, body acc x s = (Raise e, s)) →
  (∀ acc y, y ∈ l → (∃ acc', body acc y s = (Ok acc', s))
                     ∨ body acc y s = (Raise e, s)) →
  ∀ acc, fold_each l acc body s = (Raise e, s).
Proof.
  induction l as [|y l IH]; intros Hx Hraise Hbody acc.
  - by apply elem_of_nil in Hx.
  - simpl. rewrite bind_run.
    destruct (Hbody acc y ltac:(left)) as [[acc' Hok]|Hr].
    + rewrite Hok. apply elem_of_cons in Hx as [->|Hx].
      * rewrite Hraise in Hok. discriminate.
      * apply IH; [exact Hx | exact Hraise |].
        intros acc'' z Hz. apply Hbody. by right.
    + rewrite Hr. reflexivity.
Qed.

Lemma list_cases {A} (P : A → Prop) (l : list A) :
  (∀ x, P x ∨ ¬ P x) → Forall P l ∨ ∃ x, x ∈ l ∧ ¬ P x.
Proof.
  intros Hdec. induction l as [|x l [IH|(y & Hy & Hn)]].
  - left. constructor.
  - destruct (Hdec x) as [Hx|Hx].
    + left. by constructor.
    + right. exists x. split; [left | exact Hx].
  - right. exists y. split; [by right | exact Hn].
Qed.

(** ** Stores whose counts [float()] converts *)

Lemma convertible_reported (s : EtxData) :
  convertible s ↔
  ∀ n, is_Some (_received_probes s !! n) → float_range (reported_of s n).
Proof.
  split.
  - intros H n Hn. unfold reported_of.
    destruct (_neighbor_probes s !! n) as [table|] eqn:Ht;
      [|apply float_range_0].
    destruct (table !! ip_address s) as [entry|] eqn:He;
      [|apply float_range_0].
    by apply (H n table entry).
  - intros H n table entry Hn Ht He. specialize (H n Hn).
    unfold reported_of in H. by rewrite Ht, He in H.
Qed.

Lemma convertible_cases (s : EtxData) :
  convertible s ∨
  ∃ n, is_Some (_received_probes s !! n) ∧ ¬ float_range (reported_of s n).
Proof.
  destruct (list_cases (λ n, float_range (reported_of s n))
              (keys (_received_probes s))) as [Hall|(n & Hin & Hn)].
  - intros n. apply float_range_dec.
  - left. apply (proj2 (convertible_reported s)). intros n Hn.
    rewrite Forall_forall in Hall. apply Hall. by apply elem_of_keys.
  - right. exists n. split; [by apply elem_of_keys | exact Hn].
Qed.

Lemma not_convertible (s : EtxData) :
  ¬ convertible s →
  ∃ n, is_Some (_received_probes s !! n) ∧ ¬ float_range (reported_of s n).
Proof. intros H. by destruct (convertible_cases s). Qed.

(** The dict built by inserting, for every key of a list, its value when
    that value is positive. *)
Lemma foldl_positive_lookup (v : string → Q) (l : list string)
    (acc : gmap string Q) (k : string) :
  foldl (λ acc n, if Qlt_le_dec 0 (v n) then <[n := v n]> acc else acc) acc l
    !! k
  = if decide (k ∈ l)
    then (if Qlt_le_dec 0 (v k) then Some (v k) else acc !! k)
    else acc !! k.
Proof.
  revert acc. induction l as [|n l IH]; intros acc; simpl.
  - destruct (decide (k ∈ [])) as [H|_]; [by apply elem_of_nil in H | done].
  - rewrite IH. destruct (decide (k = n)) as [->|Hne].
    + destruct (decide (n ∈ n :: l)) as [_|Hn]; [|exfalso; apply Hn; left].
      destruct (Qlt_le_dec 0 (v n)); [|by destruct (decide (n ∈ l))].
      rewrite lookup_insert_eq. by destruct (decide (n ∈ l)).
    + assert (Hacc : (if Qlt_le_dec 0 (v n) then <[n := v n]> acc else acc)
                       !! k = acc !! k).
      { destruct (Qlt_le_dec 0 (v n)); [|done].
        by rewrite lookup_insert_ne. }
      rewrite Hacc. destruct (decide (k ∈ l)) as [Hin|Hin].
      * destruct (decide (k ∈ n :: l)) as [_|Hn];
          [done | exfalso; apply Hn; by right].
      * destruct (decide (k ∈ n :: l)) as [Hc|_]; [|done].
        apply elem_of_cons in Hc as [?|?]; done.
Qed.

Lemma inverse_positive (p : Q) : (0 < 1 / p)%Q ↔ (0 < p)%Q.
Proof.
  destruct p as [[|num|num] den]; unfold Qlt, Qdiv, Qmult, Qinv; simpl;
    split; lia.
Qed.

Section Neighbors.
Variable cfg : Config.
Hypothesis Hcfg : valid cfg.

Lemma etx_positive s n : (0 < etx_of cfg s n)%Q ↔ (0 < prob_of cfg s n)%Q.
Proof.
  unfold etx_of. destruct (Qeq_bool (prob_of cfg s n) 0) eqn:E.
  - apply Qeq_bool_iff in E. split; intros H; [|lra].
    revert H. unfold Qlt. simpl. lia.
  - apply inverse_positive.
Qed.

(** A neighbor without a list of timestamps has probability zero. *)
Lemma prob_positive_heard s n :
  (0 < prob_of cfg s n)%Q → is_Some (_received_probes s !! n).
Proof.
  intros Hp. destruct (_received_probes s !! n) as [l|] eqn:E; [by eexists|].
  exfalso. unfold prob_of in Hp.
  assert (Hr : (reverse_of cfg s n == 0)%Q).
  { unfold reverse_of, heard_of. rewrite E.
    rewrite clamp_below; unfold Qdiv; rewrite Qmult_0_l; lra. }
  rewrite Hr, Qmult_0_r in Hp. lra.
Qed.

Lemma get_neighbors_prob_run s :
  convertible s →
  ∃ m, get_neighbors cfg false s = (Ok m, s) ∧
       ∀ k, m !! k = if Qlt_le_dec 0 (prob_of cfg s k)
                     then Some (prob_of cfg s k) else None.
Proof.
  intros Hc. pose proof (proj1 (convertible_reported s) Hc) as Hs.
  unfold get_neighbors. rewrite bind_run. simpl.
  rewrite (fold_each_read_in _ _
    (λ acc n, if Qlt_le_dec 0 (prob_of cfg s n)
              then <[n := prob_of cfg s n]> acc else acc)).
  - eexists. split; [reflexivity|]. intros k.
    rewrite (foldl_positive_lookup (prob_of cfg s)), lookup_empty.
    destruct (decide (k ∈ keys (_received_probes s))) as [|Hk]; [done|].
    destruct (Qlt_le_dec 0 (prob_of cfg s k)) as [Hp|]; [|done].
    exfalso. apply Hk, elem_of_keys, prob_positive_heard, Hp.
  - intros acc n Hn. apply elem_of_keys in Hn.
    rewrite (bind_ok _ _ _ _
               (get_transmission_probability_run cfg Hcfg s n (Hs n Hn))).
    destruct (Qlt_le_dec 0 (prob_of cfg s n)); reflexivity.
Qed.

Lemma get_neighbors_etx_run s :
  convertible s →
  ∃ m, get_neighbors cfg true s = (Ok m, s) ∧
       ∀ k, m !! k = if Qlt_le_dec 0 (prob_of cfg s k)
                     then Some (etx_of cfg s k) else None.
Proof.
  intros Hc. pose proof (proj1 (convertible_reported s) Hc) as Hs.
  unfold get_neighbors. rewrite bind_run. simpl.
  rewrite (fold_each_read_in _ _
    (λ acc n, if Qlt_le_dec 0 (etx_of cfg s n)
              then <[n := etx_of cfg s n]> acc else acc)).
  - eexists. split; [reflexivity|]. intros k.
    rewrite (foldl_positive_lookup (etx_of cfg s)), lookup_empty.
    destruct (Qlt_le_dec 0 (etx_of cfg s k)) as [He|He];
      destruct (Qlt_le_dec 0 (prob_of cfg s k)) as [Hp|Hp].
    + destruct (decide (k ∈ keys (_received_probes s))) as [|Hk]; [done|].
      exfalso. apply Hk, elem_of_keys, prob_positive_heard, Hp.
    + apply etx_positive in He. lra.
    + apply etx_positive in Hp. lra.
    + by destruct (decide _).
  - intros acc n Hn. apply elem_of_keys in Hn.
    rewrite (bind_ok _ _ _ _ (get_etx_run cfg Hcfg s n (Hs n Hn))).
    destruct (Qlt_le_dec 0 (etx_of cfg s n)); reflexivity.
Qed.

(** One count that [float()] refuses, of a neighbor that has a list, and
    neither dict is built. *)
Lemma get_neighbors_raise s etx :
  ¬ convertible s →
  get_neighbors cfg etx s = (Raise OverflowError, s).
Proof.
  intros Hs. apply not_convertible in Hs as (n & Hn & Hbad).
  unfold get_neighbors. rewrite bind_run. simpl.
  apply (fold_each_raises _ _ _ _ n).
  - by apply elem_of_keys.
  - intros acc. destruct etx; rewrite bind_run.
    + by rewrite (get_etx_raise cfg s n Hbad).
    + by rewrite (get_transmission_probability_raise cfg s n Hbad).
  - intros acc y _. destruct (float_range_dec (reported_of s y)) as [Hy|Hy].
    + left. destruct etx.
      * rewrite (bind_ok _ _ _ _ (get_etx_run cfg Hcfg s y Hy)).
        destruct (Qlt_le_dec 0 (etx_of cfg s y)); by eexists.
      * rewrite (bind_ok _ _ _ _
                   (get_transmission_probability_run cfg Hcfg s y Hy)).
        destruct (Qlt_le_dec 0 (prob_of cfg s y)); by eexists.
    + right. destruct etx; rewrite bind_run.
      * by rewrite (get_etx_raise cfg s y Hy).
      * by rewrite (get_transmission_probability_raise cfg s y Hy).
Qed.

(** [get_neighbors] returns exactly on the convertible stores. *)
Lemma get_neighbors_returns s etx m s' :
  get_neighbors cfg etx s = (Ok m, s') → convertible s ∧ s' = s.
Proof.
  intros H. destruct (convertible_cases s) as [Hs|Hs].
  - split; [exact Hs|].
    pose proof (readonly_get_neighbors cfg etx s) as Hro.
    rewrite H in Hro. by simpl in Hro.
  - rewrite get_neighbors_raise in H; [discriminate|].
    intros Hc. destruct Hs as (n & Hn & Hbad).
    by apply Hbad, (proj1 (convertible_reported s) Hc).
Qed.

End Neighbors.



Example get_neighbors_example :
  get_neighbors cfg_10_1 false store_six_of_ten
    = (Ok {[ "10.0.0.2" := (60 # 100)%Q ]}, store_six_of_ten) ∧
  get_neighbors cfg_10_1 true store_six_of_ten
    = (Ok {[ "10.0.0.2" := (100 # 60)%Q ]}, store_six_of_ten).
Proof. split; vm_compute; reflexivity. Qed.

(** [CHAFT] with an argument that [float] rejects: the [ValueError]
    leaves the handler before anything is sent, and the connection stays
    open as well. *)
Lemma lineReceived_chaft_not_a_number (cfg : Config) (now : string → Q)
    (str_float : Q → string) (str_int : Z → string)
    (float_of_str : string → option Q) (getChannel : string → Result Z)
    (p : EtxIpcProtocol) :
  float_of_str "abc" = None →
  lineReceived cfg now str_float str_int float_of_str getChannel
    "CHAFT abc" p
  = (Raise ValueError, p).
Proof.
  intros H. unfold lineReceived. rewrite bind_run.
  change (parse_request "CHAFT abc") with ["CHAFT"; "abc"].
  unfold dispatch. simpl. unfold cmd_CHAFT. simpl.
  rewrite !bind_run. unfold to_float. rewrite H. reflexivity.
Qed.

(** * Further properties of the code *)

(** ** The MAC table *)

Lemma get_mac_run (ip : string) (s : EtxData) :
  get_mac ip s = (Ok (_mac_addresses s !! ip), s).
Proof.
  unfold get_mac, try_except, getitem.
  unfold mbind, Py_bind, gets, mret, Py_ret, raise. simpl.
  destruct (_mac_addresses s !! ip); reflexivity.
Qed.

(** X1. [get_mac] never raises: it returns [None] for an address that
    was never set. After [set_mac ip mac] it returns [mac] for [ip] and
    what it returned before for every other address, and the timestamps
    and tables are as they were. *)
Theorem set_mac_get_mac (ip mac ip' : string) (s : EtxData) :
  ∃ s',
    set_mac ip mac s = (Ok tt, s') ∧
    get_mac ip s' = (Ok (Some mac), s') ∧
    (ip' ≠ ip → (get_mac ip' s').1 = (get_mac ip' s).1) ∧
    get_mac ip' (EtxData_init ip) = (Ok None, EtxData_init ip) ∧
    _neighbor_probes s' = _neighbor_probes s ∧
    _received_probes s' = _received_probes s ∧
    ip_address s' = ip_address s.
Proof.
  eexists. split; [reflexivity|]. rewrite !get_mac_run. simpl.
  rewrite lookup_insert_eq, lookup_empty.
  repeat split. intros Hne. by rewrite lookup_insert_ne.
Qed.

(** ** Eviction on an arbitrary store *)

Lemma drop_old_head (cfg : Config) (now : Q) (l : list Q) (t : Q) :
  head (drop_old (WINDOW cfg) now l) = Some t → ¬ stale cfg now t.
Proof.
  induction l as [|a l IH]; simpl; [discriminate|].
  destruct (Qlt_le_dec (a + inject_Z (WINDOW cfg)) now) as [H|H];
    [exact IH|].
  simpl. intros [= <-]. unfold stale. lra.
Qed.


Lemma drop_old_later (w : Z) (t1 t2 : Q) (l : list Q) :
  (t1 <= t2)%Q → drop_old w t2 (drop_old w t1 l) = drop_old w t2 l.
Proof.
  intros Hle. induction l as [|a l IH]; simpl; [reflexivity|].
  destruct (Qlt_le_dec (a + inject_Z w) t1) as [H1|H1].
  - rewrite IH. destruct (Qlt_le_dec (a + inject_Z w) t2); [done | lra].
  - reflexivity.
Qed.



(** ** What a received probe changes *)

(** X4. A probe from another address that deserialises is absorbed
    without raising: the sender's MAC address is the one in the probe,
    its table is replaced by the table in the probe, the arrival time is
    appended to its list, so that one more probe counts as received from
    it; the entries of every other neighbor are untouched. *)
Theorem datagramReceived_effect (cfg : Config)
    (pickle_loads : string → Result (string * Table))
    (self : EtxProbeProtocol) (clock clock' : Q) (datagram : string)
    (addr : string * Z) (mac : string) (table : Table) (s : EtxData) :
  addr.1 ≠ own_ip self →
  pickle_loads datagram = Ok (mac, table) →
  ∃ s' heard,
    datagramReceived cfg pickle_loads self false clock clock' datagram addr s
      = (Ok tt, s') ∧
    ip_address s' = ip_address s ∧
    get_mac addr.1 s' = (Ok (Some mac), s') ∧
    _neighbor_probes s' !! addr.1 = Some table ∧
    _received_probes s' !! addr.1
      = Some (default [] (_received_probes s !! addr.1) ++ [clock]) ∧
    _get_num_probes_recv_from_neighbor addr.1 s = (Ok heard, s) ∧
    _get_num_probes_recv_from_neighbor addr.1 s' = (Ok (heard + 1), s') ∧
    (∀ n, n ≠ addr.1 →
          _mac_addresses s' !! n = _mac_addresses s !! n ∧
          _neighbor_probes s' !! n = _neighbor_probes s !! n ∧
          _received_probes s' !! n = _received_probes s !! n).
Proof.
  intros Hne Hload.
  rewrite (datagramReceived_records cfg pickle_loads self clock clock'
             datagram addr mac table s Hne Hload).
  destruct (record_probe_run addr.1 mac table clock s)
    as (s' & Hrun & Hip & Hmac & Hn & Hr).
  exists s', (heard_of s addr.1). split; [exact Hrun|]. split; [exact Hip|].
  rewrite get_mac_run, Hmac, Hn, !lookup_insert_eq, Hr.
  rewrite !get_num_probes_recv_from_neighbor_run.
  destruct (decide (addr.1 = addr.1)); [|done].
  repeat split.
  - f_equal. f_equal. unfold heard_of. rewrite Hr.
    destruct (decide (addr.1 = addr.1)); [|done].
    rewrite length_app. simpl.
    destruct (_received_probes s !! addr.1); simpl; lia.
  - by rewrite lookup_insert_ne.
  - by rewrite lookup_insert_ne.
  - rewrite Hr. by destruct (decide (n = addr.1)).
Qed.

Lemma datagramReceived_effect_witness :
  ∃ s' heard,
    datagramReceived cfg_10_1 loads_example protocol_example false
      (7#1)%Q 0%Q "00:16:3e:00:00:02" ("10.0.0.2", 9158) store_six_of_ten
      = (Ok tt, s') ∧
    _get_num_probes_recv_from_neighbor "10.0.0.2" store_six_of_ten
      = (Ok heard, store_six_of_ten) ∧
    _get_num_probes_recv_from_neighbor "10.0.0.2" s' = (Ok (heard + 1), s').
Proof.
  destruct (datagramReceived_effect cfg_10_1 loads_example protocol_example
              (7#1)%Q 0%Q "00:16:3e:00:00:02" ("10.0.0.2", 9158)
              "00:16:3e:00:00:02" ∅ store_six_of_ten)
    as (s' & heard & H1 & _ & _ & _ & _ & H6 & H7 & _).
  - simpl. discriminate.
  - reflexivity.
  - exists s', heard. repeat split; assumption.
Defined.

(** ** The snapshot that is broadcast *)

Lemma foldl_insert_lookup {V} (f : string → V) (l : list string)
    (acc : gmap string V) (k : string) :
  foldl (λ acc n, <[n := f n]> acc) acc l !! k
  = if decide (k ∈ l) then Some (f k) else acc !! k.
Proof.
  revert acc. induction l as [|n l IH]; intros acc; simpl.
  - destruct (decide (k ∈ [])) as [H|_]; [by apply elem_of_nil in H | done].
  - rewrite IH. destruct (decide (k = n)) as [->|Hne].
    + destruct (decide (n ∈ n :: l)) as [_|Hn]; [|exfalso; apply Hn; left].
      rewrite lookup_insert_eq. by destruct (decide (n ∈ l)).
    + rewrite lookup_insert_ne by done.
      destruct (decide (k ∈ l)) as [Hin|Hin].
      * destruct (decide (k ∈ n :: l)) as [_|Hn];
          [done | exfalso; apply Hn; by right].
      * destruct (decide (k ∈ n :: l)) as [Hc|_]; [|done].
        apply elem_of_cons in Hc as [?|?]; done.
Qed.

Lemma get_probe_data_run (s : EtxData) :
  ∃ data,
    get_probe_data s = (Ok data, s) ∧
    ∀ n, data !! n =
         if decide (n ∈ keys (_received_probes s))
         then Some (heard_of s n, reported_of s n) else None.
Proof.
  unfold get_probe_data. rewrite bind_run. simpl.
  rewrite (fold_each_read _ _
             (λ acc n, <[n := (heard_of s n, reported_of s n)]> acc)).
  - eexists. split; [reflexivity|]. intros n.
    rewrite (foldl_insert_lookup (λ n, (heard_of s n, reported_of s n))).
    by rewrite lookup_empty.
  - intros acc n.
    rewrite (bind_ok _ _ _ _ (get_num_probes_recv_from_neighbor_run s n)).
    rewrite (bind_ok _ _ _ _ (get_num_probes_recv_from_me_run s n)).
    reflexivity.
Qed.

(** X5. [get_probe_data] returns on every store a dict with exactly the
    neighbors that have a list of timestamps; the pair of a neighbor is
    the length of its list and the number that
    [_get_num_probes_recv_from_me] returns for it. *)
Theorem get_probe_data_snapshot (s : EtxData) :
  ∃ data,
    get_probe_data s = (Ok data, s) ∧
    (∀ n, _received_probes s !! n = None → data !! n = None) ∧
    (∀ n l, _received_probes s !! n = Some l →
       ∃ sent, _get_num_probes_recv_from_me n s = (Ok sent, s) ∧
               data !! n = Some (Z.of_nat (length l), sent)).
Proof.
  destruct (get_probe_data_run s) as (data & Hrun & Hdata).
  exists data. split; [exact Hrun|]. split.
  - intros n Hn. rewrite Hdata.
    destruct (decide _) as [Hin|]; [|done].
    apply elem_of_keys in Hin as [? ?]. congruence.
  - intros n l Hl. exists (reported_of s n).
    split; [apply get_num_probes_recv_from_me_run|].
    rewrite Hdata. destruct (decide _) as [_|Hin].
    + unfold heard_of. by rewrite Hl.
    + exfalso. apply Hin, elem_of_keys. by eexists.
Qed.

(** ** Neighbors without probes, and the range of the metric *)

Lemma prob_le_1 (cfg : Config) (s : EtxData) (n : string) :
  valid cfg → (prob_of cfg s n <= 1)%Q.
Proof.
  intros Hcfg. unfold prob_of.
  pose proof (forward_le_1 cfg s n). pose proof (reverse_range cfg Hcfg s n).
  nra.
Qed.

Lemma prob_unheard (cfg : Config) (s : EtxData) (n : string) :
  _received_probes s !! n = None → (prob_of cfg s n == 0)%Q.
Proof.
  intros Hn. unfold prob_of.
  assert (Hr : (reverse_of cfg s n == 0)%Q).
  { unfold reverse_of, heard_of. rewrite Hn.
    rewrite clamp_below; unfold Qdiv; rewrite Qmult_0_l; lra. }
  rewrite Hr. apply Qmult_0_r.
Qed.


Lemma store_six_of_ten_convertible : convertible store_six_of_ten.
Proof.
  intros n table entry _ Ht He. unfold store_six_of_ten in Ht, He.
  simpl in Ht, He. destruct (decide (n = "10.0.0.2")) as [->|Hne].
  - rewrite lookup_singleton_eq in Ht. injection Ht as <-.
    rewrite lookup_singleton_eq in He. injection He as <-.
    vm_compute. reflexivity.
  - rewrite lookup_singleton_ne in Ht by done. discriminate.
Qed.




(** ** The two-hop probability *)

Lemma clamp_range (c e : Z) :
  0 < e →
  (clamp (inject_Z c / inject_Z e) <= 1)%Q ∧
  (0 ≤ c → (0 <= clamp (inject_Z c / inject_Z e))%Q).
Proof.
  intros He. split; [apply clamp_le_1|].
  intros Hc. by apply clamp_nonneg, ratio_nonneg.
Qed.



(** ** Sending and receiving probes *)

Lemma remove_old_probes_again (cfg : Config) (clock : Q)
    (timestamp : option Q) (s s1 : EtxData) :
  remove_old_probes cfg clock timestamp s = (Ok tt, s1) →
  remove_old_probes cfg clock timestamp s1 = (Ok tt, s1).
Proof.
  intros H1.
  destruct (remove_old_probes_run cfg clock timestamp s)
    as (s1' & Hrun & Hip & Hmac & Hr & Hn).
  rewrite Hrun in H1. injection H1 as ->.
  destruct (remove_old_probes_run cfg clock timestamp s1)
    as (s2 & Hrun2 & Hip2 & Hmac2 & Hr2 & Hn2).
  rewrite Hrun2. f_equal.
  pose proof (trimmed_surviving_fixed cfg _ s s1 Hr Hn) as Hfix.
  destruct s1 as [ip1 mac1 np1 rp1], s2 as [ip2 mac2 np2 rp2]. simpl in *.
  f_equal; [done | done | |]; apply map_eq; intros x.
  - rewrite Hn2. apply Hfix.
  - rewrite Hr2. apply Hfix.
Qed.

Lemma send_probe_run (cfg : Config) (mac : string) (clock : Q)
    (s s' : EtxData) (data : gmap string (Z * Z)) :
  remove_old_probes cfg clock None s = (Ok tt, s') →
  get_probe_data s' = (Ok data, s') →
  send_probe cfg mac clock s = (Ok (mac, data), s').
Proof.
  intros H1 H2. unfold send_probe.
  rewrite bind_run, H1. rewrite (bind_ok _ _ _ _ H2). reflexivity.
Qed.


(** X11. The count travels: when a node broadcasts with [send_probe]
    and another node, whose protocol and store carry the same own
    address, receives that payload, then what the receiver's
    [_get_num_probes_recv_from_me] returns for the sender is the number
    of timestamps the sender holds for the receiver after its eviction
    (zero when it holds none). *)
Theorem probe_count_round_trip (cfg : Config)
    (pickle_loads : string → Result (string * Table))
    (self : EtxProbeProtocol) (mac : string) (sent_at clock clock' : Q)
    (datagram : string) (addr : string * Z)
    (sender sender' receiver : EtxData) (data : gmap string (Z * Z)) :
  send_probe cfg mac sent_at sender = (Ok (mac, data), sender') →
  pickle_loads datagram = Ok (mac, data) →
  addr.1 ≠ own_ip self →
  own_ip self = ip_address receiver →
  ∃ receiver' count,
    datagramReceived cfg pickle_loads self false clock clock' datagram addr
      receiver = (Ok tt, receiver') ∧
    _get_num_probes_recv_from_neighbor (ip_address receiver) sender'
      = (Ok count, sender') ∧
    _get_num_probes_recv_from_me addr.1 receiver' = (Ok count, receiver').
Proof.
  intros Hsend Hload Hne Hown.
  destruct (remove_old_probes_run cfg sent_at None sender)
    as (s1 & Hev & _).
  destruct (get_probe_data_run s1) as (data1 & Hdata & Hlookup).
  rewrite (send_probe_run cfg mac sent_at sender s1 data1 Hev Hdata)
    in Hsend.
  injection Hsend as -> ->.
  rewrite (datagramReceived_records cfg pickle_loads self clock clock'
             datagram addr mac data receiver Hne Hload).
  destruct (record_probe_run addr.1 mac data clock receiver)
    as (r' & Hrun & Hip & _ & Hn & _).
  exists r', (heard_of sender' (ip_address receiver)).
  split; [exact Hrun|].
  split; [apply get_num_probes_recv_from_neighbor_run|].
  rewrite get_num_probes_recv_from_me_run. f_equal. f_equal.
  unfold reported_of. rewrite Hn, lookup_insert_eq, Hip, Hlookup.
  destruct (decide _) as [|Hin]; [done|].
  unfold heard_of. rewrite elem_of_keys in Hin.
  destruct (_received_probes sender' !! ip_address receiver); [|done].
  exfalso. apply Hin. by eexists.
Qed.

Lemma probe_count_round_trip_witness :
  ∃ receiver' count,
    datagramReceived cfg_10_1
      (λ _, Ok ("00:16:3e:00:00:01", {[ "10.0.0.2" := (6, 10) ]}))
      (mkEtxProbeProtocol "wlan0" "10.0.0.2") false 7%Q 7%Q "probe"
      ("10.0.0.1", 9158) (EtxData_init "10.0.0.2") = (Ok tt, receiver') ∧
    _get_num_probes_recv_from_neighbor "10.0.0.2" store_six_of_ten
      = (Ok count, store_six_of_ten) ∧
    _get_num_probes_recv_from_me "10.0.0.1" receiver' = (Ok count, receiver').
Proof.
  apply (probe_count_round_trip cfg_10_1
           (λ _, Ok ("00:16:3e:00:00:01", {[ "10.0.0.2" := (6, 10) ]}))
           (mkEtxProbeProtocol "wlan0" "10.0.0.2") "00:16:3e:00:00:01"
           (6#1)%Q 7%Q 7%Q "probe" ("10.0.0.1", 9158)
           store_six_of_ten store_six_of_ten (EtxData_init "10.0.0.2")
           {[ "10.0.0.2" := (6, 10) ]}).
  - vm_compute. reflexivity.
  - reflexivity.
  - simpl. discriminate.
  - reflexivity.
Defined.

Lemma record_probe_then {A} (n mac : string) (table : Table) (t : Q)
    (k : Py EtxData A) (s : EtxData) :
  (set_mac n mac ≫= λ _, set_neighbor_info n table ≫= λ _,
   add_timestamp t n None ≫= λ _, k) s
  = match record_probe n mac table t s with
    | (Ok _, s1) => k s1
    | (Raise e, s1) => (Raise e, s1)
    end.
Proof.
  unfold record_probe, set_mac, set_neighbor_info, modify.
  unfold mbind, Py_bind. simpl.
  destruct (add_timestamp t n None _) as [[[]|e] s1]; reflexivity.
Qed.



(** ** The options *)

Lemma set_option_flags (st : Settings) (item : string * string)
    (seen : list (string * string)) :
  PROBE_PORT st = IPC_PORT st + 1 ∧ 0 < IPC_PORT st ∧
  debug_count st = count_D seen ∧
  DEBUG st = bool_decide (1 ≤ count_D seen) ∧
  protocol_DEBUG st = bool_decide (2 ≤ count_D seen) →
  let st' := set_option st item in
  PROBE_PORT st' = IPC_PORT st' + 1 ∧ 0 < IPC_PORT st' ∧
  debug_count st' = count_D (seen ++ [item]) ∧
  DEBUG st' = bool_decide (1 ≤ count_D (seen ++ [item])) ∧
  protocol_DEBUG st' = bool_decide (2 ≤ count_D (seen ++ [item])).
Proof.
  intros (Hp & Hpos & Hc & Hd & Hpd). destruct item as [opt val].
  assert (HD : count_D (seen ++ [(opt, val)])
               = count_D seen + (if decide (opt = "-D") then 1 else 0)).
  { unfold count_D. rewrite filter_app, length_app. simpl.
    rewrite filter_cons, filter_nil. simpl.
    destruct (decide (opt = "-D")); simpl; lia. }
  assert (Hnn : 0 ≤ count_D seen) by (unfold count_D; lia).
  simpl. rewrite HD. unfold set_option.
  destruct (String.eqb_spec opt "-p") as [->|_].
  { destruct (isdigit val && (0 <? int_of_str val)) eqn:E; simpl.
    - apply andb_true_iff in E as [_ E]. apply Z.ltb_lt in E.
      rewrite Z.add_0_r. done.
    - rewrite Z.add_0_r. done. }
  destruct (String.eqb_spec opt "-i") as [->|_].
  { destruct (isdigit val && (0 <? int_of_str val)); simpl;
      rewrite Z.add_0_r; done. }
  destruct (String.eqb_spec opt "-w") as [->|_].
  { destruct (isdigit val && (0 <? int_of_str val)); simpl;
      rewrite Z.add_0_r; done. }
  destruct (String.eqb_spec opt "-D") as [->|HnD].
  { simpl. rewrite Hc. repeat split; try done.
    - symmetry. apply bool_decide_eq_true. lia.
    - rewrite Hpd. destruct (Z.ltb_spec 1 (count_D seen + 1)).
      + symmetry. apply bool_decide_eq_true. lia.
      + rewrite !bool_decide_eq_false_2; [done | lia | lia]. }
  destruct (decide (opt = "-D")) as [|_]; [done|]. rewrite Z.add_0_r.
  destruct (String.eqb_spec opt "-f"); simpl; done.
Qed.

Lemma options_flags (opt_list seen : list (string * string)) (st : Settings) :
  PROBE_PORT st = IPC_PORT st + 1 ∧ 0 < IPC_PORT st ∧
  debug_count st = count_D seen ∧
  DEBUG st = bool_decide (1 ≤ count_D seen) ∧
  protocol_DEBUG st = bool_decide (2 ≤ count_D seen) →
  let st' := foldl set_option st opt_list in
  PROBE_PORT st' = IPC_PORT st' + 1 ∧ 0 < IPC_PORT st' ∧
  debug_count st' = count_D (seen ++ opt_list) ∧
  DEBUG st' = bool_decide (1 ≤ count_D (seen ++ opt_list)) ∧
  protocol_DEBUG st' = bool_decide (2 ≤ count_D (seen ++ opt_list)).
Proof.
  revert seen st. induction opt_list as [|item l IH]; intros seen st H; simpl.
  - by rewrite app_nil_r.
  - replace (seen ++ item :: l) with ((seen ++ [item]) ++ l)
      by (by rewrite <- app_assoc).
    apply IH. by apply set_option_flags.
Qed.

(** X12. Whatever the options, a daemon that starts listens for probes
    on the port after the query port, and the query port is positive;
    the debug output is on exactly when [-D] was given, and the debug
    output of the probe protocol exactly when it was given twice or
    more. *)
Theorem startup_ports_and_flags (opt_list : list (string * string))
    (st : Settings) :
  startup opt_list = Some st →
  PROBE_PORT st = IPC_PORT st + 1 ∧ 0 < IPC_PORT st ∧
  (DEBUG st = true ↔ 1 ≤ count_D opt_list) ∧
  (protocol_DEBUG st = true ↔ 2 ≤ count_D opt_list).
Proof.
  unfold startup. intros H.
  destruct (_ <? _); [discriminate|]. injection H as <-.
  destruct (options_flags opt_list [] default_settings)
    as (Hp & Hpos & _ & Hd & Hpd).
  { simpl. unfold count_D. simpl. repeat split; lia. }
  simpl in Hd, Hpd. rewrite Hd, Hpd, !bool_decide_eq_true. done.
Qed.

Lemma startup_ports_and_flags_witness :
  startup [("-D", ""); ("-p", "7000"); ("-D", "")] = Some
    (mkSettings 7000 7001 (mkConfig 10 1) true true false 2) ∧
  (true = true ↔ 2 ≤ count_D [("-D", ""); ("-p", "7000"); ("-D", "")]).
Proof.
  split; [reflexivity|].
  exact (proj2 (proj2 (proj2 (startup_ports_and_flags
    [("-D", ""); ("-p", "7000"); ("-D", "")]
    (mkSettings 7000 7001 (mkConfig 10 1) true true false 2) eq_refl)))).
Defined.

(** ** When the query server closes the connection *)

Lemma then_next {S A} (m : Py S A) (s s' : S) (f : flow) :
  (m ≫= λ _, mret Next) s = (Ok f, s') → f = Next.
Proof.
  rewrite bind_run. destruct (m s) as [[a|e] s1]; [|discriminate].
  by intros [= <- _].
Qed.

Section Closing.
Variable cfg : Config.
Variable now : string → Q.
Variable str_float : Q → string.
Variable str_int : Z → string.
Variable float_of_str : string → option Q.
Variable getChannel : string → Result Z.

(** The only way out of [dispatch] other than falling through is the
    [return] of [NEIGHBORS] for a known interface without data, and
    nothing was changed by then. *)
Lemma dispatch_return (request : list string) (p p' : EtxIpcProtocol) :
  dispatch cfg now str_float str_int float_of_str getChannel request p
    = (Ok Return, p') →
  ∃ if_name interface,
    default "" (request !! 0%nat) = "NEIGHBORS" ∧
    request !! 1%nat = Some if_name ∧
    interfaces p !! if_name = Some interface ∧
    data interface = None ∧ p' = p.
Proof.
  unfold dispatch.
  destruct (String.eqb_spec (default "" (request !! 0%nat)) "NEIGHBORS")
    as [Hcmd|_].
  - unfold cmd_NEIGHBORS. destruct (request !! 1%nat) as [if_name|] eqn:Harg.
    + rewrite bind_run. simpl.
      destruct (decide (if_name ∈ keys (interfaces p))) as [Hin|_];
        [|discriminate].
      rewrite bind_run. unfold getitem.
      destruct (interfaces p !! if_name) as [interface|] eqn:Hif;
        [|discriminate].
      simpl. destruct (data interface) eqn:Hdata.
      * intros H. apply then_next in H. discriminate.
      * intros [= <-]. by exists if_name, interface.
    + intros H. apply then_next in H. discriminate.
  - repeat match goal with
    | |- context [String.eqb ?a ?b] => destruct (String.eqb a b)
    end.
    + unfold cmd_MAC. intros H. apply then_next in H. discriminate.
    + unfold cmd_CHAFT. rewrite bind_run.
      destruct (match request !! 1%nat with _ => _ end p) as [[x|e] p1];
        [|discriminate].
      intros H. apply then_next in H. discriminate.
    + unfold cmd_QUALITY. destruct (request !! 1%nat);
        intros H; apply then_next in H; discriminate.
    + unfold cmd_ETX. destruct (request !! 1%nat);
        intros H; apply then_next in H; discriminate.
    + intros H. apply then_next in H. discriminate.
Qed.

(** X13. When [lineReceived] returns, the connection is closed, with
    one exception: [NEIGHBORS] with the name of a known interface that
    has no data returns with the connection exactly as it was. *)
Theorem lineReceived_closes_or_returns (request : string)
    (p p' : EtxIpcProtocol) :
  lineReceived cfg now str_float str_int float_of_str getChannel request p
    = (Ok tt, p') →
  connected p' = false ∨
  ∃ if_name interface,
    default "" (parse_request request !! 0%nat) = "NEIGHBORS" ∧
    parse_request request !! 1%nat = Some if_name ∧
    interfaces p !! if_name = Some interface ∧
    data interface = None ∧ p' = p.
Proof.
  unfold lineReceived. rewrite bind_run.
  destruct (dispatch _ _ _ _ _ _ _ p) as [[[]|e] p1] eqn:Hd; [| |discriminate].
  - intros [= <-]. left. reflexivity.
  - intros [= <-]. right. by apply dispatch_return.
Qed.

End Closing.

Lemma lineReceived_closes_or_returns_witness :
  connected (refused ipc_wlan0_down) = false ∨
  ∃ if_name interface,
    default "" (parse_request "HELLO" !! 0%nat) = "NEIGHBORS" ∧
    parse_request "HELLO" !! 1%nat = Some if_name ∧
    interfaces ipc_wlan0_down !! if_name = Some interface ∧
    data interface = None ∧ refused ipc_wlan0_down = ipc_wlan0_down.
Proof.
  apply (lineReceived_closes_or_returns cfg_10_1 (λ _, 0%Q) (λ _, "")
           (λ _, "") (λ _, None) (λ _, Ok 0) "HELLO" ipc_wlan0_down).
  vm_compute. reflexivity.
Defined.

(** ** What a query leaves of the daemon's state *)

Lemma shrunk_refl (s : EtxData) : shrunk s s.
Proof.
  repeat split; [|done]. intros n l' H. by exists [].
Qed.

Lemma shrunk_trans (s1 s2 s3 : EtxData) :
  shrunk s1 s2 → shrunk s2 s3 → shrunk s1 s3.
Proof.
  intros (Hip1 & Hmac1 & Hr1 & Hn1) (Hip2 & Hmac2 & Hr2 & Hn2).
  split; [congruence|]. split; [congruence|]. split.
  - intros n l3 H3. destruct (Hr2 n l3 H3) as (old2 & H2).
    destruct (Hr1 n _ H2) as (old1 & H1).
    exists (old1 ++ old2). by rewrite <- app_assoc.
  - intros n table H. by apply Hn1, Hn2.
Qed.

Lemma readonly_shrinking {A} (m : Py EtxData A) : readonly m → shrinking m.
Proof. intros H d. rewrite H. apply shrunk_refl. Qed.

Lemma remove_old_probes_shrinking (cfg : Config) (clock : Q)
    (timestamp : option Q) :
  shrinking (remove_old_probes cfg clock timestamp).
Proof.
  intros s.
  destruct (remove_old_probes_run cfg clock timestamp s)
    as (s' & Hrun & Hip & Hmac & Hr & Hn).
  rewrite Hrun. simpl. split; [exact Hip|]. split; [exact Hmac|]. split.
  - intros n l' H. rewrite Hr in H. unfold trimmed in H.
    destruct (_received_probes s !! n) as [l|] eqn:E; [|done].
    destruct (gone cfg _ s n l); [done|]. injection H as <-.
    destruct (drop_old_split cfg (default clock timestamp) l)
      as (old & Heq & _).
    exists old. by rewrite <- Heq.
  - intros n table H. rewrite Hn in H. unfold surviving in H.
    destruct (_received_probes s !! n) as [l|]; [|done].
    by destruct (gone cfg _ s n l).
Qed.

Lemma same_interface_refl (i : Interface) : same_interface i i.
Proof.
  split; [done|]. destruct (data i); [apply shrunk_refl | done].
Qed.

Lemma same_interface_trans (i1 i2 i3 : Interface) :
  same_interface i1 i2 → same_interface i2 i3 → same_interface i1 i3.
Proof.
  intros [Hn1 Hd1] [Hn2 Hd2]. split; [congruence|].
  destruct (data i1), (data i2), (data i3); try done.
  by eapply shrunk_trans.
Qed.

Lemma served_refl (p : EtxIpcProtocol) : served p p.
Proof.
  split; [|done]. intros k.
  destruct (interfaces p !! k); [apply same_interface_refl | done].
Qed.

Lemma served_trans (p1 p2 p3 : EtxIpcProtocol) :
  served p1 p2 → served p2 p3 → served p1 p3.
Proof.
  intros (Hi1 & Hs1 & Hc1) (Hi2 & Hs2 & Hc2). split; [|split].
  - intros k. specialize (Hi1 k). specialize (Hi2 k).
    destruct (interfaces p1 !! k), (interfaces p2 !! k),
      (interfaces p3 !! k); try done.
    by eapply same_interface_trans.
  - by etrans.
  - auto.
Qed.

Lemma serving_readonly {A} (m : Py EtxIpcProtocol A) :
  readonly m → serving m.
Proof. intros H p. rewrite H. apply served_refl. Qed.

Lemma serving_bind {A B} (m : Py EtxIpcProtocol A)
    (f : A → Py EtxIpcProtocol B) :
  serving m → (∀ a, serving (f a)) → serving (m ≫= f).
Proof.
  intros Hm Hf p. rewrite bind_run. specialize (Hm p).
  destruct (m p) as [[a|e] p1]; simpl in *; [|exact Hm].
  eapply served_trans; [exact Hm | apply Hf].
Qed.

Lemma serving_for_each {A} (l : list A) (body : A → Py EtxIpcProtocol unit) :
  (∀ x, serving (body x)) → serving (for_each l body).
Proof.
  intros Hbody. induction l as [|x l IH]; simpl.
  - apply serving_readonly, readonly_ret.
  - apply serving_bind; [apply Hbody | intros _; exact IH].
Qed.

Lemma serving_sendLine (line : string) : serving (sendLine line).
Proof.
  intros p. unfold sendLine, modify, served. simpl. split; [|split; [|done]].
  - intros k. destruct (interfaces p !! k);
      [apply same_interface_refl | done].
  - by apply prefix_app_r.
Qed.

Lemma serving_loseConnection : serving loseConnection.
Proof.
  intros p. unfold loseConnection, modify, served. simpl. split; [|done].
  intros k. destruct (interfaces p !! k); [apply same_interface_refl | done].
Qed.

Lemma serving_on_data {A} (key : string) (m : Py EtxData A) :
  shrinking m → serving (on_data key m).
Proof.
  intros Hm p. unfold on_data.
  destruct (interfaces p !! key) as [[nm [d|]]|] eqn:E;
    [|apply served_refl..].
  specialize (Hm d). destruct (m d) as [r d']. unfold served. simpl in *.
  split; [|done]. intros k. destruct (decide (k = key)) as [->|Hne].
  - rewrite E, lookup_insert_eq. split; [done|]. exact Hm.
  - rewrite lookup_insert_ne by done.
    destruct (interfaces p !! k); [apply same_interface_refl | done].
Qed.

Lemma serving_pass : serving pass.
Proof. apply serving_readonly, readonly_ret. Qed.

Create HintDb serving.
#[local] Hint Resolve serving_sendLine serving_loseConnection serving_pass
  readonly_ret readonly_raise readonly_gets readonly_getitem : serving.

(** Splits a handler into its parts and closes the parts that send a
    line, close the connection, evict, or only read. *)
Ltac serving_step cfg :=
  first
    [ apply serving_bind; [| intros ?]
    | apply serving_for_each; intros ?
    | solve [auto with serving]
    | solve [apply serving_readonly; auto with serving]
    | solve [apply serving_on_data, remove_old_probes_shrinking]
    | solve [apply serving_on_data, readonly_shrinking;
             first [ apply readonly_get_neighbors
                   | apply readonly_get_mac
                   | apply readonly_get_etx
                   | apply readonly_get_transmission_probability ]]
    | match goal with |- serving (match ?x with _ => _ end) => destruct x end
    | match goal with |- serving (if ?x then _ else _) => destruct x end ].

Section Serving.
Variable cfg : Config.
Variable now : string → Q.
Variable str_float : Q → string.
Variable str_int : Z → string.
Variable float_of_str : string → option Q.
Variable getChannel : string → Result Z.

Lemma serving_each_interface_with_data
    (body : string → Interface → Py EtxIpcProtocol unit) :
  (∀ key interface, serving (body key interface)) →
  serving (each_interface_with_data body).
Proof.
  intros Hbody. unfold each_interface_with_data.
  repeat serving_step cfg.
Qed.

Lemma serving_to_float (arg : string) : serving (to_float float_of_str arg).
Proof. unfold to_float. repeat serving_step cfg. Qed.

Lemma serving_dispatch (request : list string) :
  serving (dispatch cfg now str_float str_int float_of_str getChannel request).
Proof.
  unfold dispatch, cmd_NEIGHBORS, cmd_MAC, cmd_CHAFT, cmd_QUALITY, cmd_ETX,
    send_neighbors, each_interface_with_data, to_float.
  repeat serving_step cfg.
Qed.

(** X14. Whatever the request, and whether [lineReceived] returns or
    raises, a query leaves the interfaces that were there, with their
    names and with data exactly where data was; it adds no timestamp,
    table or MAC address to a store and only removes timestamps from
    the front of the lists (with tables); the lines sent before are
    still the first lines sent, and a closed connection stays closed. *)
Theorem lineReceived_serves (request : string) (p : EtxIpcProtocol) :
  served p
    (lineReceived cfg now str_float str_int float_of_str getChannel
       request p).2.
Proof.
  revert p. change (serving (lineReceived cfg now str_float str_int
                               float_of_str getChannel request)).
  unfold lineReceived. apply serving_bind; [apply serving_dispatch|].
  intros []; repeat serving_step cfg.
Qed.

End Serving.

(** ** The life cycle of the interfaces *)

Section LifecycleFacts.
Variable cfg : Config.
Variable configured : string → bool.
Variable ifaddresses : string → option (string * string).
Variable listenUDP : string → string → bool.
Variable listenTCP : string → string → bool.

(** Unfolds one turn of the loop on an interface given by its
    attributes and decides the tests of the body one by one. *)
Ltac scan_cases :=
  unfold initialize_interface, stop_interface, delattr, upd_iface, schedule;
  unfold mbind, Py_bind, gets, modify, pass, mret, Py_ret, raise; simpl;
  repeat match goal with
  | |- context [configured ?n] => destruct (configured n) eqn:?; simpl
  | |- context [ifaddresses ?n] =>
      destruct (ifaddresses n) as [[? ?]|] eqn:?; simpl
  | |- context [decide (?a ≠ ?b)] => destruct (decide (a ≠ b)); simpl
  | |- context [listenUDP ?n ?a] => destruct (listenUDP n a) eqn:?; simpl
  | |- context [listenTCP ?n ?a] => destruct (listenTCP n a) eqn:?; simpl
  end.

(** Whatever one turn of the loop does, it keeps the name of the
    interface, it only adds calls of [send_probe] to the reactor, and
    the only exception it raises is [AttributeError]. *)
Lemma initialize_interface_frame (sc : Scan) :
  ∃ r sc',
    initialize_interface configured ifaddresses listenUDP listenTCP sc
      = (r, sc') ∧
    ni_name (iface sc') = ni_name (iface sc) ∧
    (∃ l, reactor sc' = reactor sc ++ l ∧ Forall is_send_probe l) ∧
    (∀ e, r = Raise e → e = AttributeError).
Proof.
  destruct sc as [[nm [d|] [pr|] [po|] [ipc|]] q];
    scan_cases; eexists _, _; (split; [reflexivity|]); simpl;
    (split; [reflexivity|]);
    (split; [first [ by exists []; rewrite app_nil_r
                   | eexists [_]; split; [reflexivity | by repeat constructor] ]
            | by intros e [= <-] ]).
Qed.

(** The transitions of one turn of the loop that returns, on an
    interface that is [consistent]. *)
Lemma initialize_interface_ok (i i' : NetInterface) (q q' : list call) :
  consistent i →
  initialize_interface configured ifaddresses listenUDP listenTCP
    (mkScan i q) = (Ok tt, mkScan i' q') →
  ni_name i' = ni_name i ∧ consistent i' ∧
  (configured (ni_name i) = false → stopped i' ∧ q' = q) ∧
  (configured (ni_name i) = true → ifaddresses (ni_name i) = None →
   i' = i ∧ q' = q) ∧
  (∀ inet_addr bcast_addr,
     configured (ni_name i) = true →
     ifaddresses (ni_name i) = Some (inet_addr, bcast_addr) →
     (ni_port i = Some bcast_addr → i' = i ∧ q' = q) ∧
     (ni_port i ≠ Some bcast_addr →
      if listenUDP (ni_name i) bcast_addr
      then started inet_addr bcast_addr (listenTCP (ni_name i) inet_addr) i'
           ∧ q' = q ++ [SendProbe (ni_name i)]
      else stopped i' ∧ q' = q)).
Proof.
  destruct i as [nm [d|] [pr|] [po|] [ipc|]]; unfold consistent; simpl;
    intros Hc; try (destruct Hc as (? & ? & ?); discriminate);
    try (destruct Hc as [[? ?] [? ?]]; discriminate);
    scan_cases; intros [= <- <-]; simpl;
    (split; [reflexivity|]); (split; [by eauto|]);
    (split; [intros; by try discriminate|]);
    (split; [intros; by try discriminate|]);
    intros inet bcast Hconf Haddr; try discriminate;
    try injection Haddr as <- <-;
    (split; [intros Hp; try injection Hp as ->; by try done
            | intros Hp;
              repeat match goal with
              | H : listenUDP _ _ = _ |- _ => rewrite H
              | H : listenTCP _ _ = _ |- _ => rewrite H
              end; try done; try (exfalso; apply Hp; congruence);
              try (exfalso;
                   match goal with
                   | H : ¬ _ ≠ _ |- _ => apply H; intros ->; by apply Hp
                   end) ]).
Qed.

End LifecycleFacts.

(** The loop over the interfaces: a turn touches only its own
    interface, so after the loop every interface is what its own turn
    made of it; when the loop raises, some turn raised. *)
Lemma scan_loop (body : Py Scan unit) (ks : list string) :
  NoDup ks →
  ∀ d, (∀ k, k ∈ ks → is_Some (net d !! k)) →
  ∃ r d',
    for_each ks (λ key, with_interface key body) d = (r, d') ∧
    (∀ k, k ∉ ks → net d' !! k = net d !! k) ∧
    (∀ k, is_Some (net d' !! k) ↔ is_Some (net d !! k)) ∧
    match r with
    | Ok _ =>
        ∀ k i, k ∈ ks → net d !! k = Some i →
          ∃ q i' q', body (mkScan i q) = (Ok tt, mkScan i' q')
                     ∧ net d' !! k = Some i'
    | Raise e =>
        ∃ k i q sc, k ∈ ks ∧ net d !! k = Some i
                    ∧ body (mkScan i q) = (Raise e, sc)
    end.
Proof.
  induction 1 as [|k ks Hk Hnd IH]; intros d Hin.
  - exists (Ok tt), d. split; [reflexivity|]. split; [done|]. split; [done|].
    intros k i H. by apply elem_of_nil in H.
  - destruct (Hin k) as [i Hi]; [left|].
    simpl. rewrite bind_run. unfold with_interface at 1. rewrite Hi.
    destruct (body (mkScan i (calls d))) as [[[]|e] [i1 q1]] eqn:Hbody.
    + set (d1 := mkDaemon (<[k := i1]> (net d)) q1).
      assert (Hother : ∀ x, x ≠ k → net d1 !! x = net d !! x).
      { intros x Hx. simpl. by rewrite lookup_insert_ne. }
      destruct (IH d1) as (r & d' & Hrun & Hout & Hdom & Hres).
      { intros x Hx. rewrite Hother; [apply Hin; by right|].
        intros ->. done. }
      exists r, d'. split; [exact Hrun|]. split; [|split].
      * intros x Hx. rewrite Hout; [apply Hother|];
          intros ?; apply Hx; subst; [left | by right].
      * intros x. rewrite Hdom. destruct (decide (x = k)) as [->|Hx].
        -- simpl. rewrite lookup_insert_eq, Hi. split; by eexists.
        -- by rewrite Hother.
      * destruct r as [[]|e].
        -- intros x ix Hx Hix. apply elem_of_cons in Hx as [->|Hx].
           ++ rewrite Hi in Hix. injection Hix as <-.
              exists (calls d), i1, q1. split; [exact Hbody|].
              rewrite Hout by done. simpl. apply lookup_insert_eq.
           ++ apply (Hres x ix Hx). rewrite Hother; [done|].
              intros ->. done.
        -- destruct Hres as (x & ix & q & sc & Hx & Hix & Hraise).
           exists x, ix, q, sc. split; [by right|]. split; [|exact Hraise].
           rewrite <- Hother; [done|]. intros ->. done.
    + simpl. eexists _, _. split; [reflexivity|]. simpl.
      split; [|split].
      * intros x Hx. rewrite lookup_insert_ne; [done|].
        intros <-. apply Hx. left.
      * intros x. destruct (decide (x = k)) as [->|Hx].
        -- rewrite lookup_insert_eq, Hi. split; by eexists.
        -- by rewrite lookup_insert_ne.
      * exists k, i, (calls d), (mkScan i1 q1). split; [left|]. done.
Qed.

(** The loop only adds calls of [send_probe] to the reactor when no
    turn does anything else to it. *)
Lemma scan_loop_calls (body : Py Scan unit) (ks : list string) :
  (∀ sc, ∃ l, reactor (body sc).2 = reactor sc ++ l ∧ Forall is_send_probe l) →
  ∀ d, ∃ l,
    calls (for_each ks (λ key, with_interface key body) d).2 = calls d ++ l
    ∧ Forall is_send_probe l.
Proof.
  intros Hbody. induction ks as [|k ks IH]; intros d; simpl.
  - exists []. by rewrite app_nil_r.
  - rewrite bind_run.
    assert (H1 : ∃ l, calls (with_interface k body d).2 = calls d ++ l
                      ∧ Forall is_send_probe l).
    { unfold with_interface. destruct (net d !! k) as [i|].
      - destruct (Hbody (mkScan i (calls d))) as (l & Hl & Hf).
        destruct (body (mkScan i (calls d))) as [r sc]. simpl in *.
        by exists l.
      - exists []. by rewrite app_nil_r. }
    destruct H1 as (l1 & Hl1 & Hf1).
    destruct (with_interface k body d) as [[[]|e] d1]; simpl in *.
    + destruct (IH d1) as (l2 & Hl2 & Hf2).
      exists (l1 ++ l2). rewrite Hl2, Hl1, app_assoc. split; [done|].
      by apply Forall_app.
    + by exists l1.
Qed.

Section Scans.
Variable cfg : Config.
Variable configured : string → bool.
Variable ifaddresses : string → option (string * string).
Variable listenUDP : string → string → bool.
Variable listenTCP : string → string → bool.

Lemma initialize_interface_calls (sc : Scan) :
  ∃ l, reactor (initialize_interface configured ifaddresses listenUDP
                  listenTCP sc).2 = reactor sc ++ l
       ∧ Forall is_send_probe l.
Proof.
  destruct (initialize_interface_frame configured ifaddresses listenUDP
              listenTCP sc) as (r & sc' & Hrun & _ & Hl & _).
  rewrite Hrun. exact Hl.
Qed.

(** X15. A scan of [initialize_interfaces] that returns, on interfaces
    that are each stopped or listening with store and protocol, leaves
    the same interfaces with the same names, again stopped or listening.
    An interface that is not configured is stopped; one whose addresses
    cannot be read, or that listens at its current broadcast address, is
    untouched and keeps its store; any other one is started with an
    empty store for its current address (whatever store it had) when the
    probe port can be opened, and stopped when it cannot. The reactor
    keeps every call it had, gets a [send_probe] call only from started
    interfaces, and last the next scan after [WINDOW]. *)
Theorem initialize_interfaces_transitions (d d' : Daemon) :
  (∀ k i, net d !! k = Some i → consistent i) →
  initialize_interfaces cfg configured ifaddresses listenUDP listenTCP d
    = (Ok tt, d') →
  (∀ k, is_Some (net d' !! k) ↔ is_Some (net d !! k)) ∧
  (∃ l, calls d' = calls d ++ l ++ [InitializeInterfaces (WINDOW cfg)]
        ∧ Forall is_send_probe l) ∧
  ∀ k i, net d !! k = Some i →
    ∃ i', net d' !! k = Some i' ∧
      ni_name i' = ni_name i ∧ consistent i' ∧
      (configured (ni_name i) = false → stopped i') ∧
      (configured (ni_name i) = true → ifaddresses (ni_name i) = None →
       i' = i) ∧
      (∀ inet_addr bcast_addr,
         configured (ni_name i) = true →
         ifaddresses (ni_name i) = Some (inet_addr, bcast_addr) →
         (ni_port i = Some bcast_addr → i' = i) ∧
         (ni_port i ≠ Some bcast_addr →
          if listenUDP (ni_name i) bcast_addr
          then started inet_addr bcast_addr
                 (listenTCP (ni_name i) inet_addr) i'
          else stopped i')).
Proof.
  intros Hcons. unfold initialize_interfaces.
  rewrite bind_run. simpl. rewrite bind_run.
  set (body := initialize_interface configured ifaddresses listenUDP
                 listenTCP).
  destruct (scan_loop body (keys (net d)) (NoDup_keys _) d)
    as (r & d1 & Hrun & _ & Hdom & Hres).
  { intros k. by rewrite elem_of_keys. }
  destruct (scan_loop_calls body (keys (net d))
              (initialize_interface_calls) d) as (l & Hl & Hf).
  rewrite Hrun in Hl |- *. simpl in Hl.
  destruct r as [[]|e]; [|discriminate]. intros [= <-]. simpl.
  split; [exact Hdom|]. split.
  { exists l. rewrite Hl, <- app_assoc. done. }
  intros k i Hi.
  destruct (Hres k i) as (q & i' & q' & Hbody & Hi'); [|exact Hi|].
  { apply elem_of_keys. by eexists. }
  destruct (initialize_interface_ok configured ifaddresses listenUDP
              listenTCP i i' q q' (Hcons k i Hi) Hbody)
    as (Hname & Hc' & Hdown & Hnone & Haddr).
  exists i'. split; [exact Hi'|]. split; [exact Hname|].
  split; [exact Hc'|]. split; [intros H; apply (Hdown H)|].
  split; [intros H1 H2; apply (Hnone H1 H2)|].
  intros inet bcast H1 H2. destruct (Haddr inet bcast H1 H2) as [Hsame Hnew].
  split; [intros H; apply (Hsame H)|].
  intros H. specialize (Hnew H).
  destruct (listenUDP (ni_name i) bcast); apply Hnew.
Qed.

(** One turn on an interface that has a port but no query listener and
    has to be stopped. *)
Lemma initialize_interface_no_ipc (i : NetInterface) (q : list call)
    (host : string) :
  ni_port i = Some host → ni_ipc_port i = None →
  (configured (ni_name i) = false ∨
   ∃ inet_addr bcast_addr,
     ifaddresses (ni_name i) = Some (inet_addr, bcast_addr)
     ∧ host ≠ bcast_addr) →
  initialize_interface configured ifaddresses listenUDP listenTCP
    (mkScan i q) = (Raise AttributeError, mkScan (with_port None i) q).
Proof.
  destruct i as [nm d pr po ipc]. simpl. intros -> -> Hcase.
  unfold initialize_interface, stop_interface, delattr, upd_iface.
  unfold mbind, Py_bind, gets, modify, pass, mret, Py_ret, raise. simpl.
  destruct (configured nm); simpl.
  - destruct Hcase as [|(inet & bcast & -> & Hne)]; [done|]. simpl.
    destruct (decide (host ≠ bcast)); [reflexivity | done].
  - reflexivity.
Qed.

(** X17. The query listener may fail to open when an interface is
    started; the interface then listens without it. When such an
    interface is no longer configured, or its broadcast address has
    changed, the scan raises [AttributeError] at
    [interface.ipc_port.stopListening()]: [initialize_interfaces] does
    not return and does not schedule the next scan. *)
Theorem initialize_interfaces_without_ipc_port (d : Daemon) (k : string)
    (i : NetInterface) (host : string) :
  net d !! k = Some i →
  ni_port i = Some host → ni_ipc_port i = None →
  (configured (ni_name i) = false ∨
   ∃ inet_addr bcast_addr,
     ifaddresses (ni_name i) = Some (inet_addr, bcast_addr)
     ∧ host ≠ bcast_addr) →
  ∃ d' l,
    initialize_interfaces cfg configured ifaddresses listenUDP listenTCP d
      = (Raise AttributeError, d') ∧
    calls d' = calls d ++ l ∧ Forall is_send_probe l.
Proof.
  intros Hi Hport Hipc Hcase. unfold initialize_interfaces.
  rewrite bind_run. simpl. rewrite bind_run.
  set (body := initialize_interface configured ifaddresses listenUDP
                 listenTCP).
  destruct (scan_loop body (keys (net d)) (NoDup_keys _) d)
    as (r & d1 & Hrun & _ & _ & Hres).
  { intros x. by rewrite elem_of_keys. }
  destruct (scan_loop_calls body (keys (net d))
              (initialize_interface_calls) d) as (l & Hl & Hf).
  rewrite Hrun in Hl |- *. simpl in Hl.
  destruct r as [[]|e].
  - exfalso. destruct (Hres k i) as (q & i' & q' & Hbody & _); [|exact Hi|].
    { apply elem_of_keys. by eexists. }
    subst body.
    rewrite (initialize_interface_no_ipc i q host Hport Hipc Hcase) in Hbody.
    discriminate.
  - destruct Hres as (x & ix & q & sc & _ & _ & Hraise).
    destruct (initialize_interface_frame configured ifaddresses listenUDP
                listenTCP (mkScan ix q)) as (r' & sc' & Hrun' & _ & _ & He).
    subst body. rewrite Hrun' in Hraise. injection Hraise as -> _.
    rewrite (He e eq_refl). exists d1, l. done.
Qed.

End Scans.

(** An interface comes up while the query port cannot be opened, and
    goes away before the next scan: the first scan starts it without
    query listener, the second one raises, leaves it with store and
    protocol but without port, and schedules nothing. *)
Example initialize_interfaces_example :
  initialize_interfaces cfg_10_1 (λ _, true)
    (λ _, Some ("10.0.0.1", "10.0.0.255")) (λ _ _, true) (λ _ _, false)
    daemon_stopped
  = (Ok tt, daemon_without_ipc) ∧
  initialize_interfaces cfg_10_1 (λ _, false) (λ _, None) (λ _ _, true)
    (λ _ _, true) daemon_without_ipc
  = (Raise AttributeError,
     mkDaemon {[ "wlan0" := with_port None wlan0_without_ipc ]}
       [SendProbe "wlan0"; InitializeInterfaces 10]).
Proof. split; vm_compute; reflexivity. Qed.

Lemma initialize_interfaces_transitions_witness :
  ∃ i',
    net daemon_without_ipc !! "wlan0" = Some i' ∧
    started "10.0.0.1" "10.0.0.255" false i'.
Proof.
  destruct (initialize_interfaces_transitions cfg_10_1 (λ _, true)
              (λ _, Some ("10.0.0.1", "10.0.0.255")) (λ _ _, true)
              (λ _ _, false) daemon_stopped daemon_without_ipc)
    as (_ & _ & H).
  - intros k i Hi. unfold daemon_stopped in Hi. simpl in Hi.
    apply lookup_singleton_Some in Hi as [_ <-]. simpl. done.
  - vm_compute. reflexivity.
  - destruct (H "wlan0" wlan0_stopped eq_refl)
      as (i' & Hi' & _ & _ & _ & _ & Haddr).
    exists i'. split; [exact Hi'|].
    destruct (Haddr "10.0.0.1" "10.0.0.255" eq_refl eq_refl) as [_ Hnew].
    apply Hnew. simpl. discriminate.
Defined.

Lemma initialize_interfaces_without_ipc_port_witness :
  ∃ d' l,
    initialize_interfaces cfg_10_1 (λ _, false) (λ _, None) (λ _ _, true)
      (λ _ _, true) daemon_without_ipc
      = (Raise AttributeError, d') ∧
    calls d' = calls daemon_without_ipc ++ l ∧ Forall is_send_probe l.
Proof.
  apply (initialize_interfaces_without_ipc_port cfg_10_1 (λ _, false)
           (λ _, None) (λ _ _, true) (λ _ _, true) daemon_without_ipc
           "wlan0" wlan0_without_ipc "10.0.0.255").
  - reflexivity.
  - reflexivity.
  - reflexivity.
  - left. reflexivity.
Defined.

(** ** The send timer *)

Lemma jitter_bounds (interval : Z) (r : Q) :
  0 < interval → (0 <= r)%Q → (r < 1)%Q →
  let jitter := uniform 0 ((2 # 10) * inject_Z interval) r in
  (0 <= jitter)%Q ∧ (jitter <= (2 # 10) * inject_Z interval)%Q.
Proof.
  intros Hi Hr0 Hr1. simpl. unfold uniform.
  pose proof (inject_Z_pos interval Hi) as Hpos. nra.
Qed.



(** ** Requests *)

Lemma list_ascii_app (a b : string) :
  String.list_ascii_of_string (a +:+ b)
  = String.list_ascii_of_string a ++ String.list_ascii_of_string b.
Proof. induction a as [|c a IH]; simpl; [done | by rewrite IH]. Qed.

Lemma eqb_empty (w : string) : (w =? "")%string = true ↔ w = "".
Proof. apply String.eqb_eq. Qed.

Lemma split_from_words (word s : string) :
  Forall (λ c, is_space c = false) (String.list_ascii_of_string word) →
  Forall is_word (split_from word s).
Proof.
  revert word. induction s as [|c s IH]; intros word Hword; simpl.
  - destruct (String.eqb_spec word ""); [constructor|].
    constructor; [done | constructor].
  - destruct (is_space c) eqn:Hc.
    + apply Forall_app. split; [|apply IH; constructor].
      destruct (String.eqb_spec word ""); [constructor|].
      constructor; [done | constructor].
    + apply IH. rewrite list_ascii_app. apply Forall_app. split; [done|].
      simpl. constructor; [done | constructor].
Qed.

Lemma upper_ascii_idemp (c : ascii) :
  upper_ascii (upper_ascii c) = upper_ascii c.
Proof.
  unfold upper_ascii.
  destruct ((97 <=? nat_of_ascii c)%nat && (nat_of_ascii c <=? 122)%nat)
    eqn:E.
  - apply andb_true_iff in E as [E1 E2].
    apply Nat.leb_le in E1. apply Nat.leb_le in E2.
    rewrite nat_ascii_embedding by lia.
    replace ((97 <=? nat_of_ascii c - 32)%nat) with false; [done|].
    symmetry. apply Nat.leb_gt. lia.
  - by rewrite E.
Qed.

Lemma upper_idemp (s : string) : upper (upper s) = upper s.
Proof.
  induction s as [|c s IH]; simpl; [done|].
  by rewrite upper_ascii_idemp, IH.
Qed.

Lemma upper_ascii_space (c : ascii) :
  is_space c = false → is_space (upper_ascii c) = false.
Proof.
  unfold upper_ascii.
  destruct ((97 <=? nat_of_ascii c)%nat && (nat_of_ascii c <=? 122)%nat)
    eqn:E; [|done].
  apply andb_true_iff in E as [E1 E2].
  apply Nat.leb_le in E1. apply Nat.leb_le in E2. intros _.
  unfold is_space. rewrite nat_ascii_embedding by lia.
  apply orb_false_iff. split.
  - apply Nat.eqb_neq. lia.
  - apply andb_false_iff. right. apply Nat.leb_gt. lia.
Qed.

Lemma upper_spaces (s : string) :
  Forall (λ c, is_space c = false) (String.list_ascii_of_string s) →
  Forall (λ c, is_space c = false) (String.list_ascii_of_string (upper s)).
Proof.
  induction s as [|c s IH]; simpl; [done|].
  intros H. inversion H; subst.
  constructor; [by apply upper_ascii_space | by apply IH].
Qed.

(** X18. Whatever line arrives, the handler works on a non-empty list of
    words: a command that equals its own upper-case form and contains no
    whitespace (the empty command for a blank line), followed by
    arguments that are not empty and contain no whitespace. *)
Theorem parse_request_words (request : string) :
  ∃ command args,
    parse_request request = command :: args ∧
    upper command = command ∧
    Forall (λ c, is_space c = false) (String.list_ascii_of_string command) ∧
    Forall is_word args ∧
    (command = "" → args = [] ∧ split request = []).
Proof.
  unfold parse_request.
  pose proof (split_from_words "" request (Forall_nil_2 _)) as Hw.
  fold (split request) in Hw.
  destruct (split request) as [|w ws] eqn:E; simpl.
  - exists "", []. repeat split; constructor.
  - inversion Hw as [|? ? [Hne Hsp] Hws]; subst.
    exists (upper w), ws. split; [reflexivity|].
    split; [apply upper_idemp|]. split; [by apply upper_spaces|].
    split; [exact Hws|].
    intros H0. destruct w; [done | discriminate].
Qed.

(** ** Connections whose stores [float()] converts *)

Lemma served_has_data (key : string) (p p' : EtxIpcProtocol) :
  served p p' → has_data key p → has_data key p'.
Proof.
  intros [Hi _] (i & d & Hk & Hd). specialize (Hi key). rewrite Hk in Hi.
  destruct (interfaces p' !! key) as [i'|] eqn:Hk'; [|done].
  destruct Hi as [_ Hdata]. rewrite Hd in Hdata.
  destruct (data i') as [d'|] eqn:E; [|done]. by exists i', d'.
Qed.

(** What is left of a store holds no count that the store did not hold. *)
Lemma convertible_shrunk (s s' : EtxData) :
  shrunk s s' → convertible s → convertible s'.
Proof.
  intros (Hip & _ & Hr & Hn) Hc n table entry [l Hl] Ht He.
  destruct (Hr n l Hl) as (old & Hold).
  apply (Hc n table entry); [by eexists | by apply Hn | by rewrite <- Hip].
Qed.

Lemma served_convertible_all (p p' : EtxIpcProtocol) :
  served p p' →
  convertible_all (interfaces p) → convertible_all (interfaces p').
Proof.
  intros [Hi _] Hc k i' d' Hk' Hd'. specialize (Hi k). rewrite Hk' in Hi.
  destruct (interfaces p !! k) as [i|] eqn:Hk; [|done].
  destruct Hi as [_ Hdata]. rewrite Hd' in Hdata.
  destruct (data i) as [d|] eqn:Hd; [|done].
  apply (convertible_shrunk d d' Hdata). by apply (Hc k i d).
Qed.

Lemma served_ready (key : string) (p p' : EtxIpcProtocol) :
  served p p' → ready key p → ready key p'.
Proof.
  intros Hs [Hd Hc]. split; [by apply (served_has_data key p) |].
  by apply (served_convertible_all p).
Qed.

Lemma convertible_evicted (cfg : Config) (clock : Q) (d : EtxData) :
  convertible d → convertible (evicted cfg clock d).
Proof.
  apply convertible_shrunk, remove_old_probes_shrinking.
Qed.

Lemma convertible_all_insert (ifs : gmap string Interface) (k nm : string)
    (d : EtxData) :
  convertible_all ifs → convertible d →
  convertible_all (<[k := mkInterface nm (Some d)]> ifs).
Proof.
  intros Hall Hc x i d' Hx Hd. destruct (decide (x = k)) as [->|Hne].
  - rewrite lookup_insert_eq in Hx. injection Hx as <-.
    injection Hd as <-. exact Hc.
  - rewrite lookup_insert_ne in Hx by done. by apply (Hall x i d').
Qed.

Lemma convertible_all_six_of_ten (nm : string) :
  convertible_all {[ nm := mkInterface nm (Some store_six_of_ten) ]}.
Proof.
  intros k i d Hk Hd. destruct (decide (k = nm)) as [->|Hne].
  - rewrite lookup_singleton_eq in Hk. injection Hk as <-.
    injection Hd as <-. apply store_six_of_ten_convertible.
  - rewrite lookup_singleton_ne in Hk by done. discriminate.
Qed.

Lemma web_example_convertible :
  convertible_all (web_interfaces web_example).
Proof. apply convertible_all_six_of_ten. Qed.

Lemma ipc_wlan0_up_convertible : convertible_all (interfaces ipc_wlan0_up).
Proof.
  intros k i d Hk Hd. unfold ipc_wlan0_up in Hk. simpl in Hk.
  destruct (decide (k = "wlan0")) as [->|Hne].
  - rewrite lookup_singleton_eq in Hk. injection Hk as <-.
    injection Hd as <-. apply store_six_of_ten_convertible.
  - rewrite lookup_singleton_ne in Hk by done. discriminate.
Qed.

Lemma ipc_wlan0_down_convertible :
  convertible_all (interfaces ipc_wlan0_down).
Proof.
  intros k i d Hk Hd. unfold ipc_wlan0_down in Hk. simpl in Hk.
  destruct (decide (k = "wlan0")) as [->|Hne].
  - rewrite lookup_singleton_eq in Hk. injection Hk as <-. discriminate.
  - rewrite lookup_singleton_ne in Hk by done. discriminate.
Qed.

(** ** Which neighbors a store lists *)

Lemma clamp_positive (x : Q) : (0 < clamp x)%Q ↔ (0 < x)%Q.
Proof. unfold clamp. destruct (Qlt_le_dec 1 x); split; lra. Qed.

Lemma ratio_positive (c e : Z) :
  0 < e → (0 < inject_Z c / inject_Z e)%Q ↔ 0 < c.
Proof.
  intros He. pose proof (inject_Z_pos e He) as Hpos. split.
  - intros H. rewrite Zlt_Qlt.
    assert (Heq : (inject_Z c == inject_Z c / inject_Z e * inject_Z e)%Q).
    { field. lra. }
    change (inject_Z 0) with 0%Q. rewrite Heq. nra.
  - intros H. apply Qlt_shift_div_l; [exact Hpos|].
    rewrite Qmult_0_l. by apply inject_Z_pos.
Qed.

Lemma prob_positive_iff (cfg : Config) (s : EtxData) (n : string) :
  valid cfg →
  (0 < prob_of cfg s n)%Q ↔ 0 < reported_of s n ∧ 0 < heard_of s n.
Proof.
  intros Hcfg. pose proof (expected_pos cfg Hcfg) as He.
  pose proof (reverse_range cfg Hcfg s n) as [Hr0 _].
  assert (Hf : (0 < forward_of cfg s n)%Q ↔ 0 < reported_of s n).
  { unfold forward_of. rewrite clamp_positive. apply ratio_positive. lia. }
  assert (Hr : (0 < reverse_of cfg s n)%Q ↔ 0 < heard_of s n).
  { unfold reverse_of. rewrite clamp_positive. apply ratio_positive. lia. }
  rewrite <- Hf, <- Hr. unfold prob_of.
  set (f := forward_of cfg s n) in *. set (r := reverse_of cfg s n) in *.
  split.
  - intros H. destruct (Qlt_le_dec 0 r) as [Hrp|Hrn].
    + split; [|exact Hrp]. destruct (Qlt_le_dec 0 f) as [|Hfn]; [done|].
      exfalso. assert (Hle : (f * r <= 0 * r)%Q).
      { apply Qmult_le_compat_r; lra. }
      rewrite Qmult_0_l in Hle. lra.
    + exfalso. assert (Hz : (r == 0)%Q) by lra.
      rewrite Hz, Qmult_0_r in H. lra.
  - intros [H1 H2]. apply Qmult_lt_0_compat; assumption.
Qed.



(** ** The answers to QUALITY and ETX *)

Lemma on_data_run {A} (key nm : string) (m : Py EtxData A) (d d' : EtxData)
    (a : A) (p : EtxIpcProtocol) :
  interfaces p !! key = Some (mkInterface nm (Some d)) →
  m d = (Ok a, d') →
  on_data key m p
  = (Ok a, mkEtxIpcProtocol (<[key := mkInterface nm (Some d')]> (interfaces p))
             (sent p) (connected p)).
Proof. intros Hk Hm. unfold on_data. rewrite Hk, Hm. reflexivity. Qed.

Lemma on_data_raise {A} (key nm : string) (m : Py EtxData A) (d d' : EtxData)
    (e : exn) (p : EtxIpcProtocol) :
  interfaces p !! key = Some (mkInterface nm (Some d)) →
  m d = (Raise e, d') →
  on_data key m p
  = (Raise e,
     mkEtxIpcProtocol (<[key := mkInterface nm (Some d')]> (interfaces p))
       (sent p) (connected p)).
Proof. intros Hk Hm. unfold on_data. rewrite Hk, Hm. reflexivity. Qed.

Lemma answering_each_interface (P : string → Prop)
    (body : string → Interface → Py EtxIpcProtocol unit) :
  (∀ key interface, answering P key (body key interface)) →
  ∀ p, convertible_all (interfaces p) →
       ∃ p' l, each_interface_with_data body p = (Ok tt, p') ∧
               sent p' = sent p ++ l ∧ Forall P l.
Proof.
  intros Hbody p Hall. unfold each_interface_with_data. rewrite bind_run.
  simpl.
  assert (Hkeys : ∀ k, k ∈ keys (interfaces p) → is_Some (interfaces p !! k)).
  { intros k. by rewrite elem_of_keys. }
  revert Hkeys. generalize (keys (interfaces p)) as ks.
  intros ks. revert p Hall.
  induction ks as [|k ks IH]; intros p Hall Hkeys; simpl.
  - exists p, []. by rewrite app_nil_r.
  - destruct (Hkeys k) as [i Hi]; [left|].
    assert (Hturn : ∀ r p1,
      match data i with
      | Some _ => body k i
      | None => pass
      end p = (r, p1) →
      (gets interfaces ≫= λ ifs, getitem ifs k ≫= λ interface,
         match data interface with
         | Some _ => body k interface
         | None => pass
         end) p = (r, p1)).
    { intros r p1 H. rewrite bind_run. simpl. rewrite bind_run.
      unfold getitem. rewrite Hi. simpl. exact H. }
    rewrite bind_run. destruct (data i) as [d|] eqn:Hd.
    + destruct (Hbody k i p) as ([] & p1 & l1 & Hrun & Hserved & Hl1 & HP1).
      { split; [by exists i, d | exact Hall]. }
      rewrite (Hturn _ _ Hrun).
      destruct (IH p1) as (p2 & l2 & Hrun2 & Hl2 & HP2).
      { by apply (served_convertible_all p). }
      { intros x Hx. destruct Hserved as [His _]. specialize (His x).
        destruct (Hkeys x) as [ix Hix]; [by right|]. rewrite Hix in His.
        destruct (interfaces p1 !! x); [by eexists | done]. }
      exists p2, (l1 ++ l2). split; [exact Hrun2|].
      rewrite Hl2, Hl1, app_assoc. split; [done | by apply Forall_app].
    + rewrite (Hturn (Ok tt) p eq_refl). apply IH; [exact Hall|].
      intros x Hx. apply Hkeys. by right.
Qed.

Section Answers.
Variable cfg : Config.
Hypothesis Hcfg : valid cfg.
Variable now : string → Q.
Variable str_float : Q → string.

(** The body of the loops of [QUALITY] and [ETX], for the accessor [acc]
    that returns [val] of the store where the count of the neighbor is in
    range, on an interface with data. When the evicted store is
    convertible the body returns, and it answers only if that store
    gives the neighbor a positive probability; otherwise
    [get_neighbors] raises [OverflowError]. *)
Lemma answer_body_run (acc : Py EtxData Q) (val : EtxData → Q)
    (key nm neighbor : string) (d : EtxData) (p : EtxIpcProtocol) :
  (∀ d, float_range (reported_of d neighbor) → acc d = (Ok (val d), d)) →
  interfaces p !! key = Some (mkInterface nm (Some d)) →
  ∃ p1,
    served p p1 ∧
    (convertible (evicted cfg (now key) d) →
     ∃ p' l,
       (on_data key (remove_old_probes cfg (now key) None) ≫= λ _,
        on_data key (get_neighbors cfg false) ≫= λ neighbors,
        if decide (neighbor ∈ keys neighbors)
        then on_data key acc ≫= λ quality,
             sendLine (neighbor +:+ ":" +:+ str_float quality)
        else pass) p = (Ok tt, p') ∧
       served p p' ∧ sent p' = sent p ++ l ∧
       Forall (λ line, ∃ d, (0 < prob_of cfg d neighbor)%Q
                            ∧ line = neighbor +:+ ":" +:+ str_float (val d))
              l) ∧
    (¬ convertible (evicted cfg (now key) d) →
     (on_data key (remove_old_probes cfg (now key) None) ≫= λ _,
      on_data key (get_neighbors cfg false) ≫= λ neighbors,
      if decide (neighbor ∈ keys neighbors)
      then on_data key acc ≫= λ quality,
           sendLine (neighbor +:+ ":" +:+ str_float quality)
      else pass) p = (Raise OverflowError, p1)).
Proof.
  intros Hacc Hk.
  destruct (remove_old_probes_run cfg (now key) None d) as (d1 & Hev & _).
  assert (Hd1 : evicted cfg (now key) d = d1).
  { unfold evicted. by rewrite Hev. }
  rewrite Hd1.
  pose proof (remove_old_probes_shrinking cfg (now key) None d) as Hshr.
  rewrite Hev in Hshr. simpl in Hshr.
  set (p1 := mkEtxIpcProtocol
               (<[key := mkInterface nm (Some d1)]> (interfaces p))
               (sent p) (connected p)).
  assert (Hk1 : interfaces p1 !! key = Some (mkInterface nm (Some d1))).
  { simpl. apply lookup_insert_eq. }
  assert (Hsame : mkEtxIpcProtocol
                    (<[key := mkInterface nm (Some d1)]> (interfaces p1))
                    (sent p1) (connected p1) = p1).
  { unfold p1. simpl. by rewrite insert_insert_eq. }
  assert (Hserved : served p p1).
  { split; [|done]. intros k. simpl. destruct (decide (k = key)) as [->|Hne].
    - rewrite Hk, lookup_insert_eq. split; [done | exact Hshr].
    - rewrite lookup_insert_ne by done.
      destruct (interfaces p !! k); [apply same_interface_refl | done]. }
  exists p1. split; [exact Hserved|]. split.
  - intros Hc1.
    destruct (get_neighbors_prob_run cfg Hcfg d1 Hc1)
      as (probs & Hget & Hprobs).
    rewrite bind_run, (on_data_run key nm _ d d1 tt p Hk Hev). fold p1.
    rewrite bind_run, (on_data_run key nm _ d1 d1 probs p1 Hk1 Hget), Hsame.
    destruct (decide (neighbor ∈ keys probs)) as [Hin|Hin].
    + assert (Hpos : (0 < prob_of cfg d1 neighbor)%Q).
      { apply elem_of_keys in Hin as [v Hv]. rewrite Hprobs in Hv.
        by destruct (Qlt_le_dec 0 (prob_of cfg d1 neighbor)). }
      assert (Hr : float_range (reported_of d1 neighbor)).
      { apply (proj1 (convertible_reported d1) Hc1).
        apply (prob_positive_heard cfg d1 neighbor Hpos). }
      rewrite bind_run,
        (on_data_run key nm _ d1 d1 _ p1 Hk1 (Hacc d1 Hr)), Hsame.
      eexists _, [_]. split; [reflexivity|]. split; [|split].
      * eapply served_trans; [exact Hserved|]. apply serving_sendLine.
      * reflexivity.
      * constructor; [|constructor]. exists d1. by split.
    + exists p1, []. split; [reflexivity|]. split; [exact Hserved|].
      split; [by rewrite app_nil_r | constructor].
  - intros Hn1.
    rewrite bind_run, (on_data_run key nm _ d d1 tt p Hk Hev). fold p1.
    rewrite bind_run,
      (on_data_raise key nm _ d1 d1 OverflowError p1 Hk1
         (get_neighbors_raise cfg Hcfg d1 false Hn1)), Hsame.
    reflexivity.
Qed.

Lemma answer_body (acc : Py EtxData Q) (val : EtxData → Q)
    (key neighbor : string) :
  (∀ d, float_range (reported_of d neighbor) → acc d = (Ok (val d), d)) →
  answering
    (λ line, ∃ d, (0 < prob_of cfg d neighbor)%Q
                  ∧ line = neighbor +:+ ":" +:+ str_float (val d))
    key
    (on_data key (remove_old_probes cfg (now key) None) ≫= λ _,
     on_data key (get_neighbors cfg false) ≫= λ neighbors,
     if decide (neighbor ∈ keys neighbors)
     then on_data key acc ≫= λ quality,
          sendLine (neighbor +:+ ":" +:+ str_float quality)
     else pass).
Proof.
  intros Hacc p [(i & d & Hk & Hd) Hall]. destruct i as [nm dd].
  simpl in Hd. subst dd.
  destruct (answer_body_run acc val key nm neighbor d p Hacc Hk)
    as (p1 & _ & Hok & _).
  destruct Hok as (p' & l & Hrun & Hserved & Hl & HP).
  { apply convertible_evicted. by apply (Hall key _ d Hk). }
  by exists tt, p', l.
Qed.

Variable str_int : Z → string.
Variable float_of_str : string → option Q.
Variable getChannel : string → Result Z.


End Answers.


(** ** The snapshot server *)

Lemma web_on_data_run {A} (key nm : string) (m : Py EtxData A)
    (d d' : EtxData) (a : A) (w : EtxWebServer) :
  web_interfaces w !! key = Some (mkInterface nm (Some d)) →
  m d = (Ok a, d') →
  web_on_data key m w
  = (Ok a, mkEtxWebServer
             (<[key := mkInterface nm (Some d')]> (web_interfaces w))
             (hostname w)).
Proof. intros Hk Hm. unfold web_on_data. rewrite Hk, Hm. reflexivity. Qed.

(** A read on the store of an interface leaves the server as it is. *)
Lemma web_on_data_read {A} (key nm : string) (m : Py EtxData A)
    (d : EtxData) (a : A) (w : EtxWebServer) :
  web_interfaces w !! key = Some (mkInterface nm (Some d)) →
  m d = (Ok a, d) →
  web_on_data key m w = (Ok a, w).
Proof.
  intros Hk Hm. rewrite (web_on_data_run key nm m d d a w Hk Hm).
  rewrite insert_id by exact Hk. by destruct w.
Qed.

Lemma gets_getitem {S V A} (f : S → gmap string V) (k : string)
    (g : V → Py S A) (s : S) (v : V) :
  f s !! k = Some v →
  (gets f ≫= λ d, getitem d k ≫= g) s = g v s.
Proof.
  intros H. rewrite bind_run. simpl. rewrite bind_run.
  unfold getitem. rewrite H. reflexivity.
Qed.

Lemma render_neighbors_run (key nm : string) (interface : Interface)
    (d : EtxData) (w : EtxWebServer) (items : list (string * Q))
    (entries : list NeighborEntry) :
  web_interfaces w !! key = Some (mkInterface nm (Some d)) →
  Forall (λ item, (0 < item.2 <= 1)%Q) items →
  ∃ new,
    fold_each items entries (λ entries item,
      mac ← web_on_data key (get_mac item.1);
      match mac with
      | None => mret entries
      | Some mac =>
          if (mac =? "")%string then mret entries
          else mret (entries ++
                     [mkNeighborEntry (name interface) mac item.2])
      end) w = (Ok (entries ++ new), w) ∧
    Forall (λ e, entry_ok e ∧ e_if_name e = name interface) new.
Proof.
  intros Hk. revert entries.
  induction items as [|item items IH]; intros entries Hitems; simpl.
  - exists []. by rewrite app_nil_r.
  - inversion Hitems as [|? ? Hitem Hrest]; subst.
    rewrite bind_run, bind_run.
    rewrite (web_on_data_read key nm _ d _ w Hk (get_mac_run item.1 d)).
    destruct (_mac_addresses d !! item.1) as [mac|]; simpl.
    + destruct (String.eqb_spec mac "") as [->|Hne]; simpl.
      * apply (IH entries Hrest).
      * destruct (IH (entries ++ [mkNeighborEntry (name interface) mac item.2])
                    Hrest) as (new & Hrun & Hnew).
        exists (mkNeighborEntry (name interface) mac item.2 :: new).
        split.
        -- rewrite Hrun. by rewrite <- app_assoc.
        -- constructor; [|exact Hnew]. split; [|reflexivity].
           split; [exact Hne | exact Hitem].
    + apply (IH entries Hrest).
Qed.

Section WebFacts.
Variable cfg : Config.
Hypothesis Hcfg : valid cfg.
Variable dumps : Document → string.
Variable clock : Q.
Variable now : string → Q.

(** One turn of the outer loop of [render_GET] on an interface that has
    data, and whose store is convertible. *)
Lemma render_interface_run (key nm : string) (d : EtxData)
    (w : EtxWebServer) (entries : list NeighborEntry) :
  web_interfaces w !! key = Some (mkInterface nm (Some d)) →
  convertible d →
  ∃ d1 new,
    (web_on_data key (remove_old_probes cfg (now key) None) ≫= λ _,
     web_on_data key (get_neighbors cfg false) ≫= λ neighbors,
     render_neighbors key (mkInterface nm (Some d)) neighbors entries) w
    = (Ok (entries ++ new),
       mkEtxWebServer (<[key := mkInterface nm (Some d1)]> (web_interfaces w))
         (hostname w)) ∧
    shrunk d d1 ∧
    Forall (λ e, entry_ok e ∧ e_if_name e = nm) new.
Proof.
  intros Hk Hc.
  destruct (remove_old_probes_run cfg (now key) None d) as (d1 & Hev & _).
  pose proof (remove_old_probes_shrinking cfg (now key) None d) as Hshr.
  rewrite Hev in Hshr. simpl in Hshr.
  destruct (get_neighbors_prob_run cfg Hcfg d1 (convertible_shrunk d d1 Hshr Hc))
    as (probs & Hget & Hprobs).
  set (w1 := mkEtxWebServer
               (<[key := mkInterface nm (Some d1)]> (web_interfaces w))
               (hostname w)).
  assert (Hk1 : web_interfaces w1 !! key = Some (mkInterface nm (Some d1))).
  { simpl. apply lookup_insert_eq. }
  assert (Hitems : Forall (λ item, (0 < item.2 <= 1)%Q) (map_to_list probs)).
  { apply Forall_forall. intros [n v] Hin.
    apply elem_of_map_to_list in Hin. rewrite Hprobs in Hin. simpl.
    destruct (Qlt_le_dec 0 (prob_of cfg d1 n)) as [Hp|]; [|done].
    injection Hin as <-. split; [exact Hp | by apply prob_le_1]. }
  destruct (render_neighbors_run key nm (mkInterface nm (Some d)) d1 w1
              (map_to_list probs) entries Hk1 Hitems) as (new & Hrun & Hnew).
  exists d1, new. split; [|split; [exact Hshr | exact Hnew]].
  rewrite bind_run, (web_on_data_run key nm _ d d1 tt w Hk Hev). fold w1.
  rewrite bind_run, (web_on_data_read key nm _ d1 probs w1 Hk1 Hget).
  unfold render_neighbors. exact Hrun.
Qed.

(** The outer loop, over keys that are all in the dict. *)
Lemma render_loop_run (ks : list string) :
  ∀ (w : EtxWebServer) (entries : list NeighborEntry),
  convertible_all (web_interfaces w) →
  (∀ k, k ∈ ks → is_Some (web_interfaces w !! k)) →
  ∃ w' new,
    fold_each ks entries (λ entries key,
      ifs ← gets web_interfaces;
      interface ← getitem ifs key;
      match data interface with
      | None => mret entries
      | Some _ =>
          web_on_data key (remove_old_probes cfg (now key) None) ≫= λ _,
          web_on_data key (get_neighbors cfg false) ≫= λ neighbors,
          render_neighbors key interface neighbors entries
      end) w = (Ok (entries ++ new), w') ∧
    hostname w' = hostname w ∧
    (∀ k, match web_interfaces w !! k, web_interfaces w' !! k with
          | None, None => True
          | Some i, Some i' => same_interface i i'
          | _, _ => False
          end) ∧
    Forall (λ e, entry_ok e ∧
                 ∃ k i, web_interfaces w !! k = Some i
                        ∧ e_if_name e = name i ∧ is_Some (data i)) new.
Proof.
  induction ks as [|k ks IH]; intros w entries Hall Hkeys; simpl.
  - exists w, []. rewrite app_nil_r. split; [done|]. split; [done|].
    split; [|constructor]. intros k.
    destruct (web_interfaces w !! k); [apply same_interface_refl | done].
  - destruct (Hkeys k) as [[nm dd] Hi]; [left|].
    rewrite bind_run, (gets_getitem web_interfaces k _ w _ Hi).
    destruct dd as [d|]; cbn [data].
    + assert (Hc : convertible d) by (by apply (Hall k _ d Hi)).
      destruct (render_interface_run k nm d w entries Hi Hc)
        as (d1 & new1 & Hrun & Hshr & Hnew1).
      rewrite Hrun.
      set (w1 := mkEtxWebServer
                   (<[k := mkInterface nm (Some d1)]> (web_interfaces w))
                   (hostname w)).
      assert (Hrel : ∀ x,
        match web_interfaces w !! x, web_interfaces w1 !! x with
        | None, None => True
        | Some i, Some i' => same_interface i i'
        | _, _ => False
        end).
      { intros x. simpl. destruct (decide (x = k)) as [->|Hne].
        - rewrite Hi, lookup_insert_eq. split; [done | exact Hshr].
        - rewrite lookup_insert_ne by done.
          destruct (web_interfaces w !! x);
            [apply same_interface_refl | done]. }
      destruct (IH w1 (entries ++ new1)) as (w' & new2 & Hrun2 & Hh & Hr2 & Hn2).
      { apply convertible_all_insert; [exact Hall|].
        by apply (convertible_shrunk d d1). }
      { intros x Hx. specialize (Hrel x).
        destruct (Hkeys x) as [ix Hix]; [by right|]. rewrite Hix in Hrel.
        destruct (web_interfaces w1 !! x); [by eexists | done]. }
      exists w', (new1 ++ new2). rewrite Hrun2, app_assoc.
      split; [done|]. split; [exact Hh|]. split.
      * intros x. specialize (Hrel x). specialize (Hr2 x).
        destruct (web_interfaces w !! x), (web_interfaces w1 !! x),
          (web_interfaces w' !! x); try done.
        by eapply same_interface_trans.
      * apply Forall_app. split.
        -- eapply Forall_impl; [exact Hnew1|]. intros e [Hok Hname].
           split; [exact Hok|]. exists k, (mkInterface nm (Some d)).
           split; [exact Hi|]. split; [exact Hname | by eexists].
        -- eapply Forall_impl; [exact Hn2|].
           intros e (Hok & x & ix & Hix & Hname & Hdata).
           split; [exact Hok|]. specialize (Hrel x). rewrite Hix in Hrel.
           destruct (web_interfaces w !! x) as [i0|] eqn:E; [|done].
           destruct Hrel as [Hnm Hdd]. exists x, i0.
           split; [done|]. split; [congruence|].
           destruct (data i0); [by eexists|].
           destruct Hdata as [? Hd]. by rewrite Hd in Hdd.
    + destruct (IH w entries) as (w' & new & Hrun & Hrest).
      { exact Hall. }
      { intros x Hx. apply Hkeys. by right. }
      exists w', new. split; [exact Hrun | exact Hrest].
Qed.


End WebFacts.


(** The server of the examples answers with one entry for the neighbor. *)
Example render_GET_example :
  (render_GET cfg_10_1
     (λ doc, match doc_neighbors doc with
             | [e] => e_if_name e +:+ "|" +:+ e_mac_address e
             | _ => ""
             end) 0%Q (λ _, 0%Q) web_example).1
  = Ok ("wlan0|00:16:3e:00:00:02" +:+ String "010"%char "").
Proof. vm_compute. reflexivity. Qed.

(** ** The lines of the listing commands *)

(** A loop that only sends lines. *)
Lemma for_each_lines {A} (body : A → Py EtxIpcProtocol unit)
    (f : A → list string) (ifs : gmap string Interface) (l : list A) :
  (∀ x s c, body x (mkEtxIpcProtocol ifs s c)
            = (Ok tt, mkEtxIpcProtocol ifs (s ++ f x) c)) →
  ∀ s c, for_each l body (mkEtxIpcProtocol ifs s c)
         = (Ok tt, mkEtxIpcProtocol ifs (s ++ concat (map f l)) c).
Proof.
  intros Hbody. induction l as [|x l IH]; intros s c; simpl.
  - by rewrite app_nil_r.
  - rewrite bind_run, Hbody, IH, app_assoc. reflexivity.
Qed.

Section Listings.
Variable cfg : Config.
Variable now : string → Q.

(** The loop over the interfaces, for a body that brings the store of
    its interface up to date and sends [lines] of it. *)
Lemma each_interface_loop
    (body : string → Interface → Py EtxIpcProtocol unit)
    (lines : Interface → EtxData → list string)
    (kvs : list (string * Interface)) :
  (∀ key nm d q,
     (key, mkInterface nm (Some d)) ∈ kvs →
     interfaces q !! key = Some (mkInterface nm (Some d)) →
     body key (mkInterface nm (Some d)) q
     = (Ok tt, mkEtxIpcProtocol
                 (<[key := mkInterface nm (Some (evicted cfg (now key) d))]>
                    (interfaces q))
                 (sent q ++ lines (mkInterface nm (Some d))
                                  (evicted cfg (now key) d))
                 (connected q))) →
  NoDup kvs.*1 →
  ∀ q, (∀ k i, (k, i) ∈ kvs → interfaces q !! k = Some i) →
  ∃ ifs',
    for_each kvs.*1 (λ key,
      ifs ← gets interfaces;
      interface ← getitem ifs key;
      match data interface with
      | None => pass
      | Some _ => body key interface
      end) q
    = (Ok tt, mkEtxIpcProtocol ifs'
                (sent q ++ concat (map (λ kv : string * Interface,
                   match data kv.2 with
                   | Some d => lines kv.2 (evicted cfg (now kv.1) d)
                   | None => []
                   end) kvs))
                (connected q)) ∧
    (∀ k i, (k, i) ∈ kvs → ifs' !! k = Some (refreshed cfg (now k) i)) ∧
    (∀ k, k ∉ kvs.*1 → ifs' !! k = interfaces q !! k).
Proof.
  induction kvs as [|[k i] kvs IH]; intros Hbody Hnd q Hin.
  - simpl. exists (interfaces q). rewrite app_nil_r. destruct q. simpl.
    split; [reflexivity|]. split; [|done]. intros ? ? H. inversion H.
  - rewrite fmap_cons in Hnd |- *. cbn [for_each map concat fst snd].
    apply NoDup_cons in Hnd as [Hk Hnd].
    assert (Hi : interfaces q !! k = Some i) by (apply Hin; left).
    assert (Hbody' : ∀ key nm d q,
      (key, mkInterface nm (Some d)) ∈ kvs →
      interfaces q !! key = Some (mkInterface nm (Some d)) →
      body key (mkInterface nm (Some d)) q
      = (Ok tt, mkEtxIpcProtocol
                  (<[key := mkInterface nm (Some (evicted cfg (now key) d))]>
                     (interfaces q))
                  (sent q ++ lines (mkInterface nm (Some d))
                                   (evicted cfg (now key) d))
                  (connected q))).
    { intros key nm d q0 Hmem. apply Hbody. by right. }
    rewrite bind_run, (gets_getitem interfaces k _ q _ Hi).
    destruct i as [nm [d|]]; cbn [data name].
    + rewrite (Hbody k nm d q ltac:(left) Hi).
      set (q1 := mkEtxIpcProtocol
                   (<[k := mkInterface nm (Some (evicted cfg (now k) d))]>
                      (interfaces q))
                   (sent q ++ lines (mkInterface nm (Some d))
                                    (evicted cfg (now k) d))
                   (connected q)).
      destruct (IH Hbody' Hnd q1) as (ifs' & Hrun & Hin' & Hout').
      { intros k' i' Hk'. unfold q1. simpl.
        rewrite lookup_insert_ne; [apply Hin; by right|].
        intros ->. apply Hk. apply list_elem_of_fmap. by exists (k', i'). }
      exists ifs'. cbv beta iota. rewrite Hrun. unfold q1 at 1 2. simpl.
      rewrite app_assoc.
      split; [reflexivity|]. split.
      * intros k' i' Hk'. apply elem_of_cons in Hk' as [[= -> ->]|Hk'].
        -- rewrite (Hout' k Hk). unfold q1. simpl.
           by rewrite lookup_insert_eq.
        -- by apply Hin'.
      * intros k' Hk'. apply not_elem_of_cons in Hk' as [Hne Hk'].
        rewrite (Hout' k' Hk'). unfold q1. simpl.
        by rewrite lookup_insert_ne.
    + destruct (IH Hbody' Hnd q) as (ifs' & Hrun & Hin' & Hout').
      { intros k' i' Hk'. apply Hin. by right. }
      exists ifs'. split; [exact Hrun|]. split.
      * intros k' i' Hk'. apply elem_of_cons in Hk' as [[= -> ->]|Hk'].
        -- rewrite (Hout' k Hk). exact Hi.
        -- by apply Hin'.
      * intros k' Hk'. apply not_elem_of_cons in Hk' as [Hne Hk'].
        by apply Hout'.
Qed.

Lemma each_interface_run
    (body : string → Interface → Py EtxIpcProtocol unit)
    (lines : Interface → EtxData → list string) (p : EtxIpcProtocol) :
  (∀ key nm d q,
     interfaces p !! key = Some (mkInterface nm (Some d)) →
     interfaces q !! key = Some (mkInterface nm (Some d)) →
     body key (mkInterface nm (Some d)) q
     = (Ok tt, mkEtxIpcProtocol
                 (<[key := mkInterface nm (Some (evicted cfg (now key) d))]>
                    (interfaces q))
                 (sent q ++ lines (mkInterface nm (Some d))
                                  (evicted cfg (now key) d))
                 (connected q))) →
  each_interface_with_data body p
  = (Ok tt, mkEtxIpcProtocol (refreshed_all cfg now (interfaces p))
              (sent p ++ listing cfg now lines (interfaces p))
              (connected p)).
Proof.
  intros Hbody. unfold each_interface_with_data. rewrite bind_run. simpl.
  destruct (each_interface_loop body lines (map_to_list (interfaces p)))
    with (q := p) as (ifs' & Hrun & Hin & Hout).
  { intros key nm d q Hmem. apply Hbody. by apply elem_of_map_to_list. }
  { apply NoDup_fst_map_to_list. }
  { intros k i. apply elem_of_map_to_list. }
  unfold keys, listing. rewrite Hrun. do 2 f_equal. apply map_eq. intros k.
  unfold refreshed_all. rewrite map_lookup_imap.
  destruct (interfaces p !! k) as [i|] eqn:E; simpl.
  - apply Hin. by apply elem_of_map_to_list.
  - rewrite Hout; [exact E|]. intros Hk.
    apply list_elem_of_fmap in Hk as [[k' i] [-> Hk]].
    apply elem_of_map_to_list in Hk. simpl in E. congruence.
Qed.

End Listings.

Lemma concat_map_singleton {A B} (g : A → B) (l : list A) :
  concat (map (λ x, [g x]) l) = map g l.
Proof. induction l as [|x l IH]; simpl; [done | by rewrite IH]. Qed.

Lemma elem_of_concat_map {A B} (f : A → list B) (l : list A) (y : B) :
  y ∈ concat (map f l) ↔ ∃ x, x ∈ l ∧ y ∈ f x.
Proof.
  induction l as [|a l IH]; simpl.
  - split; [intros H; inversion H | intros (x & H & _); inversion H].
  - rewrite elem_of_app, IH. split.
    + intros [H|(x & Hx & H)]; [exists a; split; [left | exact H]|].
      exists x. split; [by right | exact H].
    + intros (x & Hx & H). apply elem_of_cons in Hx as [->|Hx];
        [by left | right; by exists x].
Qed.

Lemma on_data_read {A} (key nm : string) (m : Py EtxData A) (d : EtxData)
    (a : A) (ifs : gmap string Interface) (s : list string) (c : bool) :
  ifs !! key = Some (mkInterface nm (Some d)) →
  m d = (Ok a, d) →
  on_data key m (mkEtxIpcProtocol ifs s c) = (Ok a, mkEtxIpcProtocol ifs s c).
Proof.
  intros Hk Hm.
  rewrite (on_data_run key nm m d d a (mkEtxIpcProtocol ifs s c) Hk Hm).
  simpl. by rewrite insert_id.
Qed.

Lemma evicted_run (cfg : Config) (clock : Q) (d : EtxData) :
  remove_old_probes cfg clock None d = (Ok tt, evicted cfg clock d).
Proof.
  unfold evicted.
  destruct (remove_old_probes_run cfg clock None d) as (d' & H & _).
  by rewrite H.
Qed.

Section Lines.
Variable cfg : Config.
Hypothesis Hcfg : valid cfg.
Variable now : string → Q.

Lemma listed_run (d : EtxData) :
  convertible d → get_neighbors cfg false d = (Ok (listed cfg d), d).
Proof.
  intros Hc. unfold listed.
  destruct (get_neighbors_prob_run cfg Hcfg d Hc) as (m & H & _).
  by rewrite H.
Qed.

Lemma neighbor_on_iff (p : EtxIpcProtocol) (i : Interface) (n : string)
    (v : Q) (mac : option string) :
  neighbor_on cfg now p i n v mac ↔
  ∃ k d, interfaces p !! k = Some i ∧ data i = Some d ∧
         convertible (evicted cfg (now k) d) ∧
         listed cfg (evicted cfg (now k) d) !! n = Some v ∧
         mac = _mac_addresses (evicted cfg (now k) d) !! n.
Proof.
  split.
  - intros (k & d & d' & neighbors & Hk & Hd & Hev & Hget & Hn & Hmac).
    rewrite evicted_run in Hev. injection Hev as <-.
    destruct (get_neighbors_returns cfg Hcfg _ _ _ _ Hget) as [Hc _].
    rewrite (listed_run _ Hc) in Hget. injection Hget as <-.
    rewrite get_mac_run in Hmac. injection Hmac as <-.
    by exists k, d.
  - intros (k & d & Hk & Hd & Hc & Hn & ->).
    exists k, d, (evicted cfg (now k) d),
      (listed cfg (evicted cfg (now k) d)).
    split; [exact Hk|]. split; [exact Hd|]. split; [apply evicted_run|].
    split; [by apply listed_run|]. split; [exact Hn | apply get_mac_run].
Qed.

(** The lines of the whole loop are the lines of the interfaces that
    have data. *)
Lemma elem_of_listing (lines : Interface → EtxData → list string)
    (ifs : gmap string Interface) (line : string) :
  line ∈ listing cfg now lines ifs
  ↔ ∃ k i d, ifs !! k = Some i ∧ data i = Some d ∧
             line ∈ lines i (evicted cfg (now k) d).
Proof.
  unfold listing. rewrite elem_of_concat_map. split.
  - intros ([k i] & Hk & H). apply elem_of_map_to_list in Hk. simpl in H.
    destruct (data i) as [d|] eqn:Hd; [|inversion H]. by exists k, i, d.
  - intros (k & i & d & Hk & Hd & H). exists (k, i).
    split; [by apply elem_of_map_to_list|]. simpl. by rewrite Hd.
Qed.

(** The body the listing commands share: bring the store up to date,
    read the neighbors, and run a loop over them that only sends. *)
Lemma listing_body_run (key nm : string) (d : EtxData) (q : EtxIpcProtocol)
    (inner : string * Q → Py EtxIpcProtocol unit)
    (f : string * Q → list string) :
  interfaces q !! key = Some (mkInterface nm (Some d)) →
  convertible (evicted cfg (now key) d) →
  (∀ ifs, ifs !! key = Some (mkInterface nm (Some (evicted cfg (now key) d))) →
     ∀ x s c, inner x (mkEtxIpcProtocol ifs s c)
              = (Ok tt, mkEtxIpcProtocol ifs (s ++ f x) c)) →
  (on_data key (remove_old_probes cfg (now key) None) ≫= λ _,
   on_data key (get_neighbors cfg false) ≫= λ neighbors,
   for_each (map_to_list neighbors) inner) q
  = (Ok tt, mkEtxIpcProtocol
              (<[key := mkInterface nm (Some (evicted cfg (now key) d))]>
                 (interfaces q))
              (sent q ++ concat (map f (map_to_list
                                   (listed cfg (evicted cfg (now key) d)))))
              (connected q)).
Proof.
  intros Hk Hc Hinner.
  rewrite bind_run, (on_data_run key nm _ d _ tt q Hk (evicted_run _ _ d)).
  rewrite bind_run,
    (on_data_read key nm _ (evicted cfg (now key) d) _ _ _ _
       (lookup_insert_eq _ _ _) (listed_run _ Hc)).
  apply for_each_lines, Hinner, lookup_insert_eq.
Qed.

(** A store that is not convertible once it is up to date: the
    exception of [get_neighbors()] leaves the body after the eviction
    and before any line is sent. *)
Lemma listing_body_raise (key nm : string) (d : EtxData)
    (q : EtxIpcProtocol) (inner : string * Q → Py EtxIpcProtocol unit) :
  interfaces q !! key = Some (mkInterface nm (Some d)) →
  ¬ convertible (evicted cfg (now key) d) →
  (on_data key (remove_old_probes cfg (now key) None) ≫= λ _,
   on_data key (get_neighbors cfg false) ≫= λ neighbors,
   for_each (map_to_list neighbors) inner) q
  = (Raise OverflowError,
     mkEtxIpcProtocol
       (<[key := mkInterface nm (Some (evicted cfg (now key) d))]>
          (interfaces q))
       (sent q) (connected q)).
Proof.
  intros Hk Hn.
  rewrite bind_run, (on_data_run key nm _ d _ tt q Hk (evicted_run _ _ d)).
  rewrite bind_run,
    (on_data_raise key nm _ (evicted cfg (now key) d) _ OverflowError _
       (lookup_insert_eq _ _ _) (get_neighbors_raise cfg Hcfg _ false Hn)).
  simpl. by rewrite insert_insert_eq.
Qed.

Variable str_float : Q → string.

Lemma send_neighbors_run (key label nm : string) (d : EtxData)
    (q : EtxIpcProtocol) :
  interfaces q !! key = Some (mkInterface nm (Some d)) →
  convertible (evicted cfg (now key) d) →
  send_neighbors cfg now str_float key label q
  = (Ok tt, mkEtxIpcProtocol
              (<[key := mkInterface nm (Some (evicted cfg (now key) d))]>
                 (interfaces q))
              (sent q ++ neighbors_lines cfg str_float label
                           (evicted cfg (now key) d))
              (connected q)).
Proof.
  intros Hk Hc. unfold send_neighbors, neighbors_lines.
  rewrite (listing_body_run key nm d q _
             (λ item, [label +:+ ":" +:+ item.1 +:+ ":"
                       +:+ str_float item.2]) Hk Hc).
  - by rewrite concat_map_singleton.
  - reflexivity.
Qed.

End Lines.

Lemma bind_cong {S A B} (m m' : Py S A) (f : A → Py S B) (s : S) :
  m s = m' s → (m ≫= f) s = (m' ≫= f) s.
Proof. intros H. by rewrite !bind_run, H. Qed.

Section Listing.
Variable cfg : Config.
Hypothesis Hcfg : valid cfg.
Variable now : string → Q.
Variable str_float : Q → string.
Variable str_int : Z → string.
Variable float_of_str : string → option Q.
Variable getChannel : string → Result Z.




End Listing.




(** The three listings of the connection of the examples, and a
    threshold that the one neighbor does not reach. *)
Example lineReceived_listing_example :
  let str_float := λ q : Q, if Qeq_bool q (6#10) then "0.6" else "?" in
  let float_of_str := λ s : string,
    if (s =? "0.7")%string then Some (7#10)%Q else None in
  let run := λ request,
    sent (lineReceived cfg_10_1 (λ _, (6#1)%Q) str_float (λ _, "11")
            float_of_str (λ _, Ok 11) request ipc_wlan0_up).2 in
  run "neighbors" = ["wlan0:10.0.0.2:0.6"] ∧
  run "NEIGHBORS wlan0" = ["wlan0:10.0.0.2:0.6"] ∧
  run "Mac" = ["wlan0|00:16:3e:00:00:02|0.6"] ∧
  run "chaft" = ["10.0.0.2:11"] ∧
  run "chaft 0.7" = [].
Proof. vm_compute. repeat split. Qed.

(** A store that reports a count that [float()] refuses: the listing
    commands raise [OverflowError], send nothing and leave the
    connection open. *)
Example lineReceived_overflow_example :
  let run := λ request,
    lineReceived cfg_10_1 (λ _, (6#1)%Q) (λ _, "") (λ _, "") (λ _, None)
      (λ _, Ok 11) request ipc_wlan0_huge in
  (run "neighbors").1 = Raise OverflowError ∧
  sent (run "neighbors").2 = [] ∧
  connected (run "neighbors").2 = true ∧
  (run "mac").1 = Raise OverflowError ∧
  (run "chaft").1 = Raise OverflowError ∧
  (run "quality 10.0.0.2").1 = Raise OverflowError ∧
  (run "etx 10.0.0.2").1 = Raise OverflowError.
Proof. vm_compute. repeat split. Qed.

(** ** The exceptions of the query server *)

Section Outcomes.
Variable E : exn → Prop.
Variable Inv : EtxIpcProtocol → Prop.
Hypothesis Inv_served : ∀ p p', served p p' → Inv p → Inv p'.

Lemma raising_bind {A B} (m : Py EtxIpcProtocol A)
    (f : A → Py EtxIpcProtocol B) :
  raising_in E Inv m → (∀ a, raising_in E Inv (f a)) →
  raising_in E Inv (m ≫= f).
Proof.
  intros Hm Hf p Hp. specialize (Hm p Hp). rewrite (bind_run m f p).
  destruct (m p) as [[a|e] p1]; [|exact Hm].
  destruct Hm as [H1 Hs1]. specialize (Hf a p1 H1).
  destruct (f a p1) as [[b|e] p2]; [|exact Hf].
  destruct Hf as [H2 Hs2]. split; [exact H2 | by eapply served_trans].
Qed.

Lemma raising_for_each {A} (l : list A)
    (body : A → Py EtxIpcProtocol unit) :
  (∀ x, raising_in E Inv (body x)) → raising_in E Inv (for_each l body).
Proof.
  intros Hbody. induction l as [|x l IH]; simpl.
  - intros p Hp. change (Inv p ∧ served p p).
    split; [exact Hp | apply served_refl].
  - apply raising_bind; [apply Hbody | intros _; exact IH].
Qed.

Lemma raising_total {A} (m : Py EtxIpcProtocol A) :
  serving m → (∀ p, Inv p → ∃ a p', m p = (Ok a, p')) →
  raising_in E Inv m.
Proof.
  intros Hs Hm p Hp. destruct (Hm p Hp) as (a & p' & Hrun).
  specialize (Hs p). rewrite Hrun in Hs |- *. simpl in Hs.
  split; [by apply (Inv_served p) | exact Hs].
Qed.

Lemma raising_on_data {A} (key : string) (m : Py EtxData A) :
  (∀ p, Inv p → has_data key p) →
  shrinking m →
  (∀ p i d, Inv p → interfaces p !! key = Some i → data i = Some d →
     match m d with
     | (Ok _, _) => True
     | (Raise e, _) => E e
     end) →
  raising_in E Inv (on_data key m).
Proof.
  intros Hdata Hs Hm p Hp. destruct (Hdata p Hp) as (i & d & Hk & Hd).
  specialize (Hm p i d Hp Hk Hd).
  pose proof (serving_on_data key m Hs p) as Hserved.
  unfold on_data in Hserved |- *. rewrite Hk in Hserved |- *.
  destruct i as [nm dd]. simpl in Hd. subst dd.
  destruct (m d) as [[a|e] d']; simpl in Hserved |- *.
  - split; [by apply (Inv_served p) | exact Hserved].
  - exact Hm.
Qed.

Lemma outcome_at {A} (m : Py EtxIpcProtocol A) (p : EtxIpcProtocol) :
  raising_in E Inv m → Inv p →
  match m p with
  | (Ok _, p') => served p p'
  | (Raise e, _) => E e
  end.
Proof.
  intros Hm Hp. specialize (Hm p Hp).
  destruct (m p) as [[a|e] p']; [by destruct Hm | exact Hm].
Qed.

End Outcomes.

(** The loop over the interfaces: each turn returns on a connection
    [served] from the one it found, or raises an exception in [E]. *)
Lemma each_interface_outcome (E : exn → Prop) (J : EtxIpcProtocol → Prop)
    (body : string → Interface → Py EtxIpcProtocol unit) :
  (∀ p p', served p p' → J p → J p') →
  (∀ key interface p,
     J p → interfaces p !! key = Some interface → is_Some (data interface) →
     match body key interface p with
     | (Ok _, p') => served p p'
     | (Raise e, _) => E e
     end) →
  ∀ p, J p →
    match each_interface_with_data body p with
    | (Ok _, p') => served p p'
    | (Raise e, _) => E e
    end.
Proof.
  intros HJ Hbody p HJp. unfold each_interface_with_data.
  rewrite bind_run. simpl.
  assert (Hkeys : ∀ k, k ∈ keys (interfaces p) → is_Some (interfaces p !! k)).
  { intros k. by rewrite elem_of_keys. }
  revert Hkeys. generalize (keys (interfaces p)) as ks.
  intros ks. revert p HJp.
  induction ks as [|k ks IH]; intros p HJp Hkeys; simpl.
  - apply served_refl.
  - destruct (Hkeys k) as [i Hi]; [left|].
    rewrite bind_run, (gets_getitem interfaces k _ p _ Hi).
    destruct (data i) as [d|] eqn:Hd.
    + specialize (Hbody k i p HJp Hi). rewrite Hd in Hbody.
      specialize (Hbody ltac:(by eexists)).
      destruct (body k i p) as [[[]|e] p1]; [|exact Hbody].
      specialize (IH p1 (HJ p p1 Hbody HJp)).
      match type of IH with ?P → _ => assert (Hk1 : P) end.
      { intros x Hx. destruct Hbody as [His _]. specialize (His x).
        destruct (Hkeys x) as [ix Hix]; [by right|]. rewrite Hix in His.
        destruct (interfaces p1 !! x); [by eexists | done]. }
      specialize (IH Hk1).
      match goal with
      | |- match ?t with _ => _ end =>
          destruct t as [[[]|e] p2]; [|exact IH]
      end.
      by eapply served_trans.
    + apply IH; [exact HJp|]. intros x Hx. apply Hkeys. by right.
Qed.

Section Raising.
Variable cfg : Config.
Hypothesis Hcfg : valid cfg.
Variable now : string → Q.
Variable str_float : Q → string.
Variable E : exn → Prop.
Variable Inv : EtxIpcProtocol → Prop.
Variable key : string.
Hypothesis Inv_served : ∀ p p', served p p' → Inv p → Inv p'.
Hypothesis Inv_data : ∀ p, Inv p → has_data key p.
Hypothesis Inv_overflow :
  ∀ p i d, Inv p → interfaces p !! key = Some i → data i = Some d →
           ¬ convertible d → E OverflowError.

Lemma raising_evict :
  raising_in E Inv (on_data key (remove_old_probes cfg (now key) None)).
Proof.
  apply raising_on_data;
    [exact Inv_served | exact Inv_data | apply remove_old_probes_shrinking |].
  intros p i d _ _ _. by rewrite evicted_run.
Qed.

Lemma raising_get_neighbors :
  raising_in E Inv (on_data key (get_neighbors cfg false)).
Proof.
  apply raising_on_data;
    [exact Inv_served | exact Inv_data
    | apply readonly_shrinking, readonly_get_neighbors |].
  intros p i d Hp Hk Hd. destruct (convertible_cases d) as [Hc|(n & Hn & Hbad)].
  - by rewrite (listed_run cfg Hcfg d Hc).
  - assert (Hnc : ¬ convertible d).
    { intros Hc. by apply Hbad, (proj1 (convertible_reported d) Hc). }
    rewrite (get_neighbors_raise cfg Hcfg d false Hnc).
    by apply (Inv_overflow p i d).
Qed.

Lemma raising_get_mac (ip : string) :
  raising_in E Inv (on_data key (get_mac ip)).
Proof.
  apply raising_on_data;
    [exact Inv_served | exact Inv_data
    | apply readonly_shrinking, readonly_get_mac |].
  intros p i d _ _ _. by rewrite get_mac_run.
Qed.

Lemma raising_sendLine (line : string) : raising_in E Inv (sendLine line).
Proof.
  apply raising_total; [exact Inv_served | apply serving_sendLine |].
  intros p _. by eexists _, _.
Qed.

Lemma raising_pass : raising_in E Inv pass.
Proof.
  apply raising_total; [exact Inv_served | apply serving_pass |].
  intros p _. by eexists _, _.
Qed.

Lemma raising_send_neighbors (label : string) :
  raising_in E Inv (send_neighbors cfg now str_float key label).
Proof.
  unfold send_neighbors.
  apply raising_bind; [apply raising_evict | intros _].
  apply raising_bind; [apply raising_get_neighbors | intros neighbors].
  apply raising_for_each. intros item. apply raising_sendLine.
Qed.

Lemma raising_mac_body (label : string) :
  raising_in E Inv
    (on_data key (remove_old_probes cfg (now key) None) ≫= λ _,
     on_data key (get_neighbors cfg false) ≫= λ neighbors,
     for_each (map_to_list neighbors) (λ item,
       on_data key (get_mac item.1) ≫= λ mac,
       match mac with
       | None => pass
       | Some mac =>
           if (mac =? "")%string then pass
           else sendLine (label +:+ "|" +:+ mac +:+ "|"
                          +:+ str_float item.2)
       end)).
Proof.
  apply raising_bind; [apply raising_evict | intros _].
  apply raising_bind; [apply raising_get_neighbors | intros neighbors].
  apply raising_for_each. intros item.
  apply raising_bind; [apply raising_get_mac | intros [mac|]];
    [|apply raising_pass].
  destruct (mac =? "")%string; [apply raising_pass | apply raising_sendLine].
Qed.

Lemma raising_chaft_body (str_int : Z → string) (min_prob : Q)
    (channel : Z) :
  raising_in E Inv
    (on_data key (remove_old_probes cfg (now key) None) ≫= λ _,
     on_data key (get_neighbors cfg false) ≫= λ neighbors,
     for_each (map_to_list neighbors) (λ item,
       if Qle_bool min_prob item.2
       then sendLine (item.1 +:+ ":" +:+ str_int channel)
       else pass)).
Proof.
  apply raising_bind; [apply raising_evict | intros _].
  apply raising_bind; [apply raising_get_neighbors | intros neighbors].
  apply raising_for_each. intros item.
  destruct (Qle_bool min_prob item.2);
    [apply raising_sendLine | apply raising_pass].
Qed.

Lemma raising_answer_body (acc : Py EtxData Q) (val : EtxData → Q)
    (neighbor : string) :
  (∀ d, float_range (reported_of d neighbor) → acc d = (Ok (val d), d)) →
  raising_in E Inv
    (on_data key (remove_old_probes cfg (now key) None) ≫= λ _,
     on_data key (get_neighbors cfg false) ≫= λ neighbors,
     if decide (neighbor ∈ keys neighbors)
     then on_data key acc ≫= λ quality,
          sendLine (neighbor +:+ ":" +:+ str_float quality)
     else pass).
Proof.
  intros Hacc p Hp. destruct (Inv_data p Hp) as ([nm dd] & d & Hk & Hd).
  simpl in Hd. subst dd.
  destruct (answer_body_run cfg Hcfg now str_float acc val key nm neighbor
              d p Hacc Hk) as (p1 & _ & Hok & Hraise).
  destruct (convertible_cases (evicted cfg (now key) d))
    as [Hc|(n & Hn & Hbad)].
  - destruct (Hok Hc) as (p' & l & Hrun & Hs & _). rewrite Hrun.
    split; [by apply (Inv_served p) | exact Hs].
  - assert (Hnc : ¬ convertible (evicted cfg (now key) d)).
    { intros Hc. by apply Hbad, (proj1 (convertible_reported _) Hc). }
    rewrite (Hraise Hnc). apply (Inv_overflow p _ d Hp Hk eq_refl).
    intros Hc. by apply Hnc, convertible_evicted.
Qed.

End Raising.

Section Dispatch.
Variable cfg : Config.
Hypothesis Hcfg : valid cfg.
Variable now : string → Q.
Variable str_float : Q → string.
Variable str_int : Z → string.
Variable float_of_str : string → option Q.
Variable getChannel : string → Result Z.

(** The outcomes of the [if]/[elif] chain, from the outcomes of its
    parts: a store that is not convertible, an argument of [CHAFT] that
    [float] rejects, and a radio driver that raises. *)
Lemma dispatch_outcome (E : exn → Prop) (J : EtxIpcProtocol → Prop)
    (request : list string) :
  (∀ p p', served p p' → J p → J p') →
  (∀ p k i d, J p → interfaces p !! k = Some i → data i = Some d →
              ¬ convertible d → E OverflowError) →
  (default "" (request !! 0%nat) = "CHAFT" →
   ∀ arg, request !! 1%nat = Some arg → float_of_str arg = None →
          E ValueError) →
  (default "" (request !! 0%nat) = "CHAFT" →
   ∀ p k i e, J p → interfaces p !! k = Some i → is_Some (data i) →
              getChannel (name i) = Raise e → E e) →
  ∀ p, J p →
    match dispatch cfg now str_float str_int float_of_str getChannel
            request p with
    | (Ok _, p') => served p p'
    | (Raise e, _) => E e
    end.
Proof.
  intros HJ Hover Hvalue Hchan p HJp.
  set (Inv := λ (key : string) (q : EtxIpcProtocol), J q ∧ has_data key q).
  assert (HIs : ∀ key q q', served q q' → Inv key q → Inv key q').
  { intros key q q' Hs [H1 H2].
    split; [by apply (HJ q) | by apply (served_has_data key q)]. }
  assert (HId : ∀ key q, Inv key q → has_data key q) by (by intros ? ? [_ ?]).
  assert (HIo : ∀ key q i d, Inv key q → interfaces q !! key = Some i →
                  data i = Some d → ¬ convertible d → E OverflowError).
  { intros key q i d [H1 _]. by apply Hover. }
  assert (HIp : ∀ key interface q, J q →
                  interfaces q !! key = Some interface →
                  is_Some (data interface) → Inv key q).
  { intros key interface q Hq Hk [d Hd]. split; [exact Hq|].
    by exists interface, d. }
  assert (Hloop : ∀ body,
    (∀ key interface q,
       J q → interfaces q !! key = Some interface →
       is_Some (data interface) →
       match body key interface q with
       | (Ok _, q') => served q q'
       | (Raise e, _) => E e
       end) →
    ∀ q, J q →
    match (each_interface_with_data body ≫= λ _, mret Next) q with
    | (Ok _, q') => served q q'
    | (Raise e, _) => E e
    end).
  { intros body Hbody q Hq.
    pose proof (each_interface_outcome E J body HJ Hbody q Hq) as H.
    rewrite bind_run.
    by destruct (each_interface_with_data body q) as [[[]|e] q']. }
  unfold dispatch.
  destruct (String.eqb_spec (default "" (request !! 0%nat)) "NEIGHBORS")
    as [_|_].
  { unfold cmd_NEIGHBORS. destruct (request !! 1%nat) as [if_name|].
    - rewrite bind_run. simpl.
      destruct (decide (if_name ∈ keys (interfaces p))) as [Hin|];
        [|apply served_refl].
      apply elem_of_keys in Hin as [i Hi].
      rewrite bind_run. unfold getitem. rewrite Hi. simpl.
      destruct (data i) as [d|] eqn:Hd; [|apply served_refl].
      rewrite bind_run.
      pose proof (outcome_at E (Inv if_name) _ p
                    (raising_send_neighbors cfg Hcfg now str_float E
                       (Inv if_name) if_name (HIs if_name) (HId if_name)
                       (HIo if_name) if_name)
                    (HIp if_name i p HJp Hi ltac:(by eexists))) as H.
      by destruct (send_neighbors cfg now str_float if_name if_name p)
        as [[[]|e] p'].
    - apply Hloop; [|exact HJp]. intros key interface q Hq Hk Hd.
      apply (outcome_at E (Inv key)); [|by apply (HIp key interface)].
      apply (raising_send_neighbors cfg Hcfg now str_float E (Inv key) key
               (HIs key) (HId key) (HIo key)). }
  destruct (String.eqb_spec (default "" (request !! 0%nat)) "MAC") as [_|_].
  { unfold cmd_MAC. apply Hloop; [|exact HJp].
    intros key interface q Hq Hk Hd.
    apply (outcome_at E (Inv key)); [|by apply (HIp key interface)].
    apply (raising_mac_body cfg Hcfg now str_float E (Inv key) key
             (HIs key) (HId key) (HIo key)). }
  destruct (String.eqb_spec (default "" (request !! 0%nat)) "CHAFT")
    as [Hc|_].
  { unfold cmd_CHAFT. rewrite bind_run.
    assert (Hmin :
      (∃ x, (match request !! 1%nat with
             | Some arg =>
                 x ← to_float float_of_str arg;
                 if Qle_bool 0 x
                 then y ← to_float float_of_str arg;
                      if Qle_bool y 1 then to_float float_of_str arg
                      else mret 0%Q
                 else mret 0%Q
             | None => mret 0%Q
             end) p = (Ok x, p))
      ∨ ((match request !! 1%nat with
          | Some arg =>
              x ← to_float float_of_str arg;
              if Qle_bool 0 x
              then y ← to_float float_of_str arg;
                   if Qle_bool y 1 then to_float float_of_str arg
                   else mret 0%Q
              else mret 0%Q
          | None => mret 0%Q
          end) p = (Raise ValueError, p) ∧ E ValueError)).
    { destruct (request !! 1%nat) as [arg|] eqn:Harg; [|left; by eexists].
      destruct (float_of_str arg) as [x|] eqn:Hx.
      - left. rewrite bind_run. unfold to_float. rewrite Hx. simpl.
        destruct (Qle_bool 0 x); [|by eexists].
        rewrite bind_run. simpl. destruct (Qle_bool x 1); by eexists.
      - right. split; [|by apply (Hvalue Hc arg)].
        rewrite bind_run. unfold to_float. by rewrite Hx. }
    destruct Hmin as [[x ->]|[-> HE]]; [|exact HE].
    apply Hloop; [|exact HJp]. intros key interface q Hq Hk Hd.
    rewrite bind_run. unfold lift.
    destruct (getChannel (name interface)) as [c|e] eqn:Hch.
    - apply (outcome_at E (Inv key)); [|by apply (HIp key interface)].
      apply (raising_chaft_body cfg Hcfg now E (Inv key) key
               (HIs key) (HId key) (HIo key)).
    - by apply (Hchan Hc q key interface e). }
  destruct (String.eqb_spec (default "" (request !! 0%nat)) "QUALITY")
    as [_|_].
  { unfold cmd_QUALITY. destruct (request !! 1%nat) as [neighbor|].
    - apply Hloop; [|exact HJp]. intros key interface q Hq Hk Hd.
      apply (outcome_at E (Inv key)); [|by apply (HIp key interface)].
      apply (raising_answer_body cfg Hcfg now str_float E (Inv key) key
               (HIs key) (HId key) (HIo key) _
               (λ d, prob_of cfg d neighbor)).
      intros d. apply (get_transmission_probability_run cfg Hcfg).
    - rewrite bind_run. apply (serving_sendLine ERR_SYNTAX p). }
  destruct (String.eqb_spec (default "" (request !! 0%nat)) "ETX") as [_|_].
  { unfold cmd_ETX. destruct (request !! 1%nat) as [neighbor|].
    - apply Hloop; [|exact HJp]. intros key interface q Hq Hk Hd.
      apply (outcome_at E (Inv key)); [|by apply (HIp key interface)].
      apply (raising_answer_body cfg Hcfg now str_float E (Inv key) key
               (HIs key) (HId key) (HIo key) _
               (λ d, etx_of cfg d neighbor)).
      intros d. apply (get_etx_run cfg Hcfg).
    - rewrite bind_run. apply (serving_sendLine ERR_SYNTAX p). }
  rewrite bind_run. apply (serving_sendLine ERR_SYNTAX p).
Qed.


End Dispatch.


(** [CHAFT] with a word that is not a number, on the connection of the
    examples: the [ValueError] leaves the handler before any store is
    read, and the connection stays open. *)
Example lineReceived_value_error_example :
  lineReceived cfg_10_1 (λ _, 0%Q) (λ _, "") (λ _, "") (λ _, None)
    (λ _, Ok 0) "CHAFT abc" ipc_wlan0_up
  = (Raise ValueError, ipc_wlan0_up).
Proof. reflexivity. Qed.

(** ** Without the start-up constraint *)

(** X26. The ratios divide by [WINDOW / INTERVAL]: when [INTERVAL] is 0
    or the quotient is 0 (a window shorter than the interval), the
    reverse ratio raises [ZeroDivisionError] on every store and for
    every neighbor. The forward ratio, the transmission probability and
    the ETX convert the reported count first: they raise
    [ZeroDivisionError] when the count is in the range of a double and
    [OverflowError] when it is not. [get_neighbors] returns the empty
    dict on a store without lists of timestamps; on any other store it
    raises one of the two exceptions, and [ZeroDivisionError] when the
    store is convertible. The store is left as it was. *)
Theorem accessors_zero_division (cfg : Config) (s : EtxData) (n : string)
    (etx : bool) :
  INTERVAL cfg = 0 ∨ WINDOW cfg / INTERVAL cfg = 0 →
  _get_reverse_ratio cfg n s = (Raise ZeroDivisionError, s) ∧
  (∃ count,
     _get_num_probes_recv_from_me n s = (Ok count, s) ∧
     (float_range count →
      _get_forward_ratio cfg n s = (Raise ZeroDivisionError, s) ∧
      get_transmission_probability cfg n s = (Raise ZeroDivisionError, s) ∧
      get_etx cfg n s = (Raise ZeroDivisionError, s)) ∧
     (¬ float_range count →
      _get_forward_ratio cfg n s = (Raise OverflowError, s) ∧
      get_transmission_probability cfg n s = (Raise OverflowError, s) ∧
      get_etx cfg n s = (Raise OverflowError, s))) ∧
  (_received_probes s = ∅ → get_neighbors cfg etx s = (Ok ∅, s)) ∧
  (_received_probes s ≠ ∅ →
   (∃ e, get_neighbors cfg etx s = (Raise e, s) ∧
         (e = ZeroDivisionError ∨ e = OverflowError)) ∧
   (convertible s →
    get_neighbors cfg etx s = (Raise ZeroDivisionError, s))).
Proof.
  intros Hzero.
  assert (Hdiv : ∀ x : Q,
    (_get_num_exp_probes cfg ≫= λ expected,
     float_div x expected ≫= λ d,
     if Qlt_le_dec 1 d then mret 1%Q else mret d) s
    = (Raise ZeroDivisionError, s)).
  { intros x. unfold _get_num_exp_probes, int_div, float_div.
    destruct (decide (INTERVAL cfg = 0)) as [|Hi]; [reflexivity|].
    destruct Hzero as [|Hq]; [done|]. rewrite bind_run. simpl. rewrite Hq.
    reflexivity. }
  assert (Hf : ∀ m, float_range (reported_of s m) →
                    _get_forward_ratio cfg m s = (Raise ZeroDivisionError, s)).
  { intros m Hm. unfold _get_forward_ratio.
    rewrite bind_run, get_num_probes_recv_from_me_run.
    rewrite bind_run, (float_of_int_run _ s Hm). apply Hdiv. }
  assert (Hr : _get_reverse_ratio cfg n s = (Raise ZeroDivisionError, s)).
  { unfold _get_reverse_ratio.
    rewrite bind_run, get_num_probes_recv_from_neighbor_run. apply Hdiv. }
  assert (Hp : ∀ m, float_range (reported_of s m) →
                    get_transmission_probability cfg m s
                    = (Raise ZeroDivisionError, s)).
  { intros m Hm. unfold get_transmission_probability.
    by rewrite bind_run, (Hf m Hm). }
  assert (He : ∀ m, float_range (reported_of s m) →
                    get_etx cfg m s = (Raise ZeroDivisionError, s)).
  { intros m Hm. unfold get_etx. by rewrite bind_run, (Hp m Hm). }
  split; [exact Hr|]. split; [|split].
  - exists (reported_of s n).
    split; [apply get_num_probes_recv_from_me_run|]. split.
    + intros Hn. split; [by apply Hf|]. split; [by apply Hp | by apply He].
    + intros Hn. split; [by apply get_forward_ratio_raise|].
      split; [by apply get_transmission_probability_raise|].
      by apply get_etx_raise.
  - intros Hempty. unfold get_neighbors. rewrite bind_run. simpl.
    rewrite Hempty, keys_empty. reflexivity.
  - intros Hne.
    destruct (keys (_received_probes s)) as [|k ks] eqn:Hks.
    { exfalso. apply Hne. apply map_empty. intros k.
      destruct (_received_probes s !! k) eqn:E; [|done].
      assert (Hin : k ∈ keys (_received_probes s))
        by (apply elem_of_keys; by eexists).
      rewrite Hks in Hin. inversion Hin. }
    assert (Hfirst : ∀ e,
      (if etx then get_etx cfg k s else get_transmission_probability cfg k s)
      = (Raise e, s) →
      get_neighbors cfg etx s = (Raise e, s)).
    { intros e Hk. unfold get_neighbors. rewrite bind_run. simpl.
      rewrite Hks. simpl. rewrite bind_run.
      destruct etx; by rewrite bind_run, Hk. }
    split.
    + destruct (float_range_dec (reported_of s k)) as [Hk|Hk].
      * exists ZeroDivisionError. split; [|by left].
        apply Hfirst. destruct etx; [by apply He | by apply Hp].
      * exists OverflowError. split; [|by right].
        apply Hfirst.
        destruct etx;
          [by apply get_etx_raise
          | by apply get_transmission_probability_raise].
    + intros Hc. apply Hfirst.
      assert (Hk : float_range (reported_of s k)).
      { apply (proj1 (convertible_reported s) Hc).
        apply elem_of_keys. rewrite Hks. left. }
      destruct etx; [by apply He | by apply Hp].
Qed.

Lemma accessors_zero_division_witness :
  get_transmission_probability (mkConfig 1 10) "10.0.0.2" store_six_of_ten
    = (Raise ZeroDivisionError, store_six_of_ten) ∧
  get_etx (mkConfig 1 10) "10.0.0.2" store_six_of_ten
    = (Raise ZeroDivisionError, store_six_of_ten) ∧
  get_neighbors (mkConfig 1 10) false store_six_of_ten
    = (Raise ZeroDivisionError, store_six_of_ten).
Proof.
  destruct (accessors_zero_division (mkConfig 1 10) store_six_of_ten
              "10.0.0.2" false) as (_ & (count & Hcount & Hin & _) & _ & Hn).
  - right. reflexivity.
  - injection Hcount as <-.
    destruct Hin as (_ & Hp & He); [vm_compute; reflexivity|].
    split; [exact Hp|]. split; [exact He|].
    apply Hn; [|apply store_six_of_ten_convertible].
    intros Hempty.
    assert (H : _received_probes store_six_of_ten !! "10.0.0.2" = None)
      by (rewrite Hempty; apply lookup_empty).
    discriminate H.
Defined.

(** A window of one second with an interval of ten: the neighbors
    cannot be listed; with a count that [float()] refuses, the
    conversion fails before the division. *)
Example get_neighbors_zero_division :
  (get_neighbors (mkConfig 1 10) false store_six_of_ten).1
    = Raise ZeroDivisionError ∧
  (get_neighbors (mkConfig 1 10) false store_huge_report).1
    = Raise OverflowError.
Proof. vm_compute. split; reflexivity. Qed.

Section Refusals.
Variable cfg : Config.
Variable now : string → Q.
Variable str_float : Q → string.
Variable str_int : Z → string.
Variable float_of_str : string → option Q.
Variable getChannel : string → Result Z.

(** X27. A request whose first word is none of the five commands (a
    blank line among them), and [QUALITY] or [ETX] without an address,
    is answered with the one line [INVALID SYNTAX]; the connection is
    closed, and no store is touched, not even brought up to date. *)
Theorem lineReceived_invalid_syntax (request : string)
    (p : EtxIpcProtocol) :
  default "" (parse_request request !! 0%nat)
    ∉ ["NEIGHBORS"; "MAC"; "CHAFT"; "QUALITY"; "ETX"] ∨
  (default "" (parse_request request !! 0%nat) ∈ ["QUALITY"; "ETX"] ∧
   parse_request request !! 1%nat = None) →
  lineReceived cfg now str_float str_int float_of_str getChannel request p
  = (Ok tt, mkEtxIpcProtocol (interfaces p) (sent p ++ [ERR_SYNTAX]) false).
Proof.
  intros [H|[H Harg]].
  - by rewrite lineReceived_unrecognized.
  - by rewrite lineReceived_missing_argument.
Qed.

End Refusals.

Lemma lineReceived_invalid_syntax_witness :
  lineReceived cfg_10_1 (λ _, 0%Q) (λ _, "") (λ _, "") (λ _, None)
    (λ _, Ok 0) "quality" ipc_wlan0_up
  = (Ok tt, mkEtxIpcProtocol (interfaces ipc_wlan0_up) [ERR_SYNTAX] false).
Proof.
  apply (lineReceived_invalid_syntax cfg_10_1 (λ _, 0%Q) (λ _, "") (λ _, "")
           (λ _, None) (λ _, Ok 0) "quality" ipc_wlan0_up).
  right. split; [|reflexivity]. vm_compute. left.
Defined.

(** ** The debug log *)

Section Log.
Variable cfg : Config.
Hypothesis Hcfg : valid cfg.
Variable now : string → Q.

(** One turn of the loop of [print_data] on an interface with data. *)
Lemma print_interface_run (key nm : string) (d : EtxData) (g : Logger) :
  log_interfaces g !! key = Some (mkInterface nm (Some d)) →
  convertible (evicted cfg (now key) d) →
  (log_on_data key (remove_old_probes cfg (now key) None) ≫= λ _,
   log_on_data key (get_neighbors cfg false) ≫= λ neighbors,
   syslog nm neighbors) g
  = (Ok tt, mkLogger
              (<[key := mkInterface nm (Some (evicted cfg (now key) d))]>
                 (log_interfaces g))
              (messages g ++ [(nm, listed cfg (evicted cfg (now key) d))])
              (print_later g)).
Proof.
  intros Hk Hc. rewrite bind_run. unfold log_on_data at 1.
  rewrite Hk, (evicted_run cfg (now key) d). cbv beta iota.
  rewrite bind_run. unfold log_on_data. cbn [log_interfaces].
  rewrite lookup_insert_eq, (listed_run cfg Hcfg _ Hc). cbv beta iota.
  cbn [messages print_later]. rewrite insert_insert_eq. reflexivity.
Qed.

Lemma print_loop_run (kvs : list (string * Interface)) :
  NoDup kvs.*1 →
  (∀ k i d, (k, i) ∈ kvs → data i = Some d →
            convertible (evicted cfg (now k) d)) →
  ∀ g, (∀ k i, (k, i) ∈ kvs → log_interfaces g !! k = Some i) →
  ∃ ifs',
    for_each kvs.*1 (λ key,
      ifs ← gets log_interfaces;
      interface ← getitem ifs key;
      match data interface with
      | None => pass
      | Some _ =>
          log_on_data key (remove_old_probes cfg (now key) None) ≫= λ _,
          log_on_data key (get_neighbors cfg false) ≫= λ neighbors,
          syslog (name interface) neighbors
      end) g
    = (Ok tt, mkLogger ifs'
                (messages g ++ omap (λ kv : string * Interface,
                   (λ d, (name kv.2, listed cfg (evicted cfg (now kv.1) d)))
                     <$> data kv.2) kvs)
                (print_later g)) ∧
    (∀ k i, (k, i) ∈ kvs → ifs' !! k = Some (refreshed cfg (now k) i)) ∧
    (∀ k, k ∉ kvs.*1 → ifs' !! k = log_interfaces g !! k).
Proof.
  induction kvs as [|[k i] kvs IH]; intros Hnd Hconv g Hin.
  - simpl. exists (log_interfaces g). rewrite app_nil_r. destruct g. simpl.
    split; [reflexivity|]. split; [|done]. intros ? ? H. inversion H.
  - rewrite fmap_cons in Hnd |- *. cbn [for_each omap fst snd].
    apply NoDup_cons in Hnd as [Hk Hnd].
    assert (Hi : log_interfaces g !! k = Some i) by (apply Hin; left).
    assert (Hconv' : ∀ k i d, (k, i) ∈ kvs → data i = Some d →
                              convertible (evicted cfg (now k) d)).
    { intros k' i' d' Hmem. apply Hconv. by right. }
    assert (Hki : ∀ d, data i = Some d →
                       convertible (evicted cfg (now k) d)).
    { intros d. apply Hconv. left. }
    rewrite bind_run, (gets_getitem log_interfaces k _ g _ Hi).
    destruct i as [nm [d|]]; cbn [data name fmap option_fmap option_map].
    + rewrite (print_interface_run k nm d g Hi (Hki d eq_refl)).
      set (g1 := mkLogger
                   (<[k := mkInterface nm (Some (evicted cfg (now k) d))]>
                      (log_interfaces g))
                   (messages g ++ [(nm, listed cfg (evicted cfg (now k) d))])
                   (print_later g)).
      destruct (IH Hnd Hconv' g1) as (ifs' & Hrun & Hin' & Hout').
      { intros k' i' Hk'. unfold g1. simpl.
        rewrite lookup_insert_ne; [apply Hin; by right|].
        intros ->. apply Hk. apply list_elem_of_fmap. by exists (k', i'). }
      exists ifs'. cbv beta iota. rewrite Hrun. unfold g1 at 1 2. simpl.
      rewrite <- app_assoc.
      split; [reflexivity|]. split.
      * intros k' i' Hk'. apply elem_of_cons in Hk' as [[= -> ->]|Hk'].
        -- rewrite (Hout' k Hk). unfold g1. simpl.
           by rewrite lookup_insert_eq.
        -- by apply Hin'.
      * intros k' Hk'. apply not_elem_of_cons in Hk' as [Hne Hk'].
        rewrite (Hout' k' Hk'). unfold g1. simpl.
        by rewrite lookup_insert_ne.
    + destruct (IH Hnd Hconv' g) as (ifs' & Hrun & Hin' & Hout').
      { intros k' i' Hk'. apply Hin. by right. }
      exists ifs'. split; [exact Hrun|]. split.
      * intros k' i' Hk'. apply elem_of_cons in Hk' as [[= -> ->]|Hk'].
        -- rewrite (Hout' k Hk). exact Hi.
        -- by apply Hin'.
      * intros k' Hk'. apply not_elem_of_cons in Hk' as [Hne Hk'].
        by apply Hout'.
Qed.


End Log.

Lemma logger_example_convertible :
  convertible_all (log_interfaces logger_example).
Proof.
  intros k i d Hk Hd. unfold logger_example in Hk. simpl in Hk.
  destruct (decide (k = "wlan0")) as [->|Hne].
  - rewrite lookup_insert_eq in Hk. injection Hk as <-.
    injection Hd as <-. apply store_six_of_ten_convertible.
  - rewrite lookup_insert_ne in Hk by done.
    destruct (decide (k = "wlan1")) as [->|Hne1].
    + rewrite lookup_singleton_eq in Hk. injection Hk as <-. discriminate.
    + rewrite lookup_singleton_ne in Hk by done. discriminate.
Qed.

